(** * gundog: indexer, query engine and index manager

    A shallow embedding of [src/gundog/_indexer.py], [src/gundog/_query.py]
    and of the [IndexManager] and the request handlers of
    [src/gundog/_daemon.py], with the properties of the retrieval core
    stated and proved over it.

    Conventions of the embedding:
    - Python [float]s (cosine scores, RRF weights, mtimes) are exact
      rationals [Q]; every arithmetic step is the exact one.
    - Python [dict]s that are only looked up are [gmap]s; dicts whose
      iteration order decides the result are insertion-ordered association
      lists ([ODict]).
    - Exceptions are the [Raise] branch of [result]; code that mutates
      object attributes before raising threads its state explicitly.
    - The vector store, the similarity graph, the BM25 index, the embedder,
      the chunker and the file system are collaborators whose code lies
      outside the embedded files; they appear as interfaces (classes and
      records of operations). *)

From Stdlib Require Import ZArith QArith Qround Qminmax String List Lia Bool.
From Stdlib Require Import Ascii Decimal DecimalString Lqa.
From stdpp Require Import base gmap strings list option sorting.

Open Scope string_scope.
Open Scope Z_scope.

(* ================================================================== *)
(** * Python values and builtins *)
(* ================================================================== *)

Module Py.

(** The values found in metadata dictionaries ([dict[str, Any]]). *)
Inductive pyval : Type :=
| PNone
| PStr (s : string)
| PInt (z : Z)
| PFloat (q : Q).

(** Python [==] on these values: numbers compare by value across
    [int] and [float]; [None] equals only [None]. *)
Definition py_eqb (a b : pyval) : bool :=
  match a, b with
  | PNone, PNone => true
  | PStr s, PStr t => String.eqb s t
  | PInt x, PInt y => Z.eqb x y
  | PFloat x, PFloat y => Qeq_bool x y
  | PInt x, PFloat y => Qeq_bool (inject_Z x) y
  | PFloat x, PInt y => Qeq_bool x (inject_Z y)
  | _, _ => false
  end.

(** Truthiness, as tested by [if v:] and by [a or b]. *)
Definition truthy (v : pyval) : bool :=
  match v with
  | PNone => false
  | PStr s => negb (String.eqb s "")
  | PInt z => negb (Z.eqb z 0)
  | PFloat q => negb (Qeq_bool q 0)
  end.

(** [d.get(k)]: [None] when the key is absent. *)
Definition dict_get (d : gmap string pyval) (k : string) : pyval :=
  default PNone (d !! k).

(** [d.get(k, dflt)]. *)
Definition dict_get_default (d : gmap string pyval) (k : string) (dflt : pyval) : pyval :=
  default dflt (d !! k).

(** [o or dflt] for an optional string: [None] and [""] are falsy. *)
Definition str_truthy (o : option string) : bool :=
  match o with
  | Some s => negb (String.eqb s "")
  | None => false
  end.

(** [l[:k]]: a negative [k] counts from the end. *)
Definition slice_to {A : Type} (k : Z) (l : list A) : list A :=
  if 0 <=? k then firstn (Z.to_nat k) l
  else firstn (Z.to_nat (Z.of_nat (length l) + k)) l.

(** [enumerate(l)]. *)
Fixpoint enumerate_from {A : Type} (i : Z) (l : list A) : list (Z * A) :=
  match l with
  | [] => []
  | x :: l' => (i, x) :: enumerate_from (i + 1) l'
  end.

Definition enumerate {A : Type} (l : list A) : list (Z * A) := enumerate_from 0 l.

(** Python's sort is stable: elements that compare equal keep their
    relative order. [insert_by before x l] puts [x] in front of the
    first element it may precede. *)
Fixpoint insert_by {A : Type} (before : A -> A -> bool) (x : A) (l : list A) : list A :=
  match l with
  | [] => [x]
  | y :: l' =>
      if before x y then x :: y :: l'
      else y :: insert_by before x l'
  end.

Fixpoint sort_by {A : Type} (before : A -> A -> bool) (l : list A) : list A :=
  match l with
  | [] => []
  | x :: l' => insert_by before x (sort_by before l')
  end.

(** [sorted(l, key=key, reverse=True)] and [l.sort(key=key, reverse=True)]. *)
Definition sort_desc {A : Type} (key : A -> Q) (l : list A) : list A :=
  sort_by (fun x y => Qle_bool (key y) (key x)) l.

(** [l.sort(key=key)]. *)
Definition sort_asc {A : Type} (key : A -> Q) (l : list A) : list A :=
  sort_by (fun x y => Qle_bool (key x) (key y)) l.

(** [s[:k]] on strings. *)
Definition str_slice_to (k : Z) (s : string) : string :=
  if 0 <=? k then String.substring 0 (Z.to_nat k) s
  else String.substring 0 (Z.to_nat (Z.of_nat (String.length s) + k)) s.

(** [s.count("\n")]. *)
Fixpoint count_newlines (s : string) : Z :=
  match s with
  | EmptyString => 0
  | String c s' =>
      (if Ascii.eqb c "010"%char then 1 else 0) + count_newlines s'
  end.

(** The one-character string of a line feed. *)
Definition nl : string := String "010"%char EmptyString.

(** [str(n)] for an [int]. *)
Definition str_of_int (n : Z) : string := NilZero.string_of_int (Z.to_int n).

(** [l[i]]: a negative index counts from the end; [None] stands for
    [IndexError]. *)
Definition list_index {A : Type} (l : list A) (i : Z) : option A :=
  if 0 <=? i then nth_error l (Z.to_nat i)
  else if 0 <=? Z.of_nat (length l) + i
       then nth_error l (Z.to_nat (Z.of_nat (length l) + i))
       else None.

(** Rounding to the nearest integer, ties to the even one, as [round]
    does. *)
Definition round_half_even (x : Q) : Z :=
  let f := Qfloor x in
  match Qcompare (x - inject_Z f) (1 # 2) with
  | Lt => f
  | Gt => f + 1
  | Eq => if Z.even f then f else f + 1
  end.

(** [round(x, 4)]. *)
Definition round4 (x : Q) : Q :=
  inject_Z (round_half_even (x * 10000)) / 10000.

(** Exceptions raised by the embedded code. *)
Inductive exn : Type :=
| ValueError (msg : string)
| KeyError (key : string)
| UnicodeDecodeError (path : string)
| AssertionError
| LoadError (msg : string).

Inductive result (A : Type) : Type :=
| Ok (a : A)
| Raise (e : exn).
Arguments Ok {A} a.
Arguments Raise {A} e.

Definition bind {A B : Type} (m : result A) (k : A -> result B) : result B :=
  match m with
  | Ok a => k a
  | Raise e => Raise e
  end.

(** A [for] loop whose body may raise. *)
Fixpoint for_each {S A : Type} (body : S -> A -> result S) (s : S) (l : list A) : result S :=
  match l with
  | [] => Ok s
  | x :: l' => bind (body s x) (fun s' => for_each body s' l')
  end.

End Py.

Import Py.

(** [result] is used through stdpp's monad notations: [x ← m; k]. *)
#[global] Instance result_ret : MRet result := fun _ a => Ok a.
#[global] Instance result_bind : MBind result := fun _ _ k m => Py.bind m k.

(* ================================================================== *)
(** * Insertion-ordered dictionaries *)
(* ================================================================== *)

Module ODict.

(** A Python [dict] as the list of its items in insertion order.
    Assigning to a key that is present replaces its value in place;
    a new key goes to the end. *)
Definition t (V : Type) : Type := list (string * V).

Fixpoint get {V : Type} (d : t V) (k : string) : option V :=
  match d with
  | [] => None
  | (k', v) :: d' => if String.eqb k k' then Some v else get d' k
  end.

Definition mem {V : Type} (d : t V) (k : string) : bool :=
  match get d k with Some _ => true | None => false end.

Fixpoint set {V : Type} (d : t V) (k : string) (v : V) : t V :=
  match d with
  | [] => [(k, v)]
  | (k', v') :: d' =>
      if String.eqb k k' then (k', v) :: d' else (k', v') :: set d' k v
  end.

Definition keys {V : Type} (d : t V) : list string := map fst d.
Definition values {V : Type} (d : t V) : list V := map snd d.

End ODict.

(* ================================================================== *)
(** * Configuration and collaborators *)
(* ================================================================== *)

(** The configuration dataclasses of [gundog._config], with the fields
    the embedded code reads. *)
Record SourceConfig : Type := {
  src_path : string;
  src_glob : string;
  src_type : option string;
  src_exclude : list string;
  src_exclusion_template : option string
}.

Record ChunkingConfig : Type := {
  chunking_enabled : bool;
  max_tokens : Z;
  overlap_tokens : Z
}.

Record HybridConfig : Type := {
  hybrid_enabled : bool;
  vector_weight : Q;
  bm25_weight : Q
}.

Record GraphConfig : Type := {
  similarity_threshold : Q;
  expand_threshold : Q;
  max_expand_depth : Z
}.

Record GundogConfig : Type := {
  sources : list SourceConfig;
  embedding_model : string;
  storage_backend : string;
  storage_path : string;
  chunking : ChunkingConfig;
  hybrid : HybridConfig;
  graph_cfg : GraphConfig
}.

(** Metadata dictionaries of store entries. *)
Abbreviation Meta := (gmap string pyval).

(** [gundog._store.SearchResult]. *)
Record SearchResult : Type := {
  sr_id : string;
  sr_score : Q;
  sr_metadata : Meta
}.

(** [gundog._chunker.Chunk]. *)
Record Chunk : Type := {
  chunk_index : Z;
  chunk_body : string;
  start_char : Z;
  end_char : Z
}.

(** The entry [graph.expand] returns for a reached node. *)
Record ExpandInfo : Type := {
  ei_type : pyval;
  ei_via : string;
  ei_edge_weight : Q;
  ei_depth : Z
}.

(** The collaborators of the indexer and of the query engine: the
    chunker, the embedder, the vector store's search, the similarity
    graph, the BM25 index, and the library functions [hashlib.sha256],
    [fnmatch], [get_exclusion_patterns], [Path.name] and [Path.__truediv__]. Their code is outside the
    embedded files, so the development is parametric in them. A store is
    the finite map from ids to [(vector, metadata)] of section 4.2 of the
    specification; [upsert], [get] and [delete] are the map's insert,
    lookup and delete. *)
Class Collaborators : Type := {
  (* gundog._chunker *)
  chunk_text : string -> Z -> Z -> list Chunk;
  make_chunk_id : string -> Z -> string;
  parse_chunk_id : string -> string * option Z;
  (* gundog._embedder *)
  Vec : Type;
  embed_text : string -> string -> Vec;
  embed_batch : string -> list string -> list Vec;
  (* gundog._store *)
  store_search : gmap string (Vec * Meta) -> Vec -> Z -> list SearchResult;
  (* gundog._graph *)
  Graph : Type;
  graph_new : Graph;
  graph_build : gmap string Vec -> gmap string Meta -> Q -> Graph;
  graph_expand : Graph -> list string -> Q -> Z -> list (string * ExpandInfo);
  (* gundog._bm25 *)
  BM25 : Type;
  bm25_new : BM25;
  bm25_build : gmap string string -> BM25;
  bm25_search : BM25 -> string -> Z -> list (string * Q);
  bm25_is_empty : BM25 -> bool;
  (* library functions *)
  sha256_hexdigest : string -> string;
  fnmatch : string -> string -> bool;
  get_exclusion_patterns : string -> list string;
  path_name : string -> string;
  path_join : string -> string -> string
}.

Abbreviation Store := (gmap string (Vec * Meta)).

(** The file system as the indexer observes it during one pass. A [Path]
    is identified with its string. *)
Record FileSystem : Type := {
  fs_exists : string -> bool;
  fs_is_file : string -> bool;
  fs_glob : string -> string -> list string;
  fs_mtime : string -> Q;
  fs_read_text : string -> result string
}.

(* ================================================================== *)
(** * The indexer ([src/gundog/_indexer.py]) *)
(* ================================================================== *)

Module Indexer.

(** The summary dictionary returned by [index]. *)
Record Summary : Type := {
  files_total : Z;
  files_indexed : Z;
  files_skipped : Z;
  files_removed : Z;
  chunks_indexed : Z
}.

(** One element of [embed_items]:
    [(id, text, path, type, start_line, end_line)]. *)
Record EmbedItem : Type := {
  it_id : string;
  it_text : string;
  it_path : string;
  it_type : option string;
  it_start_line : option Z;
  it_end_line : option Z
}.

(** The calls on the graph, the BM25 index and the persistence layer
    made by one pass, in order. *)
Inductive Call : Type :=
| GraphBuild
| BM25Build
| StoreSave
| GraphSave
| BM25Save.

#[global] Instance Call_eq_dec : EqDecision Call.
Proof. solve_decision. Defined.

Section WithCollaborators.
Context `{Collaborators}.

(** An [Indexer] object together with the artifacts on disk under
    [config.storage.path]; [None] is an artifact not written yet. *)
Record State : Type := {
  store : Store;
  graph : Graph;
  bm25 : BM25;
  disk_store : option Store;
  disk_graph : option Graph;
  disk_bm25 : option BM25
}.

Variable config : GundogConfig.
Variable fs : FileSystem.

(** [store.all_ids()]. *)
Definition all_ids (st : Store) : list string := (map_to_list st).*1.

Definition _should_exclude (path : string) (excludes : list string) : bool :=
  existsb (fun pattern => fnmatch path pattern) excludes.

Definition _hash_content (content : string) : string :=
  String.substring 0 16 (sha256_hexdigest content).

Definition _scan_source (source : SourceConfig) : list string :=
  if negb (fs_exists fs (src_path source)) then []
  else
    let excludes :=
      (src_exclude source ++
       (if str_truthy (src_exclusion_template source)
        then get_exclusion_patterns (default "" (src_exclusion_template source))
        else []))%list in
    List.filter
      (fun file_path => fs_is_file fs file_path && negb (_should_exclude file_path excludes))
      (fs_glob fs (src_path source) (src_glob source)).

Definition _needs_reindex (st : Store) (file_path : string) : result bool :=
  let file_id := file_path in
  let result :=
    match st !! file_id with
    | None =>
        if chunking_enabled (chunking config)
        then st !! make_chunk_id file_id 0
        else None
    | Some r => Some r
    end in
  match result with
  | None => Ok true
  | Some (_, metadata) =>
      let current_mtime := fs_mtime fs file_path in
      if py_eqb (PFloat current_mtime) (dict_get metadata "mtime") then Ok false
      else
        content ← fs_read_text fs file_path;
        let current_hash := _hash_content content in
        Ok (negb (py_eqb (PStr current_hash) (dict_get metadata "content_hash")))
  end.

(** Lines 119-125: the dictionary [all_files]. *)
Definition scan_all : ODict.t (string * option string) :=
  fold_left
    (fun all_files source =>
       fold_left
         (fun all_files file_path =>
            ODict.set all_files file_path (file_path, src_type source))
         (_scan_source source) all_files)
    (sources config) [].

(** Lines 136-140: one iteration of the removal loop. *)
Definition remove_step (all_files : ODict.t (string * option string))
    (acc : Store * Z) (existing_id : string) : Store * Z :=
  let '(st, removed_count) := acc in
  let '(parent_file, _) := parse_chunk_id existing_id in
  if ODict.mem all_files parent_file then (st, removed_count)
  else (delete existing_id st, removed_count + 1).

(** Lines 130-140: entries whose parent file is gone are deleted. *)
Definition remove_missing (all_files : ODict.t (string * option string)) (st : Store)
  : Store * Z :=
  fold_left (remove_step all_files) (all_ids st) (st, 0).

(** Lines 169-172: the old chunks of a file are deleted before it is
    chunked again. *)
Definition drop_chunks (file_id : string) (st : Store) : Store :=
  fold_left
    (fun st existing_id =>
       let '(parent, _) := parse_chunk_id existing_id in
       if String.eqb parent file_id then delete existing_id st else st)
    (all_ids st) st.

(** Lines 148-152: one iteration of the selection loop. *)
Definition select_step (rebuild : bool) (st : Store)
    (acc : list (string * string * option string) * Z)
    (item : string * (string * option string))
  : result (list (string * string * option string) * Z) :=
  let '(to_index, skipped) := acc in
  let '(file_id, (file_path, file_type)) := item in
  b ← (if rebuild then Ok true else _needs_reindex st file_path);
  if b : bool then Ok ((to_index ++ [(file_id, file_path, file_type)])%list, skipped)
  else Ok (to_index, skipped + 1).

(** Lines 146-152: the list [to_index] and the count of skipped files. *)
Definition select_files (rebuild : bool) (st : Store)
    (all_files : ODict.t (string * option string))
  : result (list (string * string * option string) * Z) :=
  for_each (select_step rebuild st) ([], 0) all_files.

(** Lines 163-209: one iteration of the loop that fills [embed_items];
    a read failure is caught and leaves the state as it is. *)
Definition prepare_file (acc : Store * list EmbedItem)
    (f : string * string * option string) : Store * list EmbedItem :=
  let '(st, embed_items) := acc in
  let '(file_id, file_path, file_type) := f in
  match fs_read_text fs file_path with
  | Raise _ => acc
  | Ok content =>
      if chunking_enabled (chunking config) then
        let st' := drop_chunks file_id st in
        let chunks :=
          chunk_text content (max_tokens (chunking config))
            (overlap_tokens (chunking config)) in
        let items :=
          map
            (fun chunk =>
               {| it_id := make_chunk_id file_id (chunk_index chunk);
                  it_text :=
                    "Path: " ++ file_path ++ nl ++
                    "Chunk " ++ str_of_int (chunk_index chunk + 1) ++ "/" ++
                    str_of_int (Z.of_nat (length chunks)) ++ nl ++ nl ++
                    chunk_body chunk;
                  it_path := file_path;
                  it_type := file_type;
                  it_start_line :=
                    Some (count_newlines (str_slice_to (start_char chunk) content) + 1);
                  it_end_line :=
                    Some (count_newlines (str_slice_to (end_char chunk) content) + 1) |})
            chunks in
        (st', (embed_items ++ items)%list)
      else
        let full_content := "Path: " ++ file_path ++ nl ++ nl ++ content in
        (st, (embed_items ++
              [{| it_id := file_id; it_text := full_content; it_path := file_path;
                  it_type := file_type; it_start_line := None; it_end_line := None |}])%list)
  end.

Definition type_value (file_type : option string) : pyval :=
  match file_type with
  | Some t => PStr t
  | None => PNone
  end.

(** Lines 220-241: one iteration of the loop that stores embeddings. *)
Definition store_item (acc : Store * Z) (p : EmbedItem * Vec) : Store * Z :=
  let '(st, n) := acc in
  let '(item, embedding) := p in
  match fs_read_text fs (it_path item) with
  | Raise _ => acc
  | Ok content =>
      let '(parent_file, chunk_idx) := parse_chunk_id (it_id item) in
      let file_meta : Meta :=
        <["content_hash" := PStr (_hash_content content)]>
          (<["mtime" := PFloat (fs_mtime fs (it_path item))]>
             (<["type" := type_value (it_type item)]> ∅)) in
      let file_meta :=
        match chunk_idx with
        | Some i =>
            let m := <["chunk_index" := PInt i]> (<["parent_file" := PStr parent_file]> file_meta) in
            match it_start_line item with
            | Some sl =>
                <["end_line" := match it_end_line item with
                                | Some el => PInt el
                                | None => PNone
                                end]> (<["start_line" := PInt sl]> m)
            | None => m
            end
        | None => file_meta
        end in
      (<[it_id item := (embedding, file_meta)]> st, n + 1)
  end.

(** Lines 211-241: [zip(..., strict=True)] raises when the embedder
    returns a different number of vectors. *)
Definition store_embeddings (st : Store) (embed_items : list EmbedItem)
  : result (Store * Z) :=
  match embed_items with
  | [] => Ok (st, 0)
  | _ =>
      let texts := map it_text embed_items in
      let embeddings := embed_batch (embedding_model config) texts in
      if Nat.eqb (length embeddings) (length embed_items)
      then Ok (fold_left store_item (combine embed_items embeddings) (st, 0))
      else Raise (ValueError "zip() arguments have different lengths")
  end.

(** Lines 267-306: the documents handed to [bm25.build]. Any exception
    inside the loop body is swallowed. *)
Definition bm25_document (st : Store) (item_id : string) : option string :=
  if chunking_enabled (chunking config) then
    match st !! item_id with
    | None => None
    | Some (_, meta) =>
        match dict_get_default meta "parent_file" (PStr item_id) with
        | PStr file_path =>
            if fs_exists fs file_path then
              match fs_read_text fs file_path with
              | Raise _ => None
              | Ok content =>
                  match dict_get meta "chunk_index" with
                  | PNone => Some (file_path ++ nl ++ content)
                  | PInt chunk_idx =>
                      let chunks :=
                        chunk_text content (max_tokens (chunking config))
                          (overlap_tokens (chunking config)) in
                      if chunk_idx <? Z.of_nat (length chunks) then
                        match list_index chunks chunk_idx with
                        | Some c => Some (file_path ++ nl ++ chunk_body c)
                        | None => None
                        end
                      else None
                  | _ => None
                  end
              end
            else None
        | _ => None
        end
    end
  else
    if fs_exists fs item_id then
      match fs_read_text fs item_id with
      | Raise _ => None
      | Ok content => Some (item_id ++ nl ++ content)
      end
    else None.

Definition bm25_documents (st : Store) : gmap string string :=
  fold_left
    (fun documents item_id =>
       match bm25_document st item_id with
       | Some d => <[item_id := d]> documents
       | None => documents
       end)
    (all_ids st) ∅.

(** Line 244. *)
Definition needs_rebuild (rebuild : bool) (n_indexed n_removed : Z) : bool :=
  rebuild || (n_indexed >? 0) || (n_removed >? 0).

(** [Indexer.index]. *)
Definition index (rebuild : bool) (s : State) : result (Summary * State * list Call) :=
  let all_files := scan_all in
  let '(st, removed_count) := remove_missing all_files (store s) in
  '(to_index, skipped) ← select_files rebuild st all_files;
  '(st, n_chunks) ←
    match to_index with
    | [] => Ok (st, 0)
    | _ =>
        let '(st, embed_items) := fold_left prepare_file to_index (st, []) in
        store_embeddings st embed_items
    end;
  let summary :=
    {| files_total := Z.of_nat (length all_files);
       files_indexed := Z.of_nat (length to_index);
       files_skipped := skipped;
       files_removed := removed_count;
       chunks_indexed := n_chunks |} in
  let rb := needs_rebuild rebuild (files_indexed summary) (files_removed summary) in
  let '(g, calls) :=
    if rb
    then (graph_build (fst <$> st) (snd <$> st)
            (similarity_threshold (graph_cfg config)), [GraphBuild])
    else (graph s, []) in
  let '(b, calls) :=
    if hybrid_enabled (hybrid config) && rb
    then (bm25_build (bm25_documents st), (calls ++ [BM25Build])%list)
    else (bm25 s, calls) in
  let s' :=
    if rb then
      {| store := st; graph := g; bm25 := b;
         disk_store := Some st;
         disk_graph := Some g;
         disk_bm25 := if hybrid_enabled (hybrid config) then Some b else disk_bm25 s |}
    else
      {| store := st; graph := g; bm25 := b;
         disk_store := disk_store s;
         disk_graph := disk_graph s;
         disk_bm25 := disk_bm25 s |} in
  let calls :=
    if rb
    then (calls ++ [StoreSave; GraphSave] ++
          (if hybrid_enabled (hybrid config) then [BM25Save] else []))%list
    else calls in
  Ok (summary, s', calls).

End WithCollaborators.

End Indexer.

(* ================================================================== *)
(** * The query engine ([src/gundog/_query.py]) *)
(* ================================================================== *)

Module Query.

(** An element of [QueryResult.direct]. The [lines] string
    [f"{start_line}-{end_line}"] is kept as the pair of values it
    prints. *)
Record DirectEntry : Type := {
  d_path : string;
  d_type : pyval;
  d_score : Q;
  d_chunk : option Z;
  d_lines : option (pyval * pyval)
}.

(** An element of [QueryResult.related]. *)
Record RelatedEntry : Type := {
  r_path : string;
  r_type : pyval;
  r_via : string;
  r_edge_weight : Q;
  r_depth : Z;
  r_chunk : option Z
}.

Record QueryResult : Type := {
  qr_query : string;
  direct : list DirectEntry;
  related : list RelatedEntry
}.

(** [_rescale_score], a static method. *)
Definition _rescale_score (raw_score baseline : Q) : Q :=
  if Qle_bool raw_score baseline then 0%Q
  else ((raw_score - baseline) / (1 - baseline))%Q.

Definition default_baseline : Q := 1 # 2.

Fixpoint map_result {A B : Type} (f : A -> result B) (l : list A) : result (list B) :=
  match l with
  | [] => Ok []
  | x :: l' => y ← f x; ys ← map_result f l'; Ok (y :: ys)
  end.

Section WithCollaborators.
Context `{Collaborators}.

(** The attributes of a [QueryEngine] after [__init__]. *)
Record QueryEngine : Type := {
  config : GundogConfig;
  store : Store;
  graph : Graph;
  bm25 : BM25
}.

Variable self : QueryEngine.

(** The RRF constant [k = 60]. *)
Definition rrf_k : Z := 60.

(** Lines 65-68: one iteration over [enumerate(vector_results)]. *)
Definition fuse_vector_step
    (acc : ODict.t Q * gmap string Q * gmap string Meta) (p : Z * SearchResult)
  : ODict.t Q * gmap string Q * gmap string Meta :=
  let '(rrf_scores, vector_scores, metadata_map) := acc in
  let '(rank, result) := p in
  (ODict.set rrf_scores (sr_id result)
     (default 0 (ODict.get rrf_scores (sr_id result))
      + vector_weight (hybrid (config self)) / inject_Z (rrf_k + rank))%Q,
   <[sr_id result := sr_score result]> vector_scores,
   <[sr_id result := sr_metadata result]> metadata_map).

(** Lines 71-79: one iteration over [enumerate(bm25_results)]. *)
Definition fuse_bm25_step
    (acc : ODict.t Q * gmap string Meta) (p : Z * (string * Q))
  : ODict.t Q * gmap string Meta :=
  let '(rrf_scores, metadata_map) := acc in
  let '(rank, (doc_id, _)) := p in
  (ODict.set rrf_scores doc_id
     (default 0 (ODict.get rrf_scores doc_id)
      + bm25_weight (hybrid (config self)) / inject_Z (rrf_k + rank))%Q,
   match metadata_map !! doc_id with
   | Some _ => metadata_map
   | None =>
       match store self !! doc_id with
       | Some (_, meta) => <[doc_id := meta]> metadata_map
       | None => <[doc_id := ∅]> metadata_map
       end
   end).

Definition _fuse_results (vector_results : list SearchResult)
    (bm25_results : list (string * Q)) (top_k : Z) : list SearchResult :=
  let '(rrf_scores, vector_scores, metadata_map) :=
    fold_left fuse_vector_step (enumerate vector_results)
      ([], (∅ : gmap string Q), (∅ : gmap string Meta)) in
  let '(rrf_scores, metadata_map) :=
    fold_left fuse_bm25_step (enumerate bm25_results) (rrf_scores, metadata_map) in
  let sorted_ids :=
    sort_desc (fun x => default 0%Q (ODict.get rrf_scores x)) (ODict.keys rrf_scores) in
  map
    (fun doc_id =>
       {| sr_id := doc_id;
          sr_score := default 0%Q (vector_scores !! doc_id);
          sr_metadata := default ∅ (metadata_map !! doc_id) |})
    (slice_to top_k sorted_ids).

(** The loop writes [_chunk_index] and [_parent_file] into the
    metadata dictionary of the result it keeps. *)
Definition dedup_step (best_by_file : ODict.t SearchResult) (result : SearchResult)
  : ODict.t SearchResult :=
  let '(parent_file, chunk_idx) := parse_chunk_id (sr_id result) in
  let file_key := parent_file in
  let better :=
    match ODict.get best_by_file file_key with
    | None => true
    | Some best => negb (Qle_bool (sr_score result) (sr_score best))
    end in
  if better then
    let result :=
      match chunk_idx with
      | Some i =>
          {| sr_id := sr_id result;
             sr_score := sr_score result;
             sr_metadata :=
               <["_parent_file" := PStr parent_file]>
                 (<["_chunk_index" := PInt i]> (sr_metadata result)) |}
      | None => result
      end in
    ODict.set best_by_file file_key result
  else best_by_file.

Definition _deduplicate_chunks (results : list SearchResult) : list SearchResult :=
  if negb (chunking_enabled (chunking (config self))) then results
  else
    let best_by_file := fold_left dedup_step results [] in
    ODict.values best_by_file.

(** Lines 160-166: the dense results at or above [min_score]. *)
Definition dense_results (query_text : string) (top_k : Z) (min_score : Q)
  : list SearchResult :=
  let query_vector := embed_text (embedding_model (config self)) query_text in
  let vector_results := store_search (store self) query_vector (top_k * 2) in
  List.filter (fun r => Qle_bool min_score (sr_score r)) vector_results.

(** Lines 172-175: the BM25 results handed to the fusion. *)
Definition lexical_results (query_text : string) (top_k : Z)
    (vector_results : list SearchResult) : list (string * Q) :=
  let bm25_results := bm25_search (bm25 self) query_text (top_k * 2) in
  let valid_ids : gset string := list_to_set (map sr_id vector_results) in
  List.filter (fun '(id, s) => bool_decide (id ∈ valid_ids)) bm25_results.

(** Lines 160-180: phase 1. *)
Definition search_phase (query_text : string) (top_k : Z) (min_score : Q)
  : list SearchResult :=
  let vector_results := dense_results query_text top_k min_score in
  if hybrid_enabled (hybrid (config self)) && negb (bm25_is_empty (bm25 self)) then
    match vector_results with
    | _ :: _ =>
        _fuse_results vector_results
          (lexical_results query_text top_k vector_results) (top_k * 2)
    | [] => []
    end
  else vector_results.

Definition type_matches (type_filter : option string) (v : pyval) : bool :=
  py_eqb v (PStr (default "" type_filter)).

(** Lines 182-193: the results that become the direct entries. *)
Definition direct_results (query_text : string) (top_k : Z)
    (type_filter : option string) (min_score : Q) : list SearchResult :=
  let search_results := search_phase query_text top_k min_score in
  let search_results := _deduplicate_chunks search_results in
  let search_results :=
    if str_truthy type_filter
    then List.filter
           (fun r => type_matches type_filter (dict_get (sr_metadata r) "type"))
           search_results
    else search_results in
  let search_results := sort_desc sr_score search_results in
  slice_to top_k search_results.

(** Lines 197-210: one direct entry; [r.metadata['end_line']] raises
    [KeyError] when the key is missing. *)
Definition format_direct (r : SearchResult) : result DirectEntry :=
  let '(parent_file, chunk_idx) := parse_chunk_id (sr_id r) in
  let score := round4 (_rescale_score (sr_score r) default_baseline) in
  lines ←
    (if truthy (dict_get (sr_metadata r) "start_line") then
       match sr_metadata r !! "end_line" with
       | Some e => Ok (Some (dict_get (sr_metadata r) "start_line", e))
       | None => Raise (KeyError "end_line")
       end
     else Ok None);
  Ok {| d_path := parent_file;
        d_type := dict_get_default (sr_metadata r) "type" (PStr "unknown");
        d_score := score;
        d_chunk := chunk_idx;
        d_lines := lines |}.

(** Line 216: [expand_depth or self.config.graph.max_expand_depth]. *)
Definition resolve_depth (expand_depth : option Z) : Z :=
  match expand_depth with
  | Some d => if d =? 0 then max_expand_depth (graph_cfg (config self)) else d
  | None => max_expand_depth (graph_cfg (config self))
  end.

(** Lines 230-255: one iteration over [expanded.items()]. *)
Definition related_step (direct_ids direct_parent_files : gset string)
    (type_filter : option string)
    (acc : gset string * list RelatedEntry) (item : string * ExpandInfo)
  : gset string * list RelatedEntry :=
  let '(seen_parent_files, related) := acc in
  let '(node_id, info) := item in
  if bool_decide (node_id ∈ direct_ids) then acc
  else
    let '(parent_file, chunk_idx) := parse_chunk_id node_id in
    if bool_decide (parent_file ∈ direct_parent_files)
       || bool_decide (parent_file ∈ seen_parent_files)
    then acc
    else
      let seen_parent_files := {[parent_file]} ∪ seen_parent_files in
      if str_truthy type_filter && negb (type_matches type_filter (ei_type info))
      then (seen_parent_files, related)
      else
        let '(via_parent, _) := parse_chunk_id (ei_via info) in
        (seen_parent_files,
         (related ++
          [{| r_path := parent_file;
              r_type := ei_type info;
              r_via := via_parent;
              r_edge_weight := round4 (ei_edge_weight info);
              r_depth := ei_depth info;
              r_chunk := chunk_idx |}])%list).

(** Lines 212-258: phase 2. *)
Definition expand_phase (search_results : list SearchResult) (expand : bool)
    (expand_depth : option Z) (type_filter : option string) : list RelatedEntry :=
  match search_results with
  | _ :: _ =>
      if expand then
        let seed_ids := map sr_id search_results in
        let depth := resolve_depth expand_depth in
        let expanded :=
          graph_expand (graph self) seed_ids
            (expand_threshold (graph_cfg (config self))) depth in
        let direct_ids : gset string := list_to_set seed_ids in
        let direct_parent_files : gset string :=
          list_to_set (map (fun sid => fst (parse_chunk_id sid)) seed_ids) in
        let '(_, related) :=
          fold_left (related_step direct_ids direct_parent_files type_filter)
            expanded (∅, []) in
        sort_asc (fun x => (- r_edge_weight x)%Q) related
      else []
  | [] => []
  end.

(** [QueryEngine.query]. *)
Definition query (query_text : string) (top_k : Z) (expand : bool)
    (expand_depth : option Z) (type_filter : option string) (min_score : Q)
  : result QueryResult :=
  let search_results := direct_results query_text top_k type_filter min_score in
  direct ← map_result format_direct search_results;
  let related := expand_phase search_results expand expand_depth type_filter in
  Ok {| qr_query := query_text; direct := direct; related := related |}.

End WithCollaborators.

End Query.

(* ================================================================== *)
(** * The index manager ([src/gundog/_daemon.py]) *)
(* ================================================================== *)

Module Daemon.

(** Modelled from the spec: [DaemonConfig] of [gundog._daemon_config],
    whose code is not part of the embedded files. Section 4.7 describes
    it as a registry from index names to directories and a default
    name; [get_index_path] is the registry lookup. *)
Record DaemonConfig : Type := {
  indexes : gmap string string;
  default_index : option string
}.

Definition get_index_path (cfg : DaemonConfig) (name : string) : option string :=
  indexes cfg !! name.

Section WithCollaborators.
Context `{Collaborators}.

(** What constructing a [QueryEngine] reads from disk; each operation
    may raise. *)
Record Disk : Type := {
  config_file_exists : string -> bool;
  load_config : string -> result GundogConfig;
  load_embedder : string -> result unit;
  load_store : string -> string -> result Store;
  load_graph : string -> result Graph;
  load_bm25 : string -> result BM25
}.

(** The attributes [_engine] and [_active_index] of an [IndexManager]. *)
Record Manager : Type := {
  _engine : option Query.QueryEngine;
  _active_index : option string
}.

(** Methods of the manager: they read and write its attributes and
    may raise; attributes written before an exception stay written. *)
Definition M (A : Type) : Type := Manager -> result A * Manager.

Definition ret {A : Type} (a : A) : M A := fun m => (Ok a, m).
Definition raise {A : Type} (e : exn) : M A := fun m => (Raise e, m).
Definition lift {A : Type} (r : result A) : M A := fun m => (r, m).
Definition seq {A B : Type} (c : M A) (k : A -> M B) : M B :=
  fun m =>
    match c m with
    | (Ok a, m') => k a m'
    | (Raise e, m') => (Raise e, m')
    end.
Definition get_self : M Manager := fun m => (Ok m, m).
Definition set_engine (e : Query.QueryEngine) : M unit :=
  fun m => (Ok tt, {| _engine := Some e; _active_index := _active_index m |}).
Definition set_active_index (name : string) : M unit :=
  fun m => (Ok tt, {| _engine := _engine m; _active_index := Some name |}).

Variable daemon_config : DaemonConfig.
Variable disk : Disk.
(** The field defaults of the [GundogConfig] dataclasses. *)
Variable defaults : GundogConfig.

Definition with_storage_path (c : GundogConfig) (p : string) : GundogConfig :=
  {| sources := sources c;
     embedding_model := embedding_model c;
     storage_backend := storage_backend c;
     storage_path := p;
     chunking := chunking c;
     hybrid := hybrid c;
     graph_cfg := graph_cfg c |}.

Definition with_sources (c : GundogConfig) (l : list SourceConfig) : GundogConfig :=
  {| sources := l;
     embedding_model := embedding_model c;
     storage_backend := storage_backend c;
     storage_path := storage_path c;
     chunking := chunking c;
     hybrid := hybrid c;
     graph_cfg := graph_cfg c |}.

(** [QueryEngine.__init__] ([_query.py], lines 34-45). *)
Definition QueryEngine_init (config : GundogConfig) : result Query.QueryEngine :=
  _ ← load_embedder disk (embedding_model config);
  st ← load_store disk (storage_backend config) (storage_path config);
  g ← load_graph disk (path_join (storage_path config) "graph.json");
  b ← (if hybrid_enabled (hybrid config)
       then load_bm25 disk (path_join (storage_path config) "bm25.pkl")
       else Ok bm25_new);
  Ok {| Query.config := config; Query.store := st; Query.graph := g; Query.bm25 := b |}.

Definition is_some {A : Type} (o : option A) : bool :=
  match o with Some _ => true | None => false end.

(** [IndexManager.load_index]. *)
Definition load_index (name : string) : M unit :=
  seq get_self (fun self =>
  if bool_decide (Some name = _active_index self) && is_some (_engine self)
  then ret tt
  else
    match get_index_path daemon_config name with
    | None => raise (ValueError ("Unknown index: " ++ name))
    | Some index_path =>
        let path := index_path in
        let gundog_dir :=
          if String.eqb (path_name path) ".gundog" then path
          else path_join path ".gundog" in
        let config_file := path_join gundog_dir "config.yaml" in
        seq (if config_file_exists disk config_file
             then seq (lift (load_config disk config_file)) (fun gundog_config =>
                    ret (with_storage_path gundog_config (path_join gundog_dir "index")))
             else ret (with_storage_path (with_sources defaults [])
                         (path_join gundog_dir "index")))
          (fun gundog_config =>
        seq (lift (QueryEngine_init gundog_config)) (fun engine =>
        seq (set_engine engine) (fun _ =>
        set_active_index name)))
    end).

(** [IndexManager.ensure_loaded]. *)
Definition ensure_loaded (index_name : option string) : M Query.QueryEngine :=
  let target := if str_truthy index_name then index_name else default_index daemon_config in
  match target with
  | None => raise (ValueError "No index specified and no default_index configured.")
  | Some target =>
      seq (load_index target) (fun _ =>
      seq get_self (fun self =>
      match _engine self with
      | Some e => ret e
      | None => raise AssertionError
      end))
  end.

(** [IndexManager.__init__]. *)
Definition new_manager : Manager := {| _engine := None; _active_index := None |}.

End WithCollaborators.

End Daemon.

(* ================================================================== *)
(** * The request handlers of the daemon ([create_app], [src/gundog/_daemon.py]) *)
(* ================================================================== *)

Module App.

(** What a handler may let through: an exception of the manager or of
    the engine, or the [AttributeError] of [lines.split] on a value that
    is not a string, with the name of the missing attribute. *)
Inductive raised : Type :=
| Exn (e : exn)
| AttributeError (attribute : string).

(** How a request handler ends: it returns, it raises an
    [HTTPException] with a status code and a detail, or it lets another
    exception through. *)
Inductive response (A : Type) : Type :=
| Return (a : A)
| HTTPException (status_code : Z) (detail : string)
| Uncaught (e : raised).
Arguments Return {A} a.
Arguments HTTPException {A} status_code detail.
Arguments Uncaught {A} e.

(** The elements of ["direct"] and ["related"] in the reply of
    [/api/query] (lines 169-191). *)
Record ApiDirect : Type := {
  ad_path : string;
  ad_name : string;
  ad_type : pyval;
  ad_score : pyval;
  ad_lines : pyval;
  ad_url : string
}.

Record ApiRelated : Type := {
  ar_path : string;
  ar_name : string;
  ar_type : pyval;
  ar_via : string;
  ar_via_name : string;
  ar_weight : pyval;
  ar_url : string
}.

Record QueryReply : Type := {
  rp_query : string;
  rp_index : option string;
  rp_direct : list ApiDirect;
  rp_related : list ApiRelated
}.

(** [s.split("-")]. *)
Fixpoint split_dash_from (current s : string) : list string :=
  match s with
  | EmptyString => [current]
  | String c s' =>
      if Ascii.eqb c "-"%char then current :: split_dash_from EmptyString s'
      else split_dash_from (current ++ String c EmptyString) s'
  end.

Definition split_dash (s : string) : list string := split_dash_from EmptyString s.

Section WithCollaborators.
Context `{Collaborators}.

Variable daemon_config : Daemon.DaemonConfig.
Variable disk : Daemon.Disk.
Variable defaults : GundogConfig.

(** Code outside the embedded files: [build_line_anchor] of
    [gundog._git]; the builtin [int] on strings, which raises
    [ValueError]; [repr] of a float; the message of the interpreter's
    [ValueError] for unpacking a list of the wrong length into two
    names; [str] of an exception that is not a plain [ValueError]; and
    whether the error of a loader is an instance of [ValueError]. *)
Variable build_line_anchor : pyval -> Z -> Z -> string.
Variable py_int : string -> result Z.
Variable float_repr : Q -> string.
Variable unpack_message : nat -> string.
Variable exn_str : exn -> string.
Variable load_error_is_ValueError : string -> bool.

(** [str(v)], as an f-string formats a value. *)
Definition format_value (v : pyval) : string :=
  match v with
  | PNone => "None"
  | PStr s => s
  | PInt z => str_of_int z
  | PFloat q => float_repr q
  end.

(** The dictionary that [QueryEngine.query] builds for a direct match
    ([_query.py], lines 199-209). *)
Definition direct_dict (d : Query.DirectEntry) : gmap string pyval :=
  let result_entry : gmap string pyval :=
    <["score" := PFloat (Query.d_score d)]>
      (<["type" := Query.d_type d]> (<["path" := PStr (Query.d_path d)]> ∅)) in
  let result_entry :=
    match Query.d_chunk d with
    | Some chunk_idx => <["chunk" := PInt chunk_idx]> result_entry
    | None => result_entry
    end in
  match Query.d_lines d with
  | Some (start_line, end_line) =>
      <["lines" := PStr (format_value start_line ++ "-" ++ format_value end_line)]>
        result_entry
  | None => result_entry
  end.

(** The dictionary built for a related file ([_query.py], lines
    246-254). *)
Definition related_dict (r : Query.RelatedEntry) : gmap string pyval :=
  let related_entry : gmap string pyval :=
    <["depth" := PInt (Query.r_depth r)]>
      (<["edge_weight" := PFloat (Query.r_edge_weight r)]>
         (<["via" := PStr (Query.r_via r)]>
            (<["type" := Query.r_type r]> (<["path" := PStr (Query.r_path r)]> ∅)))) in
  match Query.r_chunk r with
  | Some chunk_idx => <["chunk" := PInt chunk_idx]> related_entry
  | None => related_entry
  end.

(** [build_file_url] (lines 107-123). *)
Definition build_file_url (result : gmap string pyval) : response string :=
  let git_url := dict_get result "git_url" in
  let git_branch := dict_get result "git_branch" in
  let git_relative_path := dict_get result "git_relative_path" in
  if negb (truthy git_url) || negb (truthy git_branch) || negb (truthy git_relative_path)
  then Return ""
  else
    let url :=
      format_value git_url ++ "/blob/" ++ format_value git_branch ++ "/"
      ++ format_value git_relative_path in
    let lines := dict_get result "lines" in
    if truthy lines then
      match lines with
      | PStr l =>
          match split_dash l with
          | [start; end_] =>
              match py_int start with
              | Raise e => Uncaught (Exn e)
              | Ok s =>
                  match py_int end_ with
                  | Raise e => Uncaught (Exn e)
                  | Ok e => Return (url ++ build_line_anchor git_url s e)
                  end
              end
          | parts => Uncaught (Exn (ValueError (unpack_message (length parts))))
          end
      | _ => Uncaught (AttributeError "split")
      end
    else Return url.

(** [isinstance(e, ValueError)]; [UnicodeDecodeError] is a subclass of
    [ValueError]. *)
Definition is_ValueError (e : exn) : bool :=
  match e with
  | ValueError _ | UnicodeDecodeError _ => true
  | KeyError _ | AssertionError => false
  | LoadError msg => load_error_is_ValueError msg
  end.

(** [str(e)]. *)
Definition str_of_exn (e : exn) : string :=
  match e with
  | ValueError msg => msg
  | _ => exn_str e
  end.

(** A list comprehension whose element expression may raise. *)
Fixpoint map_response {A B : Type} (f : A -> response B) (l : list A) : response (list B) :=
  match l with
  | [] => Return []
  | x :: l' =>
      match f x with
      | Return y =>
          match map_response f l' with
          | Return ys => Return (y :: ys)
          | HTTPException c d => HTTPException c d
          | Uncaught e => Uncaught e
          end
      | HTTPException c d => HTTPException c d
      | Uncaught e => Uncaught e
      end
  end.

Definition api_direct (d : Query.DirectEntry) : response ApiDirect :=
  let dict := direct_dict d in
  match build_file_url dict with
  | Return url =>
      Return {| ad_path := Query.d_path d;
                ad_name := path_name (Query.d_path d);
                ad_type := Query.d_type d;
                ad_score := PFloat (Query.d_score d);
                ad_lines := dict_get dict "lines";
                ad_url := url |}
  | HTTPException c d => HTTPException c d
  | Uncaught e => Uncaught e
  end.

Definition api_related (r : Query.RelatedEntry) : response ApiRelated :=
  let dict := related_dict r in
  match build_file_url dict with
  | Return url =>
      Return {| ar_path := Query.r_path r;
                ar_name := path_name (Query.r_path r);
                ar_type := Query.r_type r;
                ar_via := Query.r_via r;
                ar_via_name := path_name (Query.r_via r);
                ar_weight := PFloat (Query.r_edge_weight r);
                ar_url := url |}
  | HTTPException c d => HTTPException c d
  | Uncaught e => Uncaught e
  end.

(** A handler runs against the [IndexManager] that [create_app] set
    up. *)
Definition Handler (A : Type) : Type := Daemon.Manager -> response A * Daemon.Manager.

(** [POST /api/indexes/active] (lines 141-150). *)
Definition set_active_index (name : string) : Handler (option string) :=
  fun manager =>
    match Daemon.indexes daemon_config !! name with
    | None => (HTTPException 404 ("Unknown index: " ++ name), manager)
    | Some _ =>
        match Daemon.load_index daemon_config disk defaults name manager with
        | (Ok _, manager') => (Return (Daemon._active_index manager'), manager')
        | (Raise e, manager') => (Uncaught (Exn e), manager')
        end
    end.

(** [GET /api/query] (lines 152-192); [q] and [k] arrive validated by
    the framework. *)
Definition query_api (q : string) (k : Z) (index : option string) : Handler QueryReply :=
  fun manager =>
    match Daemon.ensure_loaded daemon_config disk defaults index manager with
    | (Raise e, manager') =>
        if is_ValueError e then (HTTPException 400 (str_of_exn e), manager')
        else (Uncaught (Exn e), manager')
    | (Ok engine, manager') =>
        match Query.query engine q k true None None (1 # 2) with
        | Raise e => (Uncaught (Exn e), manager')
        | Ok result =>
            match map_response api_direct (Query.direct result) with
            | HTTPException c d => (HTTPException c d, manager')
            | Uncaught e => (Uncaught e, manager')
            | Return direct =>
                match map_response api_related (Query.related result) with
                | HTTPException c d => (HTTPException c d, manager')
                | Uncaught e => (Uncaught e, manager')
                | Return related =>
                    (Return {| rp_query := Query.qr_query result;
                               rp_index := Daemon._active_index manager';
                               rp_direct := direct;
                               rp_related := related |},
                     manager')
                end
            end
        end
    end.

(** The startup hook [warmup] (lines 204-214): every exception is
    caught. *)
Definition warmup : Daemon.Manager -> unit * Daemon.Manager :=
  fun manager =>
    if str_truthy (Daemon.default_index daemon_config) then
      match Daemon.ensure_loaded daemon_config disk defaults None manager with
      | (Ok engine, manager') =>
          let _ := Query.query engine "warmup" 1 true None None (1 # 2) in
          (tt, manager')
      | (Raise _, manager') => (tt, manager')
      end
    else (tt, manager).

End WithCollaborators.

End App.

(* ================================================================== *)
(** * Chunk ids, and a small instance of the collaborators *)
(* ================================================================== *)

Module ChunkId.

(** [s.rsplit(sep, 1)]: the text before and after the last occurrence
    of [sep]. *)
Fixpoint rsplit_once (sep s : string) : option (string * string) :=
  match s with
  | EmptyString => None
  | String c s' =>
      match rsplit_once sep s' with
      | Some (a, b) => Some (String c a, b)
      | None =>
          if String.prefix sep s
          then Some (EmptyString,
                     String.substring (String.length sep)
                       (String.length s - String.length sep) s)
          else None
      end
  end.

(** Modelled from the spec: [make_chunk_id] of [gundog._chunker], whose
    code is not part of the embedded files. Section 3 gives the id of a
    chunk as [parent_path + "#chunk_" + chunk_index]. *)
Definition make_chunk_id (file_id : string) (i : Z) : string :=
  file_id ++ "#chunk_" ++ str_of_int i.

(** Modelled from the spec: [parse_chunk_id] of [gundog._chunker], whose
    code is not part of the embedded files. Section 3: an id is either a
    parent path or [parent_path + "#chunk_" + chunk_index], and parsing
    inverts [make_chunk_id]; the text after the last ["#chunk_"] is read
    as the index. *)
Definition parse_chunk_id (chunk_id : string) : string * option Z :=
  match rsplit_once "#chunk_" chunk_id with
  | Some (parent, idx) =>
      match NilZero.uint_of_string idx with
      | Some u => (parent, Some (Z.of_uint u))
      | None => (chunk_id, None)
      end
  | None => (chunk_id, None)
  end.

(** Modelled from the spec: [chunk_text] of [gundog._chunker], for texts
    that fit one chunk. Section 4.1: empty text yields no chunk; a text of
    at most [max_tokens] tokens yields one chunk with [chunk_index = 0]
    spanning the whole text. *)
Definition chunk_text (text : string) (max_tokens overlap_tokens : Z) : list Chunk :=
  match text with
  | EmptyString => []
  | _ => [{| chunk_index := 0; chunk_body := text;
             start_char := 0; end_char := Z.of_nat (String.length text) |}]
  end.

End ChunkId.

Module Demo.

(** Vectors are lists of rationals; the score of a stored vector is
    its dot product with the query vector (section 4.2: cosine of unit
    vectors). *)
Definition dot (u v : list Q) : Q :=
  fold_right Qplus 0%Q (zip_with Qmult u v).

(** Every text embeds to the unit vector [(1, 0)], so the score of a
    stored unit vector [(c, s)] is [c]. *)
Definition unit_x : list Q := [1%Q; 0%Q].

Definition search (st : gmap string (list Q * Meta)) (q : list Q) (k : Z)
  : list SearchResult :=
  let entries := sort_by (fun a b => String.leb (fst a) (fst b)) (map_to_list st) in
  let scored :=
    map (fun '(id, (v, m)) => {| sr_id := id; sr_score := dot q v; sr_metadata := m |})
      entries in
  firstn (Z.to_nat k) (sort_desc sr_score scored).

(** A graph is its list of weighted edges and the types of its nodes. *)
Definition graph : Type := list (string * string * Q) * gmap string pyval.

Definition build (vectors : gmap string (list Q)) (metadata : gmap string Meta)
    (threshold : Q) : graph :=
  let nodes := map_to_list vectors in
  (flat_map
     (fun '(a, u) =>
        flat_map
          (fun '(b, v) =>
             if String.ltb a b && negb (Qle_bool (dot u v) threshold)
             then [(a, b, dot u v)] else [])
          nodes)
     nodes,
   (fun m => dict_get m "type") <$> metadata).

Definition neighbours (g : graph) (min_weight : Q) (u : string) : list (string * Q) :=
  flat_map
    (fun '(a, b, w) =>
       if Qle_bool min_weight w then
         if String.eqb a u then [(b, w)]
         else if String.eqb b u then [(a, w)] else []
       else [])
    (fst g).

(** Breadth-first expansion, one level per unit of [depth]. *)
Fixpoint expand_levels (g : graph) (min_weight : Q) (seeds : list string)
    (depth : nat) (level : Z) (frontier : list string)
    (found : ODict.t ExpandInfo) : ODict.t ExpandInfo :=
  match depth with
  | O => found
  | S depth' =>
      let '(found, next) :=
        fold_left
          (fun '(found, next) u =>
             fold_left
               (fun '(found, next) '(v, w) =>
                  if existsb (String.eqb v) seeds || ODict.mem found v
                  then (found, next)
                  else
                    (ODict.set found v
                       {| ei_type := default PNone (snd g !! v);
                          ei_via := u; ei_edge_weight := w; ei_depth := level |},
                     (next ++ [v])%list))
               (neighbours g min_weight u) (found, next))
          frontier (found, []) in
      expand_levels g min_weight seeds depth' (level + 1) next found
  end.

Definition expand (g : graph) (seeds : list string) (min_weight : Q) (max_depth : Z)
  : list (string * ExpandInfo) :=
  expand_levels g min_weight seeds (Z.to_nat max_depth) 1 seeds [].

(** The lexical index keeps the documents; a document matches when it
    contains the query text, with score 1. *)
Fixpoint contains (needle hay : string) : bool :=
  String.prefix needle hay ||
  match hay with
  | EmptyString => false
  | String _ hay' => contains needle hay'
  end.

Definition lexical_search (docs : gmap string string) (q : string) (k : Z)
  : list (string * Q) :=
  firstn (Z.to_nat k)
    (omap (fun '(id, d) => if contains q d then Some (id, 1%Q) else None)
       (map_to_list docs)).

Fixpoint basename (acc s : string) : string :=
  match s with
  | EmptyString => acc
  | String c s' =>
      if Ascii.eqb c "/"%char then basename EmptyString s'
      else basename (acc ++ String c EmptyString) s'
  end.

#[local] Instance collaborators : Collaborators := {|
  chunk_text := ChunkId.chunk_text;
  make_chunk_id := ChunkId.make_chunk_id;
  parse_chunk_id := ChunkId.parse_chunk_id;
  Vec := list Q;
  embed_text := fun _ _ => unit_x;
  embed_batch := fun _ texts => map (fun _ => unit_x) texts;
  store_search := search;
  Graph := graph;
  graph_new := ([], ∅);
  graph_build := build;
  graph_expand := expand;
  BM25 := gmap string string;
  bm25_new := ∅;
  bm25_build := fun docs => docs;
  bm25_search := lexical_search;
  bm25_is_empty := fun docs => bool_decide (docs = ∅);
  sha256_hexdigest := fun s => s;
  fnmatch := String.eqb;
  get_exclusion_patterns := fun _ => [];
  path_name := basename EmptyString;
  path_join := fun a b => a ++ "/" ++ b
|}.

End Demo.

(* ================================================================== *)
(** * Concrete runs *)
(* ================================================================== *)

Module Scenario.

#[local] Existing Instance Demo.collaborators.

Definition cfg (chunk hyb : bool) (srcs : list SourceConfig) : GundogConfig :=
  {| sources := srcs;
     embedding_model := "model";
     storage_backend := "numpy";
     storage_path := ".gundog/index";
     chunking := {| chunking_enabled := chunk; max_tokens := 512; overlap_tokens := 50 |};
     hybrid := {| hybrid_enabled := hyb; vector_weight := 1; bm25_weight := 1 |};
     graph_cfg := {| similarity_threshold := 65 # 100;
                     expand_threshold := 60 # 100;
                     max_expand_depth := 2 |} |}.

(** ** The indexer *)

(** A file system given by the table of its files: path, mtime and
    text, or the error that reading it raises. A glob under a root
    matches every file below that root. *)
Definition table_fs (files : list (string * Q * result string)) : FileSystem :=
  let find p := List.find (fun f => String.eqb (f.1.1) p) files in
  {| fs_exists := fun p =>
       existsb (fun f => String.prefix p (f.1.1)) files;
     fs_is_file := fun p =>
       match find p with Some _ => true | None => false end;
     fs_glob := fun root _ =>
       map (fun f => f.1.1)
         (List.filter (fun f => String.prefix (root ++ "/") (f.1.1)) files);
     fs_mtime := fun p =>
       match find p with Some f => f.1.2 | None => 0%Q end;
     fs_read_text := fun p =>
       match find p with
       | Some f => f.2
       | None => Raise (LoadError p)
       end |}.

Definition docs_source : SourceConfig :=
  {| src_path := "docs"; src_glob := "**/*"; src_type := Some "docs";
     src_exclude := []; src_exclusion_template := None |}.

(** A fresh indexer: empty store, nothing on disk. *)
Definition fresh : Indexer.State :=
  {| Indexer.store := ∅; Indexer.graph := graph_new; Indexer.bm25 := bm25_new;
     Indexer.disk_store := None; Indexer.disk_graph := None;
     Indexer.disk_bm25 := None |}.

(** One readable file. *)
Definition fs_one : FileSystem :=
  table_fs [("docs/a.md", 100%Q, Ok "hello world")].

(** One file that is not valid UTF-8: reading it raises. *)
Definition fs_undecodable : FileSystem :=
  table_fs [("docs/logo.png", 100%Q, Raise (UnicodeDecodeError "docs/logo.png"))].

(** One empty file. *)
Definition fs_empty_file : FileSystem :=
  table_fs [("docs/__init__.py", 100%Q, Ok "")].

(** No file at all. *)
Definition fs_none : FileSystem := table_fs [].

(** The state an indexer is left in by a pass, or [fresh] if the pass
    raised. *)
Definition state_after (r : result (Indexer.Summary * Indexer.State * list Indexer.Call))
  : Indexer.State :=
  match r with
  | Ok (_, s, _) => s
  | Raise _ => fresh
  end.

(** What a pass reports and the calls it makes. *)
Definition outcome (r : result (Indexer.Summary * Indexer.State * list Indexer.Call))
  : option (Indexer.Summary * list Indexer.Call) :=
  match r with
  | Ok (summary, _, calls) => Some (summary, calls)
  | Raise _ => None
  end.

Definition counts (total indexed skipped removed chunks : Z) : Indexer.Summary :=
  {| Indexer.files_total := total; Indexer.files_indexed := indexed;
     Indexer.files_skipped := skipped; Indexer.files_removed := removed;
     Indexer.chunks_indexed := chunks |}.

(** ** The query engine *)

Definition typed (t : string) : Meta := {[ "type" := PStr t ]}.

(** Two chunks of [big.py] and one of [util.py], with cosines 0.8, 0.6
    and 0.28 to the query. *)
Definition chunk_store : gmap string (list Q * Meta) :=
  <["big.py#chunk_0" := ([4 # 5; 3 # 5], typed "code")]>
    (<["big.py#chunk_1" := ([3 # 5; 4 # 5], typed "code")]>
       (<["util.py#chunk_0" := ([7 # 25; 24 # 25], typed "code")]> ∅)).

Definition chunk_graph : Demo.graph :=
  ([("big.py#chunk_0", "util.py#chunk_0", 9 # 10);
    ("big.py#chunk_0", "big.py#chunk_1", 8 # 10)],
   {[ "util.py#chunk_0" := PStr "code"; "big.py#chunk_1" := PStr "code" ]}).

Definition engine (chunk hyb : bool) : Query.QueryEngine :=
  {| Query.config := cfg chunk hyb [];
     Query.store := chunk_store;
     Query.graph := chunk_graph;
     Query.bm25 := {[ "big.py#chunk_1" := "def hello(): pass";
                      "util.py#chunk_0" := "hello helpers" ]} |}.

(** ** The index manager *)

Definition registry : Daemon.DaemonConfig :=
  {| Daemon.indexes := {[ "x" := "/repos/x" ]}; Daemon.default_index := Some "x" |}.

(** A disk on which [/repos/x] has no [config.yaml] and every artifact
    loads. *)
Definition good_disk : Daemon.Disk :=
  {| Daemon.config_file_exists := fun _ => false;
     Daemon.load_config := fun p => Raise (LoadError p);
     Daemon.load_embedder := fun _ => Ok tt;
     Daemon.load_store := fun _ _ => Ok chunk_store;
     Daemon.load_graph := fun _ => Ok chunk_graph;
     Daemon.load_bm25 := fun _ => Ok (∅ : gmap string string) |}.

(** A disk whose store artifact is corrupt. *)
Definition corrupt_disk : Daemon.Disk :=
  {| Daemon.config_file_exists := fun _ => false;
     Daemon.load_config := fun p => Raise (LoadError p);
     Daemon.load_embedder := fun _ => Ok tt;
     Daemon.load_store := fun _ p => Raise (LoadError p);
     Daemon.load_graph := fun _ => Ok chunk_graph;
     Daemon.load_bm25 := fun _ => Ok (∅ : gmap string string) |}.

End Scenario.

(* ================================================================== *)
(** * The properties, in the words of the specification *)
(* ================================================================== *)

Module Spec.

(** A list is in non-increasing order of [key] when every element is
    at least as large as all those after it. *)
Definition desc {A : Type} (key : A -> Q) (x y : A) : Prop := (key y <= key x)%Q.

(** Section 4.6, step 8: [max(0, (raw − 0.5)/(1 − 0.5))]. *)
Definition rescale (raw : Q) : Q :=
  Qmax 0 ((raw - (1 # 2)) / (1 - (1 # 2))).

(** The parent file of a store id. *)
Definition parent_file `{Collaborators} (id : string) : string :=
  (parse_chunk_id id).1.

(** Two search results for the same id with the same score. *)
Definition same_hit (v r : SearchResult) : Prop :=
  sr_id v = sr_id r /\ sr_score v = sr_score r.

(** Section 4.6, step 3: an id survived step 2 when it is the id of one
    of the dense results that passed the [min_score] filter. *)
Definition survived (vector_results : list SearchResult) (id : string) : bool :=
  existsb (fun v => String.eqb (sr_id v) id) vector_results.

Section IndexerSpec.
Context `{Collaborators}.
Variable config : GundogConfig.
Variable fs : FileSystem.

Definition has_entry (st : Store) (id : string) : bool :=
  match st !! id with Some _ => true | None => false end.

(** Section 4.5, step 3 (b): no store entry exists for the file or,
    with chunking enabled, for its first chunk. *)
Definition no_entry (st : Store) (file_path : string) : bool :=
  negb (has_entry st file_path)
  && (negb (chunking_enabled (chunking config))
      || negb (has_entry st (make_chunk_id file_path 0))).

(** The metadata stored for a file: that of the entry under its path,
    else, with chunking enabled, that of its first chunk. *)
Definition stored_metadata (st : Store) (file_path : string) : option Meta :=
  match st !! file_path with
  | Some e => Some e.2
  | None =>
      if chunking_enabled (chunking config)
      then snd <$> st !! make_chunk_id file_path 0
      else None
  end.

(** Step 3 (c), first half: the file's mtime differs from the stored
    value. *)
Definition mtime_differs (st : Store) (file_path : string) : bool :=
  match stored_metadata st file_path with
  | Some m => negb (py_eqb (PFloat (fs_mtime fs file_path)) (dict_get m "mtime"))
  | None => false
  end.

(** Step 3 (c), second half: the hash of the file's content differs
    from the stored value. *)
Definition hash_differs (st : Store) (file_path : string) : bool :=
  match stored_metadata st file_path, fs_read_text fs file_path with
  | Some m, Ok content =>
      negb (py_eqb (PStr (Indexer._hash_content content)) (dict_get m "content_hash"))
  | _, _ => false
  end.

(** Step 3: a file needs (re)indexing iff (a) or (b) or (c). *)
Definition needs_indexing (rebuild : bool) (st : Store) (file_path : string) : bool :=
  rebuild || no_entry st file_path
  || (mtime_differs st file_path && hash_differs st file_path).

Definition selected (rebuild : bool) (st : Store)
    (item : string * (string * option string)) : bool :=
  needs_indexing rebuild st item.2.1.

Definition as_triple (item : string * (string * option string))
  : string * string * option string :=
  (item.1, item.2.1, item.2.2).

(** The store that the selection consults: the indexer's store after
    the entries of vanished files were deleted. *)
Definition store_at_selection (s : Indexer.State) : Store :=
  (Indexer.remove_missing (Indexer.scan_all config fs) (Indexer.store s)).1.

Definition is_save (c : Indexer.Call) : Prop :=
  c = Indexer.StoreSave \/ c = Indexer.GraphSave \/ c = Indexer.BM25Save.

Definition same_disk (s s' : Indexer.State) : Prop :=
  Indexer.disk_store s' = Indexer.disk_store s /\
  Indexer.disk_graph s' = Indexer.disk_graph s /\
  Indexer.disk_bm25 s' = Indexer.disk_bm25 s.

(** The id under which a file's entry, or with chunking enabled its
    first chunk, is stored. *)
Definition entry_id (file_id : string) : string :=
  if chunking_enabled (chunking config) then make_chunk_id file_id 0 else file_id.

(** The entry records the mtime of the item's file. *)
Definition records_mtime (item : Indexer.EmbedItem) (e : Vec * Meta) : Prop :=
  e.2 !! "mtime" = Some (PFloat (fs_mtime fs (Indexer.it_path item))).

(** The calls a pass makes when it rebuilds, in order. *)
Definition rebuild_calls : list Indexer.Call :=
  ([Indexer.GraphBuild]
   ++ (if hybrid_enabled (hybrid config) then [Indexer.BM25Build] else [])
   ++ [Indexer.StoreSave; Indexer.GraphSave]
   ++ (if hybrid_enabled (hybrid config) then [Indexer.BM25Save] else []))%list.

(** Section 4.5, step 7, as worded: graph and BM25 are rebuilt iff a
    file was indexed or an entry removed. *)
Definition rebuilds_iff_changed (rebuild : bool) (s : Indexer.State) : Prop :=
  forall summary s' calls,
    Indexer.index config fs rebuild s = Ok (summary, s', calls) ->
    (Indexer.GraphBuild ∈ calls /\ Indexer.BM25Build ∈ calls) <->
    (0 < Indexer.files_indexed summary \/ 0 < Indexer.files_removed summary).

End IndexerSpec.

Section ManagerSpec.
Context `{Collaborators}.
Variable daemon_config : Daemon.DaemonConfig.
Variable disk : Daemon.Disk.
Variable defaults : GundogConfig.

(** The states of the manager of a daemon: the one [__init__] sets
    up, and those left by calls of [load_index] and [ensure_loaded],
    whether they return or raise. *)
Inductive reachable : Daemon.Manager -> Prop :=
| reach_new : reachable Daemon.new_manager
| reach_load (m : Daemon.Manager) (name : string) :
    reachable m ->
    reachable (Daemon.load_index daemon_config disk defaults name m).2
| reach_ensure (m : Daemon.Manager) (index_name : option string) :
    reachable m ->
    reachable (Daemon.ensure_loaded daemon_config disk defaults index_name m).2.

(** The error for a name that is not in the registry. *)
Definition unknown_index (name : string) : exn :=
  ValueError ("Unknown index: " ++ name).

(** The name is the active one and an engine is loaded. *)
Definition already_loaded (name : string) (m : Daemon.Manager) : bool :=
  bool_decide (Some name = Daemon._active_index m) && Daemon.is_some (Daemon._engine m).

End ManagerSpec.

End Spec.

(* ================================================================== *)
(** * Further properties and concrete cases *)
(* ================================================================== *)

Module Props.

Section IndexerProps.
Context `{Collaborators}.
Variable fs : FileSystem.

(** The file can be read as UTF-8 text. *)
Definition readable (path : string) : bool :=
  match fs_read_text fs path with
  | Ok _ => true
  | Raise _ => false
  end.

(** The shape of the metadata that the storing loop of [index] writes
    (lines 224-236): [type], a float [mtime] and a string
    [content_hash] are present; [start_line] and [end_line] come
    together, and so do [chunk_index] and [parent_file]. *)
Definition meta_ok (m : Meta) : Prop :=
  is_Some (m !! "type") /\
  (exists t, m !! "mtime" = Some (PFloat t)) /\
  (exists h, m !! "content_hash" = Some (PStr h)) /\
  (is_Some (m !! "start_line") <-> is_Some (m !! "end_line")) /\
  (is_Some (m !! "chunk_index") <-> is_Some (m !! "parent_file")).

End IndexerProps.

End Props.

Module ManagerProps.

Section WithCollaborators.
Context `{Collaborators}.

(** The [.gundog] directory of a registered index path
    ([_daemon.py], lines 44-45). *)
Definition gundog_dir (index_path : string) : string :=
  if String.eqb (path_name index_path) ".gundog" then index_path
  else path_join index_path ".gundog".

(** The index that a request asks for: the one it names, else the
    default ([_daemon.py], line 66). *)
Definition target_index (daemon_config : Daemon.DaemonConfig) (index_name : option string)
  : option string :=
  if str_truthy index_name then index_name else Daemon.default_index daemon_config.

End WithCollaborators.

End ManagerProps.

Module Cases.

#[local] Existing Instance Demo.collaborators.

(** An engine over a store whose only entry has a [start_line] and no
    [end_line]. *)
Definition engine_without_end_line : Query.QueryEngine :=
  {| Query.config := Scenario.cfg true false [];
     Query.store :=
       {[ "a.py#chunk_0" :=
            ([1%Q; 0%Q], <["start_line" := PInt 1]> (Scenario.typed "code")) ]};
     Query.graph := graph_new;
     Query.bm25 := bm25_new |}.

(** An indexer whose store holds an entry for [docs/logo.png] with an
    older mtime. *)
Definition stale_state : Indexer.State :=
  {| Indexer.store :=
       {[ "docs/logo.png" :=
            ([1%Q; 0%Q],
             <["content_hash" := PStr "0000"]>
               (<["mtime" := PFloat 50]> (Scenario.typed "docs"))) ]};
     Indexer.graph := graph_new; Indexer.bm25 := bm25_new;
     Indexer.disk_store := None; Indexer.disk_graph := None;
     Indexer.disk_bm25 := None |}.

End Cases.

(* ================================================================== *)
(** * Facts about the Python builtins *)
(* ================================================================== *)

Import Spec.

Section PyFacts.
Context {A : Type}.
Implicit Types (l : list A) (before : A -> A -> bool) (key : A -> Q).

Lemma insert_by_perm before x l : insert_by before x l ≡ₚ x :: l.
Proof.
  induction l as [|y l IH]; simpl; [done|].
  destruct (before x y); [done|].
  rewrite IH. apply Permutation_swap.
Qed.

Lemma sort_by_perm before l : sort_by before l ≡ₚ l.
Proof.
  induction l as [|x l IH]; simpl; [done|].
  rewrite insert_by_perm. by rewrite IH.
Qed.

Lemma sort_desc_perm key l : sort_desc key l ≡ₚ l.
Proof. apply sort_by_perm. Qed.

Lemma sort_asc_perm key l : sort_asc key l ≡ₚ l.
Proof. apply sort_by_perm. Qed.

Lemma slice_to_sublist k l : slice_to k l `sublist_of` l.
Proof. unfold slice_to. destruct (0 <=? k); apply sublist_take. Qed.

Lemma slice_to_prefix k l : ∃ n, slice_to k l = take n l.
Proof. unfold slice_to. destruct (0 <=? k); eauto. Qed.

Lemma insert_desc_sorted key x l :
  StronglySorted (desc key) l ->
  StronglySorted (desc key) (insert_by (fun x y => Qle_bool (key y) (key x)) x l).
Proof.
  induction 1 as [|y l Hs IH Hy]; simpl.
  - repeat constructor.
  - destruct (Qle_bool (key y) (key x)) eqn:E.
    + apply Qle_bool_iff in E.
      constructor; [by constructor|].
      constructor; [exact E|].
      eapply Forall_impl; [exact Hy|].
      intros z Hz. unfold desc in *. eapply Qle_trans; eauto.
    + constructor; [exact IH|].
      rewrite insert_by_perm. constructor; [|exact Hy].
      unfold desc. destruct (Qlt_le_dec (key y) (key x)) as [Hlt|Hle]; [|exact Hle].
      apply Qlt_le_weak in Hlt. apply Qle_bool_iff in Hlt. congruence.
Qed.

Lemma sort_desc_sorted key l : StronglySorted (desc key) (sort_desc key l).
Proof.
  unfold sort_desc. induction l as [|x l IH]; simpl; [constructor|].
  by apply insert_desc_sorted.
Qed.

Lemma StronglySorted_take (R : A -> A -> Prop) n l :
  StronglySorted R l -> StronglySorted R (take n l).
Proof.
  intros Hs. rewrite <- (take_drop n l) in Hs.
  by apply StronglySorted_app_1_l in Hs.
Qed.

End PyFacts.

(** [round] fixes the integers. *)
Lemma round_half_even_Z (z : Z) : round_half_even (inject_Z z) = z.
Proof.
  unfold round_half_even. rewrite Qfloor_Z.
  assert (E : (inject_Z z - inject_Z z ?= 1 # 2)%Q = Lt).
  { apply Qlt_alt.
    assert (E0 : (inject_Z z - inject_Z z == 0)%Q) by ring.
    rewrite E0. reflexivity. }
  by rewrite E.
Qed.

(** [round] is monotone. *)
Lemma round_half_even_mono (x y : Q) :
  (x <= y)%Q -> round_half_even x <= round_half_even y.
Proof.
  intros Hxy. unfold round_half_even.
  pose proof (Qfloor_resp_le _ _ Hxy) as Hf.
  pose proof (Qfloor_le x) as Hx1. pose proof (Qlt_floor x) as Hx2.
  pose proof (Qfloor_le y) as Hy1. pose proof (Qlt_floor y) as Hy2.
  destruct (Z.eq_dec (Qfloor x) (Qfloor y)) as [E|NE].
  - rewrite <- E in *.
    assert (Hab : (x - inject_Z (Qfloor x) <= y - inject_Z (Qfloor x))%Q).
    { apply Qplus_le_l with (z := inject_Z (Qfloor x)). by ring_simplify. }
    destruct (Qcompare_spec (x - inject_Z (Qfloor x)) (1 # 2)) as [Ex|Lx|Gx];
      destruct (Qcompare_spec (y - inject_Z (Qfloor x)) (1 # 2)) as [Ey|Ly|Gy];
      try destruct (Z.even (Qfloor x)); try lia;
      exfalso; apply (Qle_not_lt _ _ Hab);
      first [ by eapply Qlt_trans; eauto | by rewrite Ey | by rewrite Ex ].
  - assert (Qfloor x + 1 <= Qfloor y) by lia.
    destruct (Qcompare (x - inject_Z (Qfloor x)) (1 # 2));
      destruct (Qcompare (y - inject_Z (Qfloor y)) (1 # 2));
      try destruct (Z.even (Qfloor x)); try destruct (Z.even (Qfloor y)); lia.
Qed.

Lemma round4_mono (x y : Q) : (x <= y)%Q -> (round4 x <= round4 y)%Q.
Proof.
  intros Hxy. unfold round4.
  apply Qmult_le_compat_r; [|done].
  rewrite <- Zle_Qle. apply round_half_even_mono.
  apply Qmult_le_compat_r; done.
Qed.

Lemma round4_0 : (round4 0 == 0)%Q.
Proof. reflexivity. Qed.

Lemma round4_1 : (round4 1 == 1)%Q.
Proof. reflexivity. Qed.

Lemma round4_proper (x y : Q) : (x == y)%Q -> round4 x = round4 y.
Proof.
  intros E. unfold round4, round_half_even.
  assert (E' : (x * 10000 == y * 10000)%Q) by (by rewrite E).
  rewrite (Qfloor_comp _ _ E').
  assert (Ec : (x * 10000 - inject_Z (Qfloor (y * 10000)) ?= 1 # 2)%Q
             = (y * 10000 - inject_Z (Qfloor (y * 10000)) ?= 1 # 2)%Q).
  { apply Qcompare_comp; [by rewrite E'|done]. }
  by rewrite Ec.
Qed.

(** Loop invariants for [fold_left]. *)
Lemma fold_left_inv {A B : Type} (P : B -> Prop) (f : B -> A -> B) (l : list A) (b : B) :
  P b -> (forall b x, x ∈ l -> P b -> P (f b x)) -> P (fold_left f l b).
Proof.
  revert b. induction l as [|x l IH]; intros b Hb Hstep; simpl; [done|].
  apply IH.
  - apply Hstep; [left|done].
  - intros b' y Hy. apply Hstep. by right.
Qed.

(** Something every iteration establishes for its element, and no later
    iteration undoes, holds at the end for all elements. *)
Lemma fold_left_reach {A B : Type} (R : A -> B -> Prop) (f : B -> A -> B) :
  (forall b x, R x (f b x)) ->
  (forall b x y, R x b -> R x (f b y)) ->
  forall l b x, x ∈ l -> R x (fold_left f l b).
Proof.
  intros Hnow Hkeep l. induction l as [|y l IH]; intros b x Hx; simpl.
  - by apply elem_of_nil in Hx.
  - apply elem_of_cons in Hx as [->|Hx]; [|by apply IH].
    apply (fold_left_inv (R y)); [apply Hnow|]. intros; by apply Hkeep.
Qed.

Lemma elem_of_enumerate_from {A : Type} (i : Z) (l : list A) (p : Z * A) :
  p ∈ enumerate_from i l -> p.2 ∈ l.
Proof.
  revert i. induction l as [|x l IH]; intros i Hp; simpl in *.
  - by apply elem_of_nil in Hp.
  - apply elem_of_cons in Hp as [->|Hp]; [left|right; eauto].
Qed.

Lemma elem_of_enumerate_from_2 {A : Type} (i : Z) (l : list A) (x : A) :
  x ∈ l -> exists r, (r, x) ∈ enumerate_from i l.
Proof.
  revert i. induction l as [|y l IH]; intros i Hx; simpl in *.
  - by apply elem_of_nil in Hx.
  - apply elem_of_cons in Hx as [->|Hx].
    + exists i. left.
    + destruct (IH (i + 1) Hx) as [r Hr]. exists r. by right.
Qed.

Module ODictFacts.
Import ODict.

Section Facts.
Context {V : Type}.
Implicit Types (d : t V) (k : string) (v : V).

Lemma mem_keys d k : mem d k = true <-> k ∈ keys d.
Proof.
  unfold mem, keys. induction d as [|[k' v'] d IH]; simpl.
  - split; [done|]. intros Hk. by apply elem_of_nil in Hk.
  - destruct (String.eqb_spec k k') as [->|Hne].
    + split; [left|done].
    + rewrite IH. split; [by right|].
      intros Hk. apply elem_of_cons in Hk as [?|?]; [done|done].
Qed.

Lemma keys_set d k v :
  keys (set d k v) = if mem d k then keys d else (keys d ++ [k])%list.
Proof.
  unfold mem, keys. induction d as [|[k' v'] d IH]; simpl; [done|].
  destruct (String.eqb_spec k k') as [->|Hne]; simpl; [done|].
  rewrite IH. by destruct (get d k).
Qed.

Lemma elem_of_keys_set d k v k' : k' ∈ keys (set d k v) <-> k' = k \/ k' ∈ keys d.
Proof.
  rewrite keys_set. destruct (mem d k) eqn:E.
  - apply mem_keys in E. split; [by right|]. intros [->|?]; done.
  - rewrite elem_of_app, list_elem_of_singleton. tauto.
Qed.

Lemma NoDup_keys_set d k v : NoDup (keys d) -> NoDup (keys (set d k v)).
Proof.
  intros Hd. rewrite keys_set. destruct (mem d k) eqn:E; [done|].
  apply NoDup_app. split_and!; [done| |apply NoDup_singleton].
  intros x Hx Hx'. apply list_elem_of_singleton in Hx' as ->.
  apply mem_keys in Hx. congruence.
Qed.

Lemma elem_of_set d k v (p : string * V) :
  p ∈ set d k v -> p = (k, v) \/ p ∈ d.
Proof.
  induction d as [|[k' v'] d IH]; simpl.
  - intros Hp. apply list_elem_of_singleton in Hp. by left.
  - destruct (String.eqb_spec k k') as [->|Hne]; intros Hp;
      apply elem_of_cons in Hp as [->|Hp].
    + by left.
    + right. by right.
    + right. left.
    + destruct (IH Hp) as [?|?]; [by left|right; by right].
Qed.

End Facts.
End ODictFacts.

(* ================================================================== *)
(** * Facts about the query engine *)
(* ================================================================== *)

Lemma map_result_Forall2 {A B : Type} (f : A -> result B) (l : list A) (ys : list B) :
  Query.map_result f l = Ok ys -> Forall2 (fun x y => f x = Ok y) l ys.
Proof.
  revert ys. induction l as [|x l IH]; simpl; intros ys Hys.
  - injection Hys as <-. constructor.
  - destruct (f x) as [y|e] eqn:Ey; [|done]. simpl in Hys.
    destruct (Query.map_result f l) as [ys'|e]; [|done]. simpl in Hys.
    injection Hys as <-. constructor; auto.
Qed.

Lemma rescale_half (raw : Q) :
  ((raw - (1 # 2)) / (1 - (1 # 2)) == 2 * raw - 1)%Q.
Proof. field. Qed.

(** The code's rescaling is the formula of the specification. *)
Lemma rescale_score_spec (raw : Q) :
  (Query._rescale_score raw Query.default_baseline == rescale raw)%Q.
Proof.
  unfold Query._rescale_score, Query.default_baseline, rescale.
  destruct (Qle_bool raw (1 # 2)) eqn:E.
  - apply Qle_bool_iff in E. symmetry. apply Q.max_l.
    rewrite rescale_half. lra.
  - symmetry. apply Q.max_r.
    rewrite rescale_half.
    destruct (Qlt_le_dec (1 # 2) raw) as [Hlt|Hle]; [lra|].
    apply Qle_bool_iff in Hle. congruence.
Qed.

Lemma rescale_score_nonneg (raw : Q) :
  (0 <= Query._rescale_score raw Query.default_baseline)%Q.
Proof. rewrite rescale_score_spec. apply Q.le_max_l. Qed.

Lemma rescale_score_le_1 (raw : Q) :
  (raw <= 1)%Q -> (Query._rescale_score raw Query.default_baseline <= 1)%Q.
Proof.
  intros Hraw. rewrite rescale_score_spec. unfold rescale.
  apply Q.max_lub; [done|]. rewrite rescale_half. lra.
Qed.

Lemma rescale_score_mono (a b : Q) :
  (a <= b)%Q ->
  (Query._rescale_score a Query.default_baseline
   <= Query._rescale_score b Query.default_baseline)%Q.
Proof.
  intros Hab. rewrite !rescale_score_spec. unfold rescale.
  apply Q.max_le_compat_l. rewrite !rescale_half. lra.
Qed.

Section QueryFacts.
Context `{Collaborators}.
Variable self : Query.QueryEngine.

Lemma elem_of_sort_desc {A : Type} (key : A -> Q) (l : list A) (x : A) :
  x ∈ sort_desc key l <-> x ∈ l.
Proof. by rewrite sort_desc_perm. Qed.

Lemma elem_of_slice_to {A : Type} (k : Z) (l : list A) (x : A) :
  x ∈ slice_to k l -> x ∈ l.
Proof. intros Hx. eapply elem_of_sublist; [exact Hx|apply slice_to_sublist]. Qed.

(** Every fused result carries the id and the score of a dense
    result, when the lexical ids are among the dense ones. *)
Lemma fuse_same_hit vector_results bm25_results top_k r :
  (forall p, p ∈ bm25_results -> p.1 ∈ map sr_id vector_results) ->
  r ∈ Query._fuse_results self vector_results bm25_results top_k ->
  exists v, v ∈ vector_results /\ same_hit v r.
Proof.
  intros Hlex. unfold Query._fuse_results.
  set (step1 := Query.fuse_vector_step self).
  set (step2 := Query.fuse_bm25_step self).
  destruct (fold_left step1 (enumerate vector_results) ([], ∅, ∅))
    as [[rrf1 vs] mm1] eqn:E1.
  destruct (fold_left step2 (enumerate bm25_results) (rrf1, mm1)) as [rrf2 mm2] eqn:E2.
  intros Hr.
  (* the scores recorded are scores of dense results *)
  assert (Hvs : forall id s, vs !! id = Some s ->
            exists v, v ∈ vector_results /\ sr_id v = id /\ sr_score v = s).
  { pose proof (fold_left_inv
      (fun acc : ODict.t Q * gmap string Q * gmap string Meta =>
         forall id s, acc.1.2 !! id = Some s ->
           exists v, v ∈ vector_results /\ sr_id v = id /\ sr_score v = s)
      step1 (enumerate vector_results) ([], ∅, ∅)) as Hinv.
    rewrite E1 in Hinv. apply Hinv; clear Hinv.
    - intros id s. simpl. by rewrite lookup_empty.
    - intros [[rrf vs'] mm] [rank x] Hx IH id s. simpl in *.
      apply elem_of_enumerate_from in Hx. simpl in Hx.
      destruct (decide (sr_id x = id)) as [<-|Hne].
      + rewrite lookup_insert_eq. intros [= <-]. eauto.
      + rewrite lookup_insert_ne by done. apply IH. }
  (* every dense id has a recorded score *)
  assert (Hall : forall v, v ∈ vector_results -> is_Some (vs !! sr_id v)).
  { intros v Hv. destruct (elem_of_enumerate_from_2 0 _ _ Hv) as [rank Hrank].
    pose proof (fold_left_reach
      (fun (p : Z * SearchResult) (acc : ODict.t Q * gmap string Q * gmap string Meta) =>
         is_Some (acc.1.2 !! sr_id p.2)) step1) as Hreach.
    specialize (Hreach
      ltac:(intros [[rrf vs'] mm] [rk x]; simpl; rewrite lookup_insert_eq; eauto)
      ltac:(intros [[rrf vs'] mm] [rk x] [rk' y]; simpl; intros Hs;
            destruct (decide (sr_id y = sr_id x)) as [->|Hne];
            [rewrite lookup_insert_eq; eauto | by rewrite lookup_insert_ne])
      (enumerate vector_results) ([], ∅, ∅) (rank, v) Hrank).
    by rewrite E1 in Hreach. }
  (* the fused ids are dense ids *)
  assert (Hk1 : forall id, id ∈ ODict.keys rrf1 -> id ∈ map sr_id vector_results).
  { pose proof (fold_left_inv
      (fun acc : ODict.t Q * gmap string Q * gmap string Meta =>
         forall id, id ∈ ODict.keys acc.1.1 -> id ∈ map sr_id vector_results)
      step1 (enumerate vector_results) ([], ∅, ∅)) as Hinv.
    rewrite E1 in Hinv. apply Hinv; clear Hinv.
    - intros id Hid. by apply elem_of_nil in Hid.
    - intros [[rrf vs'] mm] [rank x] Hx IH id. simpl in *.
      apply elem_of_enumerate_from in Hx. simpl in Hx.
      rewrite ODictFacts.elem_of_keys_set. intros [->|Hid]; [|by apply IH].
      apply list_elem_of_fmap. eauto. }
  assert (Hk2 : forall id, id ∈ ODict.keys rrf2 -> id ∈ map sr_id vector_results).
  { pose proof (fold_left_inv
      (fun acc : ODict.t Q * gmap string Meta =>
         forall id, id ∈ ODict.keys acc.1 -> id ∈ map sr_id vector_results)
      step2 (enumerate bm25_results) (rrf1, mm1)) as Hinv.
    rewrite E2 in Hinv. apply Hinv; clear Hinv; [exact Hk1|].
    intros [rrf mm] [rank [doc_id sc]] Hx IH id. simpl in *.
    apply elem_of_enumerate_from in Hx. simpl in Hx.
    rewrite ODictFacts.elem_of_keys_set. intros [->|Hid]; [|by apply IH].
    apply (Hlex _ Hx). }
  apply list_elem_of_fmap in Hr as (id & -> & Hid).
  apply elem_of_slice_to, elem_of_sort_desc, Hk2 in Hid.
  apply list_elem_of_fmap in Hid as (v0 & -> & Hv0).
  destruct (Hall _ Hv0) as [s Hs].
  destruct (Hvs _ _ Hs) as (v & Hv & Hidv & Hsv).
  exists v. split; [done|]. split; simpl; [done|]. by rewrite Hs.
Qed.

Lemma filter_sublist {A : Type} (f : A -> bool) (l : list A) :
  List.filter f l `sublist_of` l.
Proof.
  induction l as [|x l IH]; simpl; [constructor|].
  destruct (f x); by constructor.
Qed.

Lemma elem_of_List_filter {A : Type} (f : A -> bool) (l : list A) (x : A) :
  x ∈ List.filter f l <-> x ∈ l /\ f x = true.
Proof. rewrite !list_elem_of_In. apply filter_In. Qed.

Lemma values_keys {V : Type} (f : V -> string) (d : ODict.t V) :
  (forall p, p ∈ d -> f p.2 = p.1) -> map f (ODict.values d) = ODict.keys d.
Proof.
  unfold ODict.values, ODict.keys.
  induction d as [|[k v] d IH]; simpl; intros Hd; [done|].
  f_equal; [apply (Hd (k, v)); left|].
  apply IH. intros p Hp. apply Hd. by right.
Qed.

(** The loop of [_deduplicate_chunks]: the keys of [best_by_file] are
    distinct, each is the parent file of its value, and each value has
    the id and the score of one of the results. *)
Lemma dedup_loop_inv (results : list SearchResult) :
  let best_by_file := fold_left Query.dedup_step results [] in
  NoDup (ODict.keys best_by_file) /\
  forall p, p ∈ best_by_file ->
    parent_file (sr_id p.2) = p.1 /\ exists v, v ∈ results /\ same_hit v p.2.
Proof.
  apply (fold_left_inv
    (fun best : ODict.t SearchResult =>
       NoDup (ODict.keys best) /\
       forall p, p ∈ best ->
         parent_file (sr_id p.2) = p.1 /\ exists v, v ∈ results /\ same_hit v p.2)).
  - split; [constructor|]. intros p Hp. by apply elem_of_nil in Hp.
  - intros best x Hx [Hnd Hbest]. unfold Query.dedup_step.
    destruct (parse_chunk_id (sr_id x)) as [parent chunk_idx] eqn:Ep.
    match goal with |- context [if ?b then _ else _] => destruct b end; [|done].
    split; [by apply ODictFacts.NoDup_keys_set|].
    intros p Hp. apply ODictFacts.elem_of_set in Hp as [->|Hp]; [|by apply Hbest].
    simpl. unfold parent_file.
    destruct chunk_idx; simpl; rewrite Ep; (split; [done|]);
      exists x; by repeat split.
Qed.

Lemma dedup_same_hit (results : list SearchResult) (r : SearchResult) :
  r ∈ Query._deduplicate_chunks self results ->
  exists v, v ∈ results /\ same_hit v r.
Proof.
  unfold Query._deduplicate_chunks.
  destruct (negb _).
  - intros Hr. exists r. by repeat split.
  - intros Hr. unfold ODict.values in Hr.
    apply list_elem_of_fmap in Hr as (p & -> & Hp).
    by apply (dedup_loop_inv results).
Qed.

Lemma dedup_NoDup (results : list SearchResult) :
  chunking_enabled (chunking (Query.config self)) = true ->
  NoDup (map (fun r => parent_file (sr_id r)) (Query._deduplicate_chunks self results)).
Proof.
  intros Hc. unfold Query._deduplicate_chunks. rewrite Hc. simpl.
  destruct (dedup_loop_inv results) as [Hnd Hbest].
  rewrite values_keys; [done|]. intros p Hp. by apply Hbest.
Qed.

Lemma search_phase_same_hit query_text top_k min_score r :
  r ∈ Query.search_phase self query_text top_k min_score ->
  exists v, v ∈ Query.dense_results self query_text top_k min_score /\ same_hit v r.
Proof.
  unfold Query.search_phase.
  destruct (_ && _).
  - destruct (Query.dense_results self query_text top_k min_score) as [|v0 vs] eqn:E.
    + intros Hr. by apply elem_of_nil in Hr.
    + rewrite <- E. apply fuse_same_hit. intros [id s] Hp.
      unfold Query.lexical_results in Hp.
      apply elem_of_List_filter in Hp as [_ Hp]. simpl in Hp.
      apply bool_decide_eq_true in Hp. by apply elem_of_list_to_set in Hp.
  - intros Hr. exists r. by repeat split.
Qed.

(** The results behind the direct entries are a sub-multiset of the
    deduplicated search results. *)
Lemma direct_results_submseteq query_text top_k type_filter min_score :
  Query.direct_results self query_text top_k type_filter min_score
  ⊆+ Query._deduplicate_chunks self (Query.search_phase self query_text top_k min_score).
Proof.
  unfold Query.direct_results.
  etrans; [apply sublist_submseteq, slice_to_sublist|].
  etrans; [apply Permutation_submseteq, sort_desc_perm|].
  destruct (str_truthy type_filter); [|done].
  apply sublist_submseteq, filter_sublist.
Qed.

Lemma direct_results_same_hit query_text top_k type_filter min_score r :
  r ∈ Query.direct_results self query_text top_k type_filter min_score ->
  exists v, v ∈ Query.dense_results self query_text top_k min_score /\ same_hit v r.
Proof.
  intros Hr.
  eapply elem_of_submseteq in Hr; [|apply direct_results_submseteq].
  apply dedup_same_hit in Hr as (v1 & Hv1 & Hid1 & Hs1).
  apply search_phase_same_hit in Hv1 as (v & Hv & Hid & Hs).
  exists v. split; [done|]. split; congruence.
Qed.

Lemma direct_results_sorted query_text top_k type_filter min_score :
  StronglySorted (desc sr_score)
    (Query.direct_results self query_text top_k type_filter min_score).
Proof.
  unfold Query.direct_results.
  match goal with |- context [slice_to ?k ?l] =>
    destruct (slice_to_prefix k l) as [n ->] end.
  apply StronglySorted_take, sort_desc_sorted.
Qed.

Lemma direct_results_NoDup query_text top_k type_filter min_score :
  chunking_enabled (chunking (Query.config self)) = true ->
  NoDup (map (fun r => parent_file (sr_id r))
           (Query.direct_results self query_text top_k type_filter min_score)).
Proof.
  intros Hc.
  pose proof (direct_results_submseteq query_text top_k type_filter min_score) as Hsub.
  apply (fmap_submseteq (fun r => parent_file (sr_id r))) in Hsub.
  apply submseteq_sublist_l in Hsub as (l2 & Hsl & Hperm).
  eapply sublist_NoDup; [|exact Hsl].
  rewrite Hperm. by apply dedup_NoDup.
Qed.

Lemma format_direct_Ok (r : SearchResult) (d : Query.DirectEntry) :
  Query.format_direct r = Ok d ->
  Query.d_path d = parent_file (sr_id r) /\
  Query.d_score d = round4 (Query._rescale_score (sr_score r) Query.default_baseline).
Proof.
  unfold Query.format_direct, parent_file.
  destruct (parse_chunk_id (sr_id r)) as [parent chunk_idx].
  destruct (truthy _); [destruct (sr_metadata r !! "end_line")|]; simpl;
    intros [= <-]; done.
Qed.

End QueryFacts.

Section QueryTheorems.
Context `{Collaborators}.
Variable self : Query.QueryEngine.

Lemma query_Ok_inv query_text top_k expand expand_depth type_filter min_score qr :
  Query.query self query_text top_k expand expand_depth type_filter min_score = Ok qr ->
  Forall2 (fun r d => Query.format_direct r = Ok d)
    (Query.direct_results self query_text top_k type_filter min_score)
    (Query.direct qr) /\
  Query.related qr =
    Query.expand_phase self
      (Query.direct_results self query_text top_k type_filter min_score)
      expand expand_depth type_filter.
Proof.
  unfold Query.query.
  destruct (Query.map_result _ _) as [ds|e] eqn:E; [|done].
  simpl. intros [= <-]. simpl. split; [|done].
  by apply map_result_Forall2.
Qed.

Lemma direct_paths (rs : list SearchResult) (ds : list Query.DirectEntry) :
  Forall2 (fun r d => Query.format_direct r = Ok d) rs ds ->
  map Query.d_path ds = map (fun r => parent_file (sr_id r)) rs.
Proof.
  induction 1 as [|r d rs ds Hrd _ IH]; simpl; [done|].
  apply format_direct_Ok in Hrd as [-> _]. by rewrite IH.
Qed.

(** The loop over [expanded.items()]: the paths collected are distinct,
    were all recorded in [seen_parent_files], and none is the parent
    file of a seed. *)
Lemma related_loop_inv direct_ids direct_parent_files type_filter expanded :
  let acc :=
    fold_left (Query.related_step direct_ids direct_parent_files type_filter)
      expanded (∅, []) in
  NoDup (map Query.r_path acc.2) /\
  forall r, r ∈ acc.2 ->
    Query.r_path r ∈ acc.1 /\ Query.r_path r ∉ direct_parent_files.
Proof.
  apply (fold_left_inv
    (fun acc : gset string * list Query.RelatedEntry =>
       NoDup (map Query.r_path acc.2) /\
       forall r, r ∈ acc.2 ->
         Query.r_path r ∈ acc.1 /\ Query.r_path r ∉ direct_parent_files)).
  - simpl. split; [constructor|]. intros r Hr. by apply elem_of_nil in Hr.
  - intros [seen related] [node_id info] _ [Hnd Hrel]. simpl in *.
    unfold Query.related_step.
    destruct (bool_decide (node_id ∈ direct_ids)); [done|].
    destruct (parse_chunk_id node_id) as [parent chunk_idx].
    destruct (bool_decide (parent ∈ direct_parent_files)) eqn:Ed; [done|].
    destruct (bool_decide (parent ∈ seen)) eqn:Es; [done|]. simpl.
    apply bool_decide_eq_false in Ed, Es.
    destruct (_ && _); simpl.
    + split; [done|]. intros r Hr. pose proof (Hrel r Hr) as [? ?].
      split; [apply elem_of_union; by right|done].
    + destruct (parse_chunk_id (ei_via info)) as [via_parent ?]. simpl. split.
      * rewrite map_app. simpl. apply NoDup_app. split_and!; [done| |apply NoDup_singleton].
        intros p Hp Hp'. apply list_elem_of_singleton in Hp' as ->.
        apply list_elem_of_fmap in Hp as (r & -> & Hr).
        pose proof (Hrel r Hr) as [? ?]. done.
      * intros r Hr. apply elem_of_app in Hr as [Hr|Hr].
        -- pose proof (Hrel r Hr) as [? ?]. split; [apply elem_of_union; by right|done].
        -- apply list_elem_of_singleton in Hr as ->. simpl.
           split; [apply elem_of_union; left; by apply elem_of_singleton|done].
Qed.

Lemma expand_phase_paths search_results expand expand_depth type_filter :
  let related := Query.expand_phase self search_results expand expand_depth type_filter in
  NoDup (map Query.r_path related) /\
  forall r, r ∈ related ->
    Query.r_path r ∉ map (fun x => parent_file (sr_id x)) search_results.
Proof.
  unfold Query.expand_phase.
  destruct search_results as [|r0 rs] eqn:E.
  { split; [constructor|]. intros r Hr. by apply elem_of_nil in Hr. }
  destruct expand.
  2:{ split; [constructor|]. intros r Hr. by apply elem_of_nil in Hr. }
  rewrite <- E. clear E r0 rs.
  set (direct_ids := list_to_set (map sr_id search_results) : gset string).
  set (dpf := list_to_set
                (map (fun sid => (parse_chunk_id sid).1) (map sr_id search_results))
              : gset string).
  pose proof (related_loop_inv direct_ids dpf type_filter
                (graph_expand (Query.graph self) (map sr_id search_results)
                   (expand_threshold (graph_cfg (Query.config self)))
                   (Query.resolve_depth self expand_depth))) as Hinv.
  simpl in Hinv.
  destruct (fold_left _ _ _) as [seen related]. simpl in Hinv.
  destruct Hinv as [Hnd Hrel]. split.
  - eapply NoDup_Permutation_proper; [|exact Hnd].
    apply (fmap_Permutation Query.r_path), sort_asc_perm.
  - intros r Hr. rewrite sort_asc_perm in Hr.
    destruct (Hrel r Hr) as [_ Hnot]. intros Hin. apply Hnot.
    unfold dpf. apply elem_of_list_to_set.
    rewrite map_map. exact Hin.
Qed.

Lemma format_direct_desc (r : SearchResult) (d : Query.DirectEntry)
    (rs : list SearchResult) (ds : list Query.DirectEntry) :
  Query.format_direct r = Ok d ->
  Forall2 (fun r d => Query.format_direct r = Ok d) rs ds ->
  Forall (desc sr_score r) rs -> Forall (desc Query.d_score d) ds.
Proof.
  intros Hrd Hd. apply format_direct_Ok in Hrd as [_ Hsc].
  induction Hd as [|r' d' rs ds Hrd' Hd IH]; intros Hr; [constructor|].
  apply Forall_cons in Hr as [Hr' Hr].
  constructor; [|by apply IH].
  apply format_direct_Ok in Hrd' as [_ Hsc'].
  unfold desc in *. rewrite Hsc, Hsc'. by apply round4_mono, rescale_score_mono.
Qed.

Lemma format_direct_sorted (rs : list SearchResult) (ds : list Query.DirectEntry) :
  Forall2 (fun r d => Query.format_direct r = Ok d) rs ds ->
  StronglySorted (desc sr_score) rs -> StronglySorted (desc Query.d_score) ds.
Proof.
  induction 1 as [|r d rs ds Hrd Hd IH]; intros Hs; [constructor|].
  apply StronglySorted_inv in Hs as [Hs Hr].
  constructor; [by apply IH|]. by eapply format_direct_desc.
Qed.

(** C4. When hybrid fusion runs (hybrid enabled, BM25 index not empty,
    at least one dense result at or above [min_score]), the search
    results are the fusion of the dense results with the restricted BM25
    results. The dense results are exactly the hits of the store's search
    whose score is at least [min_score]. The restricted BM25 results are
    the results of [bm25.search(query_text, 2·top_k)], in their order,
    with exactly those removed whose id is not the id of a dense result:
    a BM25 hit reaches the fusion if and only if its id survived the
    [min_score] filter. Every fused result carries the score, the
    original cosine similarity, of a dense result with its id. *)
Theorem C4_fusion_restricted_and_cosine_scored query_text top_k min_score :
  hybrid_enabled (hybrid (Query.config self)) = true ->
  bm25_is_empty (Query.bm25 self) = false ->
  Query.dense_results self query_text top_k min_score <> [] ->
  let vector_results := Query.dense_results self query_text top_k min_score in
  let bm25_results := Query.lexical_results self query_text top_k vector_results in
  Query.search_phase self query_text top_k min_score
    = Query._fuse_results self vector_results bm25_results (top_k * 2) /\
  (forall v, v ∈ vector_results <->
     v ∈ store_search (Query.store self)
           (embed_text (embedding_model (Query.config self)) query_text) (top_k * 2) /\
     (min_score <= sr_score v)%Q) /\
  bm25_results
    = List.filter (fun p => survived vector_results p.1)
        (bm25_search (Query.bm25 self) query_text (top_k * 2)) /\
  (forall id s, (id, s) ∈ bm25_results <->
     (id, s) ∈ bm25_search (Query.bm25 self) query_text (top_k * 2) /\
     exists v, v ∈ vector_results /\ sr_id v = id /\ (min_score <= sr_score v)%Q) /\
  (forall r, r ∈ Query._fuse_results self vector_results bm25_results (top_k * 2) ->
     exists v, v ∈ vector_results /\ sr_id v = sr_id r /\ sr_score r = sr_score v).
Proof.
  intros Hh Hb Hne vector_results bm25_results.
  assert (Hdense : forall v, v ∈ vector_results <->
     v ∈ store_search (Query.store self)
           (embed_text (embedding_model (Query.config self)) query_text) (top_k * 2) /\
     (min_score <= sr_score v)%Q).
  { intros v. unfold vector_results, Query.dense_results.
    rewrite elem_of_List_filter. by rewrite Qle_bool_iff. }
  assert (Hsurv : forall id, survived vector_results id = true <->
            exists v, v ∈ vector_results /\ sr_id v = id).
  { intros id. unfold survived. rewrite existsb_exists. split.
    - intros (v & Hv & He). apply String.eqb_eq in He. apply list_elem_of_In in Hv. eauto.
    - intros (v & Hv & He). exists v. split; [by apply list_elem_of_In|].
      by apply String.eqb_eq. }
  assert (Hfilter : bm25_results
            = List.filter (fun p => survived vector_results p.1)
                (bm25_search (Query.bm25 self) query_text (top_k * 2))).
  { unfold bm25_results, Query.lexical_results. apply filter_ext. intros [id s].
    cbn [fst]. apply eq_true_iff_eq. rewrite bool_decide_eq_true, Hsurv.
    rewrite elem_of_list_to_set, list_elem_of_fmap. split.
    - intros (v & -> & Hv). eauto.
    - intros (v & Hv & <-). eauto. }
  assert (Hlex : forall id s, (id, s) ∈ bm25_results <->
            (id, s) ∈ bm25_search (Query.bm25 self) query_text (top_k * 2) /\
            exists v, v ∈ vector_results /\ sr_id v = id /\ (min_score <= sr_score v)%Q).
  { intros id s. rewrite Hfilter, elem_of_List_filter. cbn [fst]. rewrite Hsurv. split.
    - intros (Hp & v & Hv & Hid). split; [done|]. exists v. split; [done|].
      split; [done|]. by apply Hdense.
    - intros (Hp & v & Hv & Hid & _). split; [done|]. eauto. }
  split; [|split; [exact Hdense|split; [exact Hfilter|split; [exact Hlex|]]]].
  - unfold Query.search_phase, bm25_results, vector_results. rewrite Hh, Hb. simpl.
    destruct (Query.dense_results self query_text top_k min_score); [done|done].
  - intros r Hr. apply fuse_same_hit in Hr as (v & Hv & Hid & Hs).
    + exists v. by repeat split.
    + intros [id s] Hp. destruct (proj1 (Hlex id s) Hp) as (_ & v & Hv & <- & _).
      apply list_elem_of_fmap. eauto.
Qed.

(** C5, amended. In every [QueryResult] produced with chunking enabled
    no two direct entries share a path; and in every [QueryResult],
    whatever the chunking setting, no related entry's path is the path
    of a direct entry and no two related entries share a path. *)
Theorem C5_dedup_invariant
    query_text top_k expand expand_depth type_filter min_score qr :
  Query.query self query_text top_k expand expand_depth type_filter min_score = Ok qr ->
  (chunking_enabled (chunking (Query.config self)) = true ->
   NoDup (map Query.d_path (Query.direct qr))) /\
  (forall r, r ∈ Query.related qr ->
     Query.r_path r ∉ map Query.d_path (Query.direct qr)) /\
  NoDup (map Query.r_path (Query.related qr)).
Proof.
  intros Hq. apply query_Ok_inv in Hq as [Hd Hr].
  rewrite (direct_paths _ _ Hd), Hr.
  pose proof (expand_phase_paths
    (Query.direct_results self query_text top_k type_filter min_score)
    expand expand_depth type_filter) as [Hnd Hnot].
  split; [|split; [exact Hnot|exact Hnd]].
  intros Hc. by apply direct_results_NoDup.
Qed.

(** C6. Every direct entry of a [QueryResult] comes from a dense search
    result, whose score is the raw cosine similarity; the entry's path is
    the parent file of that result and its score is
    [max(0, (raw − 0.5)/(1 − 0.5))] rounded to four decimal places. *)
Theorem C6_direct_score_is_rescaled_cosine
    query_text top_k expand expand_depth type_filter min_score qr :
  Query.query self query_text top_k expand expand_depth type_filter min_score = Ok qr ->
  Forall (fun d =>
    exists v,
      v ∈ store_search (Query.store self)
            (embed_text (embedding_model (Query.config self)) query_text) (top_k * 2) /\
      (min_score <= sr_score v)%Q /\
      Query.d_path d = parent_file (sr_id v) /\
      Query.d_score d = round4 (rescale (sr_score v)))
    (Query.direct qr).
Proof.
  intros Hq. apply query_Ok_inv in Hq as [Hd _].
  apply list.Forall_forall. intros d Hin.
  apply list_elem_of_lookup in Hin as [i Hi].
  destruct (Forall2_lookup_r _ _ _ _ _ Hd Hi) as (r & Hr & Hrd).
  apply list_elem_of_lookup_2 in Hr.
  apply direct_results_same_hit in Hr as (v & Hv & Hid & Hs).
  unfold Query.dense_results in Hv. apply elem_of_List_filter in Hv as [Hv Hmin].
  apply format_direct_Ok in Hrd as [Hpath Hscore].
  exists v. split; [done|]. split; [by apply Qle_bool_iff|].
  split; [congruence|].
  rewrite Hscore, <- Hs. apply round4_proper, rescale_score_spec.
Qed.

(** C7. In every [QueryResult] the direct list is in non-increasing
    order of score and every direct score is at least 0; and when the
    store's search returns cosine similarities, which are at most 1, every
    direct score is at most 1. *)
Theorem C7_direct_scores_in_range_and_sorted
    query_text top_k expand expand_depth type_filter min_score qr :
  Query.query self query_text top_k expand expand_depth type_filter min_score = Ok qr ->
  StronglySorted (desc Query.d_score) (Query.direct qr) /\
  Forall (fun d => (0 <= Query.d_score d)%Q) (Query.direct qr) /\
  ((forall v,
      v ∈ store_search (Query.store self)
            (embed_text (embedding_model (Query.config self)) query_text) (top_k * 2) ->
      (sr_score v <= 1)%Q) ->
   Forall (fun d => (Query.d_score d <= 1)%Q) (Query.direct qr)).
Proof.
  intros Hq. apply query_Ok_inv in Hq as [Hd _].
  split; [|split].
  - eapply format_direct_sorted; [exact Hd|]. apply direct_results_sorted.
  - apply list.Forall_forall. intros d Hin.
    apply list_elem_of_lookup in Hin as [i Hi].
    destruct (Forall2_lookup_r _ _ _ _ _ Hd Hi) as (r & _ & Hrd).
    apply format_direct_Ok in Hrd as [_ ->].
    rewrite <- round4_0. apply round4_mono, rescale_score_nonneg.
  - intros Hcos. apply list.Forall_forall. intros d Hin.
    apply list_elem_of_lookup in Hin as [i Hi].
    destruct (Forall2_lookup_r _ _ _ _ _ Hd Hi) as (r & Hr & Hrd).
    apply list_elem_of_lookup_2 in Hr.
    apply direct_results_same_hit in Hr as (v & Hv & Hid & Hs).
    unfold Query.dense_results in Hv. apply elem_of_List_filter in Hv as [Hv _].
    apply Hcos in Hv. rewrite Hs in Hv.
    apply format_direct_Ok in Hrd as [_ ->].
    rewrite <- round4_1. by apply round4_mono, rescale_score_le_1.
Qed.

(** C10. [expand_depth = 0] is falsy and falls back to the configured
    depth: the query behaves as with [expand_depth = None], so a
    zero-depth expansion cannot be requested through this parameter. *)
Theorem C10_zero_depth_falls_back
    query_text top_k expand type_filter min_score :
  Query.resolve_depth self (Some 0) = max_expand_depth (graph_cfg (Query.config self)) /\
  Query.resolve_depth self (Some 0) = Query.resolve_depth self None /\
  Query.query self query_text top_k expand (Some 0) type_filter min_score
    = Query.query self query_text top_k expand None type_filter min_score.
Proof. repeat split. Qed.

End QueryTheorems.

Section QueryRuns.
#[local] Existing Instance Demo.collaborators.
Import Scenario.

Lemma C4_witness :
  hybrid_enabled (hybrid (Query.config (engine true true))) = true /\
  bm25_is_empty (Query.bm25 (engine true true)) = false /\
  Query.dense_results (engine true true) "hello" 10 (1 # 2) <> [] /\
  Query.search_phase (engine true true) "hello" 10 (1 # 2)
    = Query._fuse_results (engine true true)
        (Query.dense_results (engine true true) "hello" 10 (1 # 2))
        (Query.lexical_results (engine true true) "hello" 10
           (Query.dense_results (engine true true) "hello" 10 (1 # 2)))
        (10 * 2) /\
  Query.lexical_results (engine true true) "hello" 10
    (Query.dense_results (engine true true) "hello" 10 (1 # 2))
  = List.filter
      (fun p => survived (Query.dense_results (engine true true) "hello" 10 (1 # 2)) p.1)
      (bm25_search (Query.bm25 (engine true true)) "hello" (10 * 2)) /\
  map fst (bm25_search (Query.bm25 (engine true true)) "hello" (10 * 2))
    ≡ₚ ["big.py#chunk_1"; "util.py#chunk_0"] /\
  map fst (Query.lexical_results (engine true true) "hello" 10
             (Query.dense_results (engine true true) "hello" 10 (1 # 2)))
    = ["big.py#chunk_1"].
Proof.
  assert (H1 : hybrid_enabled (hybrid (Query.config (engine true true))) = true)
    by reflexivity.
  assert (H2 : bm25_is_empty (Query.bm25 (engine true true)) = false)
    by (vm_compute; reflexivity).
  assert (H3 : Query.dense_results (engine true true) "hello" 10 (1 # 2) <> [])
    by (vm_compute; discriminate).
  split; [exact H1|]. split; [exact H2|]. split; [exact H3|].
  destruct (C4_fusion_restricted_and_cosine_scored
              (engine true true) "hello" 10 (1 # 2) H1 H2 H3) as (Hs & _ & Hf & _).
  split; [exact Hs|]. split; [exact Hf|]. split.
  - apply (bool_decide_unpack _). vm_compute. reflexivity.
  - vm_compute. reflexivity.
Defined.

(** With chunking disabled in the engine's configuration and a store
    that holds two chunks of [big.py], both above [min_score], the
    result has two direct entries with the path [big.py]. *)
Lemma C5_counterexample :
  exists qr,
    Query.query (engine false false) "hello" 10 true None None (1 # 2) = Ok qr /\
    map Query.d_path (Query.direct qr) = ["big.py"; "big.py"] /\
    ~ NoDup (map Query.d_path (Query.direct qr)).
Proof.
  eexists. split; [vm_compute; reflexivity|]. split; [reflexivity|].
  intros Hnd. apply NoDup_cons in Hnd as [Hn _]. apply Hn. left.
Qed.

Lemma C5_witness :
  exists qr,
    Query.query (engine true false) "hello" 10 true None None (1 # 2) = Ok qr /\
    NoDup (map Query.d_path (Query.direct qr)) /\
    NoDup (map Query.r_path (Query.related qr)).
Proof.
  destruct (Query.query (engine true false) "hello" 10 true None None (1 # 2))
    as [qr|e] eqn:E; [|vm_compute in E; discriminate].
  exists qr. split; [reflexivity|].
  pose proof (C5_dedup_invariant (engine true false) "hello" 10 true None None (1 # 2)
                qr E) as (Hd & _ & Hr).
  split; [exact (Hd eq_refl)|exact Hr].
Defined.

Lemma C6_witness :
  exists qr,
    Query.query (engine true true) "hello" 10 true None None (1 # 2) = Ok qr /\
    Forall (fun d =>
      exists v,
        v ∈ store_search (Query.store (engine true true))
              (embed_text (embedding_model (Query.config (engine true true))) "hello")
              (10 * 2) /\
        (1 # 2 <= sr_score v)%Q /\
        Query.d_path d = parent_file (sr_id v) /\
        Query.d_score d = round4 (rescale (sr_score v)))
      (Query.direct qr).
Proof.
  destruct (Query.query (engine true true) "hello" 10 true None None (1 # 2))
    as [qr|e] eqn:E; [|vm_compute in E; discriminate].
  exists qr. split; [reflexivity|].
  exact (C6_direct_score_is_rescaled_cosine
           (engine true true) "hello" 10 true None None (1 # 2) qr E).
Defined.

Lemma C7_witness :
  exists qr,
    Query.query (engine false false) "hello" 10 true None None (1 # 2) = Ok qr /\
    StronglySorted (desc Query.d_score) (Query.direct qr) /\
    Forall (fun d => (0 <= Query.d_score d)%Q) (Query.direct qr) /\
    Forall (fun d => (Query.d_score d <= 1)%Q) (Query.direct qr).
Proof.
  destruct (Query.query (engine false false) "hello" 10 true None None (1 # 2))
    as [qr|e] eqn:E; [|vm_compute in E; discriminate].
  exists qr. split; [reflexivity|].
  destruct (C7_direct_scores_in_range_and_sorted
              (engine false false) "hello" 10 true None None (1 # 2) qr E)
    as (Hsorted & Hlow & Hhigh).
  split; [exact Hsorted|]. split; [exact Hlow|].
  apply Hhigh. apply list.Forall_forall.
  repeat (apply Forall_cons; split; [vm_compute; discriminate|]).
  apply Forall_nil_2.
Defined.

End QueryRuns.

(* ================================================================== *)
(** * Facts about the indexer *)
(* ================================================================== *)

Section IndexerTheorems.
Context `{Collaborators}.
Variable config : GundogConfig.
Variable fs : FileSystem.

(** [_needs_reindex] decides conditions (b) and (c); it raises exactly
    when a file with a stored entry and a changed mtime cannot be
    read. *)
Lemma needs_reindex_spec (st : Store) (file_path : string) :
  match Indexer._needs_reindex config fs st file_path with
  | Ok b =>
      b = no_entry config st file_path
          || (mtime_differs config fs st file_path && hash_differs config fs st file_path)
  | Raise e =>
      no_entry config st file_path = false /\
      mtime_differs config fs st file_path = true /\
      fs_read_text fs file_path = Raise e
  end.
Proof.
  unfold Indexer._needs_reindex, no_entry, mtime_differs, hash_differs,
    stored_metadata, has_entry.
  destruct (st !! file_path) as [[v m]|]; cbn -[py_eqb].
  - destruct (py_eqb (PFloat (fs_mtime fs file_path)) (dict_get m "mtime"));
      cbn -[py_eqb]; [done|].
    destruct (fs_read_text fs file_path); cbn -[py_eqb]; done.
  - destruct (chunking_enabled (chunking config)); cbn -[py_eqb]; [|done].
    destruct (st !! make_chunk_id file_path 0) as [[v m]|]; cbn -[py_eqb]; [|done].
    destruct (py_eqb (PFloat (fs_mtime fs file_path)) (dict_get m "mtime"));
      cbn -[py_eqb]; [done|].
    destruct (fs_read_text fs file_path); cbn -[py_eqb]; done.
Qed.

Lemma needs_reindex_raise (st : Store) (file_path : string) (e : exn) :
  no_entry config st file_path = false ->
  mtime_differs config fs st file_path = true ->
  fs_read_text fs file_path = Raise e ->
  Indexer._needs_reindex config fs st file_path = Raise e.
Proof.
  unfold Indexer._needs_reindex, no_entry, mtime_differs, stored_metadata, has_entry.
  intros Hn Hm Hr. rewrite Hr.
  destruct (st !! file_path) as [[v m]|]; cbn -[py_eqb] in *.
  - destruct (py_eqb (PFloat (fs_mtime fs file_path)) (dict_get m "mtime")); done.
  - destruct (chunking_enabled (chunking config)); cbn -[py_eqb] in *; [|done].
    destruct (st !! make_chunk_id file_path 0) as [[v m]|]; cbn -[py_eqb] in *; [|done].
    destruct (py_eqb (PFloat (fs_mtime fs file_path)) (dict_get m "mtime")); done.
Qed.

Lemma filter_length_split {A : Type} (f : A -> bool) (l : list A) :
  (length (List.filter f l) + length (List.filter (fun x => negb (f x)) l))%nat
  = length l.
Proof.
  induction l as [|x l IH]; simpl; [done|].
  destruct (f x); simpl; lia.
Qed.

(** The selection loop, from any intermediate state. *)
Lemma select_loop rebuild st all_files to_index skipped :
  match
    for_each (Indexer.select_step config fs rebuild st) (to_index, skipped) all_files
  with
  | Ok (to_index', skipped') =>
      to_index' =
        (to_index ++ map as_triple (List.filter (selected config fs rebuild st) all_files))%list /\
      skipped' =
        skipped + Z.of_nat (length (List.filter
                                      (fun i => negb (selected config fs rebuild st i))
                                      all_files))
  | Raise e =>
      rebuild = false /\
      exists item, item ∈ all_files /\
        no_entry config st item.2.1 = false /\
        mtime_differs config fs st item.2.1 = true /\
        fs_read_text fs item.2.1 = Raise e
  end.
Proof.
  revert to_index skipped.
  induction all_files as [|[file_id [file_path file_type]] l IH]; intros to_index skipped.
  - simpl. split; [by rewrite app_nil_r|lia].
  - assert (Hcode :
      match (if rebuild then Ok true
             else Indexer._needs_reindex config fs st file_path) with
      | Ok b => b = selected config fs rebuild st (file_id, (file_path, file_type))
      | Raise e =>
          rebuild = false /\
          no_entry config st file_path = false /\
          mtime_differs config fs st file_path = true /\
          fs_read_text fs file_path = Raise e
      end).
    { unfold selected, needs_indexing. cbn [fst snd].
      destruct rebuild; [done|]. cbn [orb].
      pose proof (needs_reindex_spec st file_path) as Hn.
      destruct (Indexer._needs_reindex config fs st file_path); [done|].
      by split. }
    cbn [for_each List.filter]. unfold Indexer.select_step at 1.
    destruct (if rebuild then Ok true else Indexer._needs_reindex config fs st file_path)
      as [b|e]; cbn.
    + rewrite <- Hcode. destruct b; cbn.
      * specialize (IH (to_index ++ [(file_id, file_path, file_type)])%list skipped).
        destruct (for_each _ _ l) as [[ti sk]|e].
        -- destruct IH as [-> ->]. split; [|done]. by rewrite <- app_assoc.
        -- destruct IH as (Hr & item & Hin & Hitem). split; [done|].
           exists item. split; [by right|done].
      * specialize (IH to_index (skipped + 1)).
        destruct (for_each _ _ l) as [[ti sk]|e].
        -- destruct IH as [-> ->]. split; [done|]. lia.
        -- destruct IH as (Hr & item & Hin & Hitem). split; [done|].
           exists item. split; [by right|done].
    + destruct Hcode as [Hr Hitem]. split; [done|].
      exists (file_id, (file_path, file_type)). split; [left|done].
Qed.

Lemma select_files_spec rebuild st all_files :
  match Indexer.select_files config fs rebuild st all_files with
  | Ok (to_index, skipped) =>
      to_index = map as_triple (List.filter (selected config fs rebuild st) all_files) /\
      skipped =
        Z.of_nat (length (List.filter (fun i => negb (selected config fs rebuild st i))
                            all_files))
  | Raise e =>
      rebuild = false /\
      exists item, item ∈ all_files /\
        no_entry config st item.2.1 = false /\
        mtime_differs config fs st item.2.1 = true /\
        fs_read_text fs item.2.1 = Raise e
  end.
Proof.
  unfold Indexer.select_files.
  pose proof (select_loop rebuild st all_files [] 0) as Hl.
  destruct (for_each _ _ all_files) as [[ti sk]|e]; [|done].
  destruct Hl as [-> ->]. split; [done|lia].
Qed.

(** What a completed pass reports and does. *)
Lemma index_Ok_inv rebuild s summary s' calls :
  Indexer.index config fs rebuild s = Ok (summary, s', calls) ->
  exists to_index,
    Indexer.select_files config fs rebuild (store_at_selection config fs s)
      (Indexer.scan_all config fs)
      = Ok (to_index, Indexer.files_skipped summary) /\
    Indexer.files_total summary = Z.of_nat (length (Indexer.scan_all config fs)) /\
    Indexer.files_indexed summary = Z.of_nat (length to_index) /\
    Indexer.files_removed summary
      = (Indexer.remove_missing (Indexer.scan_all config fs) (Indexer.store s)).2 /\
    (Indexer.needs_rebuild rebuild (Indexer.files_indexed summary)
       (Indexer.files_removed summary) = true ->
     calls = rebuild_calls config) /\
    (Indexer.needs_rebuild rebuild (Indexer.files_indexed summary)
       (Indexer.files_removed summary) = false ->
     calls = [] /\ same_disk s s' /\
     Indexer.graph s' = Indexer.graph s /\ Indexer.bm25 s' = Indexer.bm25 s).
Proof.
  unfold Indexer.index, store_at_selection, rebuild_calls.
  destruct (Indexer.remove_missing (Indexer.scan_all config fs) (Indexer.store s))
    as [st1 removed] eqn:Erm. cbn [fst snd].
  destruct (Indexer.select_files config fs rebuild st1 (Indexer.scan_all config fs))
    as [[to_index skipped]|e] eqn:Esel; [|done]. cbn [mbind result_bind Py.bind].
  match goal with |- context [mbind _ ?m] => destruct m as [[st2 n]|e] end; [|done].
  cbn [mbind result_bind Py.bind Indexer.files_indexed Indexer.files_removed].
  destruct (Indexer.needs_rebuild rebuild (Z.of_nat (length to_index)) removed) eqn:Erb;
    destruct (hybrid_enabled (hybrid config)); cbn;
    intros [= <- <- <-]; exists to_index; cbn; rewrite Erb;
    repeat split; try done.
Qed.

(** C1. The selection loop of a pass puts in [to_index] exactly the
    current files for which [rebuild] is true, or the store holds no
    entry under the file's path (nor, with chunking enabled, under its
    chunk-0 id), or the mtime differs from the stored one and the
    content hash differs from the stored one; it counts every other file
    as skipped. The loop raises only when a file that has an entry and a
    changed mtime cannot be read. The summary of a completed pass
    reports these two counts. *)
Theorem C1_selection_iff_rebuild_or_new_or_changed (rebuild : bool) (s : Indexer.State) :
  (forall st file_path,
     needs_indexing config fs rebuild st file_path
     = rebuild || no_entry config st file_path
       || (mtime_differs config fs st file_path && hash_differs config fs st file_path)) /\
  (forall st all_files,
     match Indexer.select_files config fs rebuild st all_files with
     | Ok (to_index, skipped) =>
         to_index = map as_triple (List.filter (selected config fs rebuild st) all_files) /\
         skipped =
           Z.of_nat (length (List.filter (fun i => negb (selected config fs rebuild st i))
                               all_files))
     | Raise e =>
         rebuild = false /\
         exists item, item ∈ all_files /\
           no_entry config st item.2.1 = false /\
           mtime_differs config fs st item.2.1 = true /\
           fs_read_text fs item.2.1 = Raise e
     end) /\
  match Indexer.index config fs rebuild s with
  | Ok (summary, _, _) =>
      Indexer.files_indexed summary =
        Z.of_nat (length (List.filter
                            (selected config fs rebuild (store_at_selection config fs s))
                            (Indexer.scan_all config fs))) /\
      Indexer.files_skipped summary =
        Z.of_nat (length (List.filter
                            (fun i => negb (selected config fs rebuild
                                              (store_at_selection config fs s) i))
                            (Indexer.scan_all config fs)))
  | Raise _ => True
  end.
Proof.
  split; [done|]. split; [apply select_files_spec|].
  destruct (Indexer.index config fs rebuild s) as [[[summary s'] calls]|e] eqn:E; [|done].
  apply index_Ok_inv in E as (to_index & Hsel & _ & Hi & _).
  pose proof (select_files_spec rebuild (store_at_selection config fs s)
                (Indexer.scan_all config fs)) as Hspec.
  rewrite Hsel in Hspec. destruct Hspec as [-> ->].
  split; [|done]. by rewrite Hi, length_map.
Qed.


(** C2, amended. In every pass the similarity graph is rebuilt iff
    [rebuild] is set or a file was indexed or an entry was removed; the
    BM25 index is rebuilt iff, in addition, hybrid search is enabled; and
    when the graph is not rebuilt the pass saves nothing and leaves the
    artifacts on disk as they were. *)
Theorem C2_rebuild_iff_forced_or_changed rebuild s summary s' calls :
  Indexer.index config fs rebuild s = Ok (summary, s', calls) ->
  (Indexer.GraphBuild ∈ calls <->
     rebuild = true \/ 0 < Indexer.files_indexed summary
     \/ 0 < Indexer.files_removed summary) /\
  (Indexer.BM25Build ∈ calls <->
     hybrid_enabled (hybrid config) = true /\
     (rebuild = true \/ 0 < Indexer.files_indexed summary
      \/ 0 < Indexer.files_removed summary)) /\
  (Indexer.GraphBuild ∉ calls ->
     (forall c, c ∈ calls -> ~ is_save c) /\ same_disk s s').
Proof.
  intros E. apply index_Ok_inv in E as (to_index & _ & _ & _ & _ & Hyes & Hno).
  assert (Hrb : Indexer.needs_rebuild rebuild (Indexer.files_indexed summary)
                  (Indexer.files_removed summary) = true <->
                rebuild = true \/ 0 < Indexer.files_indexed summary
                \/ 0 < Indexer.files_removed summary).
  { unfold Indexer.needs_rebuild.
    rewrite !orb_true_iff, !Z.gtb_lt. tauto. }
  destruct (Indexer.needs_rebuild rebuild (Indexer.files_indexed summary)
              (Indexer.files_removed summary)) eqn:Erb.
  - rewrite (Hyes eq_refl). unfold rebuild_calls.
    split; [|split].
    + split; [intros _; by apply Hrb|intros _; left].
    + destruct (hybrid_enabled (hybrid config)); cbn.
      * split; [intros _; split; [done|by apply Hrb]|intros _; right; left].
      * split; [|intros [? _]; done].
        intros Hin. repeat (apply elem_of_cons in Hin as [Hin|Hin]; [done|]).
        by apply elem_of_nil in Hin.
    + intros Hnot. exfalso. apply Hnot. left.
  - destruct (Hno eq_refl) as (-> & Hdisk & _).
    split; [|split].
    + split; [intros Hin; by apply elem_of_nil in Hin|].
      intros Hc. apply Hrb in Hc. done.
    + split; [intros Hin; by apply elem_of_nil in Hin|].
      intros [_ Hc]. apply Hrb in Hc. done.
    + intros _. split; [|done]. intros c Hin. by apply elem_of_nil in Hin.
Qed.

(** A pass over a store that is up to date, where [_needs_reindex]
    answers no for every scanned file and no entry belongs to a vanished
    file, selects nothing, removes nothing, makes no call and leaves the
    indexer and the disk as they were. *)
Lemma up_to_date_pass_is_noop (s : Indexer.State) :
  (forall id, is_Some (Indexer.store s !! id) ->
     ODict.mem (Indexer.scan_all config fs) (parent_file id) = true) ->
  (forall item, item ∈ Indexer.scan_all config fs ->
     Indexer._needs_reindex config fs (Indexer.store s) item.2.1 = Ok false) ->
  exists summary,
    Indexer.index config fs false s = Ok (summary, s, []) /\
    Indexer.files_indexed summary = 0 /\
    Indexer.files_removed summary = 0 /\
    Indexer.files_skipped summary = Indexer.files_total summary.
Proof.
  intros Hpresent Hfresh.
  assert (Hrm : Indexer.remove_missing (Indexer.scan_all config fs) (Indexer.store s)
                = (Indexer.store s, 0)).
  { unfold Indexer.remove_missing.
    apply (fold_left_inv (fun acc : Store * Z => acc = (Indexer.store s, 0))); [done|].
    intros acc id Hid ->.
    apply list_elem_of_fmap in Hid as ([id' v] & -> & Hin).
    apply elem_of_map_to_list in Hin. unfold Indexer.remove_step. simpl.
    specialize (Hpresent id' (ex_intro _ v Hin)). unfold parent_file in Hpresent.
    destruct (parse_chunk_id id') as [parent idx]. simpl in Hpresent.
    by rewrite Hpresent. }
  assert (Hnone : forall item, item ∈ Indexer.scan_all config fs ->
            selected config fs false (Indexer.store s) item = false).
  { intros item Hin. pose proof (needs_reindex_spec (Indexer.store s) item.2.1) as Hn.
    rewrite (Hfresh item Hin) in Hn. unfold selected, needs_indexing.
    cbn [orb]. by rewrite <- Hn. }
  pose proof (select_files_spec false (Indexer.store s) (Indexer.scan_all config fs))
    as Hsel.
  destruct (Indexer.select_files config fs false (Indexer.store s)
              (Indexer.scan_all config fs)) as [[to_index skipped]|e] eqn:Esel.
  2:{ destruct Hsel as (_ & item & Hin & Hn & Hm & Hr).
      pose proof (needs_reindex_raise _ _ _ Hn Hm Hr) as Hraise.
      rewrite (Hfresh item Hin) in Hraise. discriminate. }
  destruct Hsel as [Hto Hsk].
  assert (Hf1 : List.filter (selected config fs false (Indexer.store s))
                  (Indexer.scan_all config fs) = []).
  { generalize Hnone. generalize (Indexer.scan_all config fs). intros l.
    induction l as [|x l IH]; intros Hl; simpl; [done|].
    rewrite (Hl x) by left. apply IH. intros y Hy. apply Hl. by right. }
  assert (Hf2 : List.filter
                  (fun i => negb (selected config fs false (Indexer.store s) i))
                  (Indexer.scan_all config fs) = Indexer.scan_all config fs).
  { generalize Hnone. generalize (Indexer.scan_all config fs). intros l.
    induction l as [|x l IH]; intros Hl; simpl; [done|].
    rewrite (Hl x) by left. simpl. f_equal. apply IH. intros y Hy. apply Hl. by right. }
  rewrite Hf1 in Hto. rewrite Hf2 in Hsk. simpl in Hto. subst to_index skipped.
  eexists. unfold Indexer.index. rewrite Hrm, Esel.
  cbn [mbind result_bind Py.bind length Indexer.files_indexed Indexer.files_removed].
  change (Indexer.needs_rebuild false (Z.of_nat 0) 0) with false.
  rewrite andb_false_r. destruct s. cbn. repeat split; reflexivity.
Qed.

End IndexerTheorems.


(* ================================================================== *)
(** * A second pass after a pass that stored every file *)
(* ================================================================== *)

Lemma fold_left_reach_in {A B : Type} (R : A -> B -> Prop) (P : A -> Prop)
    (f : B -> A -> B) :
  (forall b x, P x -> R x (f b x)) ->
  (forall b x y, P y -> R x b -> R x (f b y)) ->
  forall l b x, Forall P l -> x ∈ l -> R x (fold_left f l b).
Proof.
  intros Hnow Hkeep l. induction l as [|y l IH]; intros b x Hl Hx; simpl.
  - by apply elem_of_nil in Hx.
  - apply Forall_cons in Hl as [Hy Hl].
    apply elem_of_cons in Hx as [->|Hx]; [|by apply IH].
    apply (fold_left_inv (R y)); [by apply Hnow|].
    intros b' z Hz Hb'. apply Hkeep; [|done].
    by eapply list.Forall_forall in Hl.
Qed.

Section StoreLoops.
Context `{Collaborators}.
Variable config : GundogConfig.
Variable fs : FileSystem.

(** The dictionary [all_files] has distinct keys, and each key is the
    path it is mapped to. *)
Lemma scan_all_wf :
  NoDup (ODict.keys (Indexer.scan_all config fs)) /\
  forall item, item ∈ Indexer.scan_all config fs -> item.1 = item.2.1.
Proof.
  unfold Indexer.scan_all.
  apply (fold_left_inv
    (fun af : ODict.t (string * option string) =>
       NoDup (ODict.keys af) /\ forall item, item ∈ af -> item.1 = item.2.1)).
  - split; [constructor|]. intros item Hi. by apply elem_of_nil in Hi.
  - intros af source _ Haf.
    apply (fold_left_inv
      (fun af : ODict.t (string * option string) =>
         NoDup (ODict.keys af) /\ forall item, item ∈ af -> item.1 = item.2.1));
      [done|].
    intros af' file_path _ [Hnd Hk]. split; [by apply ODictFacts.NoDup_keys_set|].
    intros item Hi. apply ODictFacts.elem_of_set in Hi as [->|Hi]; [done|by apply Hk].
Qed.

(** [_needs_reindex] looks at the store only under the file's path and
    under its chunk-0 id. *)
Lemma needs_reindex_ext (st st' : Store) (file_path : string) :
  st !! file_path = st' !! file_path ->
  (chunking_enabled (chunking config) = true ->
   st !! make_chunk_id file_path 0 = st' !! make_chunk_id file_path 0) ->
  Indexer._needs_reindex config fs st file_path
  = Indexer._needs_reindex config fs st' file_path.
Proof.
  unfold Indexer._needs_reindex. intros -> Hc.
  destruct (chunking_enabled (chunking config)); [by rewrite Hc|done].
Qed.

(** Lines 130-140: what is left in the store was there before and
    belongs to a current file. *)
Lemma remove_missing_spec (all_files : ODict.t (string * option string))
    (st : Store) (id : string) (e : Vec * Meta) :
  (Indexer.remove_missing all_files st).1 !! id = Some e ->
  st !! id = Some e /\ ODict.mem all_files (parent_file id) = true.
Proof.
  unfold Indexer.remove_missing.
  assert (Hgen : forall l acc n,
    (fold_left (Indexer.remove_step all_files) l (acc, n)).1 !! id = Some e ->
    acc !! id = Some e /\ (id ∈ l -> ODict.mem all_files (parent_file id) = true)).
  { induction l as [|x l IH]; intros acc n; simpl.
    - intros Hl. split; [done|]. intros Hin. by apply elem_of_nil in Hin.
    - unfold parent_file in *.
      destruct (parse_chunk_id x) as [parent idx] eqn:Ex.
      destruct (ODict.mem all_files parent) eqn:Em; intros Hl;
        apply IH in Hl as [Hacc Hin].
      + split; [done|]. intros Hx. apply elem_of_cons in Hx as [->|Hx]; [|auto].
        by rewrite Ex.
      + apply lookup_delete_Some in Hacc as [Hne Hacc].
        split; [done|]. intros Hx. apply elem_of_cons in Hx as [->|Hx]; [done|auto]. }
  intros Hl. apply Hgen in Hl as [Hst Hin]. split; [done|].
  apply Hin. unfold Indexer.all_ids. apply list_elem_of_fmap.
  exists (id, e). split; [done|]. by apply elem_of_map_to_list.
Qed.

(** Lines 169-172: the entries whose parent is the file are gone, the
    others are untouched. *)
Lemma drop_chunks_lookup (file_id : string) (st : Store) (id : string) :
  Indexer.drop_chunks file_id st !! id
  = if String.eqb (parent_file id) file_id then None else st !! id.
Proof.
  unfold Indexer.drop_chunks.
  assert (Hgen : forall l acc,
    fold_left
      (fun (st : Store) existing_id =>
         let '(parent, _) := parse_chunk_id existing_id in
         if String.eqb parent file_id then delete existing_id st else st)
      l acc !! id
    = if String.eqb (parent_file id) file_id && bool_decide (id ∈ l)
      then None else acc !! id).
  { induction l as [|x l IH]; intros acc; simpl.
    - by rewrite andb_false_r.
    - rewrite IH. unfold parent_file.
      destruct (parse_chunk_id x) as [parent idx] eqn:Ex.
      destruct (decide (id = x)) as [->|Hne].
      + rewrite Ex. simpl. destruct (String.eqb parent file_id) eqn:Ep; simpl.
        * rewrite (bool_decide_eq_true_2 (x ∈ x :: l)) by left.
          destruct (bool_decide (x ∈ l)); [done|]. apply lookup_delete_eq.
        * done.
      + assert (Hb : bool_decide (id ∈ x :: l) = bool_decide (id ∈ l)).
        { apply bool_decide_ext. rewrite elem_of_cons. tauto. }
        rewrite Hb.
        destruct ((parse_chunk_id id).1 =? file_id)%string; simpl; [|
          destruct (String.eqb parent file_id); [by rewrite lookup_delete_ne|done]].
        destruct (bool_decide (id ∈ l)); [done|].
        destruct (String.eqb parent file_id); [by rewrite lookup_delete_ne|done]. }
  rewrite Hgen.
  destruct (String.eqb (parent_file id) file_id); simpl; [|done].
  destruct (st !! id) as [e|] eqn:E.
  - rewrite bool_decide_eq_true_2; [done|].
    unfold Indexer.all_ids. apply list_elem_of_fmap.
    exists (id, e). split; [done|]. by apply elem_of_map_to_list.
  - by destruct (bool_decide _).
Qed.

End StoreLoops.
Section PrepareLoop.
Context `{Collaborators}.
Variable config : GundogConfig.
Variable fs : FileSystem.

#[local] Abbreviation prepare := (Indexer.prepare_file config fs).

(** One iteration deletes, in chunked mode, the entries of the file it
    handles, touches no other entry and only appends items. *)
Lemma prepare_step (st : Store) (items : list Indexer.EmbedItem)
    (t : string * string * option string) :
  exists new_items,
    (prepare (st, items) t).2 = (items ++ new_items)%list /\
    (forall id,
       (prepare (st, items) t).1 !! id = st !! id \/
       (parent_file id = t.1.1 /\ (prepare (st, items) t).1 !! id = None)) /\
    (forall item, item ∈ new_items ->
       Indexer.it_path item = t.1.2 /\
       if chunking_enabled (chunking config)
       then exists i, Indexer.it_id item = make_chunk_id t.1.1 i
       else Indexer.it_id item = t.1.1) /\
    (forall c, fs_read_text fs t.1.2 = Ok c ->
       (chunking_enabled (chunking config) = true ->
        forall id, parent_file id = t.1.1 -> (prepare (st, items) t).1 !! id = None) /\
       ((chunking_enabled (chunking config) = true ->
         exists ch, ch ∈ chunk_text c (max_tokens (chunking config))
                           (overlap_tokens (chunking config)) /\ chunk_index ch = 0) ->
        exists item, item ∈ new_items /\ Indexer.it_path item = t.1.2 /\
                     Indexer.it_id item = entry_id config t.1.1)).
Proof.
  destruct t as [[file_id file_path] file_type]. unfold Indexer.prepare_file, entry_id.
  cbn [fst snd].
  destruct (fs_read_text fs file_path) as [content|e] eqn:Er.
  2:{ exists []. rewrite app_nil_r. split; [done|]. split; [by left|].
      split; [intros item Hi; by apply elem_of_nil in Hi|]. intros c [=]. }
  destruct (chunking_enabled (chunking config)) eqn:Ec; cbn [fst snd].
  - eexists. split; [reflexivity|]. split; [|split].
    + intros id. rewrite drop_chunks_lookup.
      destruct (String.eqb_spec (parent_file id) file_id) as [->|Hne]; [by right|by left].
    + intros item Hi. apply list_elem_of_fmap in Hi as (ch & -> & Hch). simpl. eauto.
    + intros c [= <-]. split.
      * intros _ id <-. rewrite drop_chunks_lookup. by rewrite String.eqb_refl.
      * intros Hz. destruct (Hz eq_refl) as (ch & Hch & Hidx).
        eexists. split; [apply list_elem_of_fmap; exists ch; split; [reflexivity|exact Hch]|].
        simpl. by rewrite Hidx.
  - eexists. split; [reflexivity|]. split; [by left|]. split.
    + intros item Hi. apply list_elem_of_singleton in Hi as ->. done.
    + intros c [= <-]. split; [done|]. intros _.
      eexists. split; [by apply list_elem_of_singleton|]. done.
Qed.

Lemma prepare_fold_spec (ts : list (string * string * option string)) (st : Store) :
  let acc := fold_left prepare ts (st, []) in
  (forall id e, acc.1 !! id = Some e -> st !! id = Some e) /\
  (forall id, (forall t, t ∈ ts -> parent_file id <> t.1.1) -> acc.1 !! id = st !! id) /\
  (forall item, item ∈ acc.2 ->
     exists t, t ∈ ts /\ Indexer.it_path item = t.1.2 /\
       if chunking_enabled (chunking config)
       then exists i, Indexer.it_id item = make_chunk_id t.1.1 i
       else Indexer.it_id item = t.1.1).
Proof.
  apply (fold_left_inv
    (fun acc : Store * list Indexer.EmbedItem =>
       (forall id e, acc.1 !! id = Some e -> st !! id = Some e) /\
       (forall id, (forall t, t ∈ ts -> parent_file id <> t.1.1) -> acc.1 !! id = st !! id) /\
       (forall item, item ∈ acc.2 ->
          exists t, t ∈ ts /\ Indexer.it_path item = t.1.2 /\
            if chunking_enabled (chunking config)
            then exists i, Indexer.it_id item = make_chunk_id t.1.1 i
            else Indexer.it_id item = t.1.1))).
  - split; [done|]. split; [done|]. intros item Hi. by apply elem_of_nil in Hi.
  - intros [st' items] t Ht (Hsub & Hother & Hitems). cbn [fst snd] in *.
    destruct (prepare_step st' items t) as (new & Hnew & Hst & Hfrom & _).
    split; [|split].
    + intros id e Hl. destruct (Hst id) as [Heq|[_ Hn]]; [|congruence].
      rewrite Heq in Hl. by apply Hsub.
    + intros id Hid. destruct (Hst id) as [Heq|[Hp _]].
      * rewrite Heq. by apply Hother.
      * by destruct (Hid t Ht).
    + intros item Hi. rewrite Hnew in Hi. apply elem_of_app in Hi as [Hi|Hi]; [auto|].
      exists t. split; [done|]. by apply Hfrom.
Qed.

Lemma prepare_fold_cover (ts : list (string * string * option string)) (st : Store)
    (t : string * string * option string) (c : string) :
  t ∈ ts -> fs_read_text fs t.1.2 = Ok c ->
  let acc := fold_left prepare ts (st, []) in
  (chunking_enabled (chunking config) = true ->
   forall id, parent_file id = t.1.1 -> acc.1 !! id = None) /\
  ((chunking_enabled (chunking config) = true ->
    exists ch, ch ∈ chunk_text c (max_tokens (chunking config))
                      (overlap_tokens (chunking config)) /\ chunk_index ch = 0) ->
   exists item, item ∈ acc.2 /\ Indexer.it_path item = t.1.2 /\
                Indexer.it_id item = entry_id config t.1.1).
Proof.
  intros Ht Hr.
  apply (fold_left_reach
    (fun (t : string * string * option string) (acc : Store * list Indexer.EmbedItem) =>
       forall c, fs_read_text fs t.1.2 = Ok c ->
       (chunking_enabled (chunking config) = true ->
        forall id, parent_file id = t.1.1 -> acc.1 !! id = None) /\
       ((chunking_enabled (chunking config) = true ->
         exists ch, ch ∈ chunk_text c (max_tokens (chunking config))
                           (overlap_tokens (chunking config)) /\ chunk_index ch = 0) ->
        exists item, item ∈ acc.2 /\ Indexer.it_path item = t.1.2 /\
                     Indexer.it_id item = entry_id config t.1.1))
    prepare); [| |exact Ht|exact Hr].
  - intros [st' items] x c' Hc'.
    destruct (prepare_step st' items x) as (new & Hnew & _ & _ & Hc).
    destruct (Hc c' Hc') as [Hdrop Hcov]. split; [done|].
    intros Hz. destruct (Hcov Hz) as (item & Hi & Hp & Hid).
    exists item. rewrite Hnew. split; [apply elem_of_app; by right|done].
  - intros [st' items] x y IH c' Hc'. destruct (IH c' Hc') as [Hdrop Hcov].
    destruct (prepare_step st' items y) as (new & Hnew & Hst & _ & _).
    split.
    + intros Hch id Hid. destruct (Hst id) as [Heq|[_ Hn]]; [|done].
      rewrite Heq. by apply Hdrop.
    + intros Hz. destruct (Hcov Hz) as (item & Hi & Hp & Hid).
      exists item. rewrite Hnew. split; [apply elem_of_app; by left|done].
Qed.

End PrepareLoop.

Lemma elem_of_combine_l {A B : Type} (l : list A) (k : list B) (p : A * B) :
  p ∈ combine l k -> p.1 ∈ l.
Proof.
  revert k. induction l as [|x l IH]; intros [|y k] Hp; simpl in *;
    try by apply elem_of_nil in Hp.
  apply elem_of_cons in Hp as [->|Hp]; [left|right; eauto].
Qed.

Lemma combine_cover {A B : Type} (l : list A) (k : list B) (x : A) :
  length k = length l -> x ∈ l -> exists y, (x, y) ∈ combine l k.
Proof.
  revert k. induction l as [|x' l IH]; intros [|y k] Hlen Hx; simpl in *;
    try by apply elem_of_nil in Hx.
  - discriminate.
  - apply elem_of_cons in Hx as [->|Hx].
    + exists y. left.
    + destruct (IH k) as [y' Hy']; [lia|done|]. exists y'. by right.
Qed.

Section StoreItemLoop.
Context `{Collaborators}.
Variable fs : FileSystem.

#[local] Abbreviation store_item := (Indexer.store_item fs).

(** One iteration either does nothing, when the file cannot be read, or
    upserts an entry with the file's mtime under the item's id. *)
Lemma store_item_step (st : Store) (n : Z) (item : Indexer.EmbedItem) (emb : Vec) :
  match fs_read_text fs (Indexer.it_path item) with
  | Raise _ => (store_item (st, n) (item, emb)).1 = st
  | Ok _ =>
      exists e, records_mtime fs item e /\
        (store_item (st, n) (item, emb)).1 = <[Indexer.it_id item := e]> st
  end.
Proof.
  unfold Indexer.store_item, records_mtime.
  destruct (fs_read_text fs (Indexer.it_path item)) as [content|err]; [|done].
  destruct (parse_chunk_id (Indexer.it_id item)) as [parent [i|]]; cbn [fst snd].
  - destruct (Indexer.it_start_line item); eexists; (split; [|reflexivity]);
      cbn [snd]; by simplify_map_eq.
  - eexists. split; [|reflexivity]. cbn [snd]. by simplify_map_eq.
Qed.

Lemma store_fold_spec (ps : list (Indexer.EmbedItem * Vec)) (st : Store) :
  let acc := fold_left store_item ps (st, 0) in
  (forall id e, acc.1 !! id = Some e ->
     st !! id = Some e \/
     exists p, p ∈ ps /\ Indexer.it_id p.1 = id /\ records_mtime fs p.1 e) /\
  (forall id, (forall p, p ∈ ps -> Indexer.it_id p.1 <> id) -> acc.1 !! id = st !! id).
Proof.
  apply (fold_left_inv
    (fun acc : Store * Z =>
       (forall id e, acc.1 !! id = Some e ->
          st !! id = Some e \/
          exists p, p ∈ ps /\ Indexer.it_id p.1 = id /\ records_mtime fs p.1 e) /\
       (forall id, (forall p, p ∈ ps -> Indexer.it_id p.1 <> id) ->
          acc.1 !! id = st !! id))).
  - split; [by left|done].
  - intros [st' n] [item emb] Hp [Hfrom Hother]. cbn [fst snd] in *.
    pose proof (store_item_step st' n item emb) as Hstep.
    destruct (fs_read_text fs (Indexer.it_path item)) as [content|err].
    + destruct Hstep as (e' & Hrec & ->). split.
      * intros id e. destruct (decide (Indexer.it_id item = id)) as [<-|Hne].
        -- rewrite lookup_insert_eq. intros [= <-]. right. by exists (item, emb).
        -- rewrite lookup_insert_ne by done. apply Hfrom.
      * intros id Hid. rewrite lookup_insert_ne; [by apply Hother|].
        apply (Hid (item, emb) Hp).
    + rewrite Hstep. by split.
Qed.

Lemma store_fold_cover (ps : list (Indexer.EmbedItem * Vec)) (st : Store)
    (p : Indexer.EmbedItem * Vec) :
  Forall (fun p => exists c, fs_read_text fs (Indexer.it_path p.1) = Ok c) ps ->
  p ∈ ps ->
  exists e p',
    (fold_left store_item ps (st, 0)).1 !! Indexer.it_id p.1 = Some e /\
    p' ∈ ps /\ Indexer.it_id p'.1 = Indexer.it_id p.1 /\ records_mtime fs p'.1 e.
Proof.
  intros Hread Hp.
  assert (Hall : Forall (fun p => p ∈ ps /\
                    exists c, fs_read_text fs (Indexer.it_path p.1) = Ok c) ps).
  { apply list.Forall_forall. intros q Hq. split; [done|].
    by eapply list.Forall_forall in Hread. }
  apply (fold_left_reach_in
    (fun (p : Indexer.EmbedItem * Vec) (acc : Store * Z) =>
       exists e p', acc.1 !! Indexer.it_id p.1 = Some e /\
         p' ∈ ps /\ Indexer.it_id p'.1 = Indexer.it_id p.1 /\ records_mtime fs p'.1 e)
    (fun p => p ∈ ps /\ exists c, fs_read_text fs (Indexer.it_path p.1) = Ok c)
    store_item); [| |exact Hall|exact Hp].
  - intros [st' n] [item emb] [Hin [c Hc]]. cbn [fst snd] in *.
    pose proof (store_item_step st' n item emb) as Hstep. rewrite Hc in Hstep.
    destruct Hstep as (e' & Hrec & ->).
    exists e', (item, emb). rewrite lookup_insert_eq. done.
  - intros [st' n] [item emb] [item' emb'] [Hin [c Hc]] (e & p' & Hl & Hp' & Hid & Hrec).
    cbn [fst snd] in *.
    pose proof (store_item_step st' n item' emb') as Hstep. rewrite Hc in Hstep.
    destruct Hstep as (e' & Hrec' & ->).
    destruct (decide (Indexer.it_id item' = Indexer.it_id item)) as [Heq|Hne].
    + exists e', (item', emb'). rewrite Heq, lookup_insert_eq. done.
    + exists e, p'. by rewrite lookup_insert_ne.
Qed.

End StoreItemLoop.

Lemma NoDup_keys_inj {V : Type} (d : ODict.t V) (x y : string * V) :
  NoDup (ODict.keys d) -> x ∈ d -> y ∈ d -> x.1 = y.1 -> x = y.
Proof.
  unfold ODict.keys. induction d as [|z d IH]; simpl; intros Hnd Hx Hy Hk.
  - by apply elem_of_nil in Hx.
  - apply NoDup_cons in Hnd as [Hz Hnd].
    apply elem_of_cons in Hx as [->|Hx]; apply elem_of_cons in Hy as [->|Hy]; auto.
    + destruct Hz. rewrite Hk. apply list_elem_of_fmap. eauto.
    + destruct Hz. rewrite <- Hk. apply list_elem_of_fmap. eauto.
Qed.

Section SecondPass.
Context `{Collaborators}.
Variable config : GundogConfig.
Variable fs : FileSystem.

(** With chunking enabled, parsing inverts [make_chunk_id] (section 3 of
    the specification). *)
Hypothesis parse_make :
  chunking_enabled (chunking config) = true ->
  forall f i, parse_chunk_id (make_chunk_id f i) = (f, Some i).
(** No scanned path has the form of a chunk id. *)
Hypothesis plain_paths :
  forall item, item ∈ Indexer.scan_all config fs ->
    parse_chunk_id item.1 = (item.1, None).
(** Every scanned file can be read. *)
Hypothesis readable :
  forall item, item ∈ Indexer.scan_all config fs ->
    exists c, fs_read_text fs item.1 = Ok c.
(** The embedder returns one vector per text. *)
Hypothesis embed_length :
  forall texts, length (embed_batch (embedding_model config) texts) = length texts.
(** With chunking enabled every scanned file has a chunk 0. *)
Hypothesis first_chunk :
  chunking_enabled (chunking config) = true ->
  forall item c, item ∈ Indexer.scan_all config fs -> fs_read_text fs item.1 = Ok c ->
    exists ch, ch ∈ chunk_text c (max_tokens (chunking config))
                      (overlap_tokens (chunking config)) /\ chunk_index ch = 0.

(** The store a completed pass leaves. *)
Lemma index_store_inv rebuild s summary s1 calls :
  Indexer.index config fs rebuild s = Ok (summary, s1, calls) ->
  exists to_index skipped,
    Indexer.select_files config fs rebuild (store_at_selection config fs s)
      (Indexer.scan_all config fs) = Ok (to_index, skipped) /\
    let prep := fold_left (Indexer.prepare_file config fs) to_index
                  (store_at_selection config fs s, []) in
    Indexer.store s1
    = (fold_left (Indexer.store_item fs)
         (combine prep.2 (embed_batch (embedding_model config)
                            (map Indexer.it_text prep.2)))
         (prep.1, 0)).1.
Proof.
  unfold Indexer.index, store_at_selection.
  destruct (Indexer.remove_missing (Indexer.scan_all config fs) (Indexer.store s))
    as [st1 removed] eqn:Erm. cbn [fst snd].
  destruct (Indexer.select_files config fs rebuild st1 (Indexer.scan_all config fs))
    as [[to_index skipped]|e] eqn:Esel; [|done]. cbn [mbind result_bind Py.bind].
  assert (Hemb :
    match to_index with
    | [] => Ok (st1, 0)
    | _ :: _ =>
        let '(st, embed_items) :=
          fold_left (Indexer.prepare_file config fs) to_index (st1, []) in
        Indexer.store_embeddings config fs st embed_items
    end
    = let prep := fold_left (Indexer.prepare_file config fs) to_index (st1, []) in
      Ok (fold_left (Indexer.store_item fs)
            (combine prep.2 (embed_batch (embedding_model config)
                               (map Indexer.it_text prep.2)))
            (prep.1, 0))).
  { destruct to_index as [|t ts]; [done|].
    destruct (fold_left _ (t :: ts) (st1, [])) as [stp items]. cbn [fst snd].
    unfold Indexer.store_embeddings. destruct items as [|it items]; [done|].
    by rewrite embed_length, length_map, Nat.eqb_refl. }
  rewrite Hemb. cbn zeta.
  destruct (fold_left (Indexer.store_item fs) _ _) as [st2 n] eqn:Efold.
  cbn [mbind result_bind Py.bind Indexer.files_indexed Indexer.files_removed].
  match goal with |- context [Indexer.needs_rebuild ?a ?b ?c] =>
    destruct (Indexer.needs_rebuild a b c) end;
    destruct (hybrid_enabled (hybrid config)); cbn;
    intros [= <- <- <-]; exists to_index, skipped; (split; [done|]); cbn;
    by rewrite Efold.
Qed.

(** The files selected by a completed selection are scanned files for
    which [selected] holds. *)
Lemma to_index_scanned rebuild st to_index skipped t :
  Indexer.select_files config fs rebuild st (Indexer.scan_all config fs)
    = Ok (to_index, skipped) ->
  t ∈ to_index ->
  exists item, item ∈ Indexer.scan_all config fs /\ t = as_triple item /\
               selected config fs rebuild st item = true.
Proof.
  intros Hsel Ht.
  pose proof (select_files_spec config fs rebuild st (Indexer.scan_all config fs)) as Hs.
  rewrite Hsel in Hs. destruct Hs as [-> _].
  apply list_elem_of_fmap in Ht as (item & -> & Hi).
  apply elem_of_List_filter in Hi as [Hi Hs]. eauto.
Qed.

Lemma scanned_to_index rebuild st to_index skipped item :
  Indexer.select_files config fs rebuild st (Indexer.scan_all config fs)
    = Ok (to_index, skipped) ->
  item ∈ Indexer.scan_all config fs ->
  selected config fs rebuild st item = true ->
  as_triple item ∈ to_index.
Proof.
  intros Hsel Hi Hs.
  pose proof (select_files_spec config fs rebuild st (Indexer.scan_all config fs)) as Hspec.
  rewrite Hsel in Hspec. destruct Hspec as [-> _].
  apply list_elem_of_fmap. exists item. split; [done|].
  by apply elem_of_List_filter.
Qed.

(** An entry that records the file's mtime makes [_needs_reindex] answer
    no. *)
Lemma fresh_entry_skips (st : Store) (file_path : string) (e : Vec * Meta) :
  (if chunking_enabled (chunking config) then st !! file_path = None else True) ->
  st !! entry_id config file_path = Some e ->
  e.2 !! "mtime" = Some (PFloat (fs_mtime fs file_path)) ->
  Indexer._needs_reindex config fs st file_path = Ok false.
Proof.
  unfold Indexer._needs_reindex, entry_id. intros Hnone He Hm.
  destruct e as [v m]. cbn [snd] in Hm.
  assert (Heq : py_eqb (PFloat (fs_mtime fs file_path)) (dict_get m "mtime") = true).
  { unfold dict_get. rewrite Hm. simpl. apply Qeq_bool_iff, Qeq_refl. }
  destruct (chunking_enabled (chunking config)).
  - rewrite Hnone, He. by rewrite Heq.
  - rewrite He. by rewrite Heq.
Qed.

(** X21. After a pass that completed and stored every file, a second
    pass over the same file system finds nothing to do: it indexes no file, removes no entry, makes no
    call and leaves the indexer and the artifacts on disk as they were. *)
Theorem second_pass_is_noop rebuild s summary1 s1 calls1 :
  Indexer.index config fs rebuild s = Ok (summary1, s1, calls1) ->
  exists summary2,
    Indexer.index config fs false s1 = Ok (summary2, s1, []) /\
    Indexer.files_indexed summary2 = 0 /\
    Indexer.files_removed summary2 = 0.
Proof.
  intros Hidx. apply index_store_inv in Hidx as (to_index & skipped & Hsel & Hstore).
  cbn zeta in Hstore.
  set (st1 := store_at_selection config fs s) in *.
  set (prep := fold_left (Indexer.prepare_file config fs) to_index (st1, [])) in *.
  set (ps := combine prep.2
               (embed_batch (embedding_model config) (map Indexer.it_text prep.2))) in *.
  destruct scan_all_wf with (config := config) (fs := fs) as [Hnd Hkey].
  destruct (prepare_fold_spec config fs to_index st1) as (Hp_sub & Hp_other & Hp_items).
  fold prep in Hp_sub, Hp_other, Hp_items.
  destruct (store_fold_spec fs ps prep.1) as [Hs_from Hs_other].
  rewrite <- Hstore in Hs_from, Hs_other.
  (* every item comes from a selected, scanned file *)
  assert (Hitem : forall p, p ∈ ps ->
            exists item, item ∈ Indexer.scan_all config fs /\
              selected config fs rebuild st1 item = true /\
              Indexer.it_path p.1 = item.1 /\
              if chunking_enabled (chunking config)
              then exists i, Indexer.it_id p.1 = make_chunk_id item.1 i
              else Indexer.it_id p.1 = item.1).
  { intros p Hp. apply elem_of_combine_l in Hp.
    destruct (Hp_items _ Hp) as (t & Ht & Hpath & Hid).
    destruct (to_index_scanned _ _ _ _ _ Hsel Ht) as (item & Hi & -> & Hs).
    exists item. unfold as_triple in Hpath, Hid. cbn [fst snd] in Hpath, Hid.
    rewrite <- (Hkey item Hi) in Hpath. done. }
  assert (Hparent : forall p, p ∈ ps ->
            exists item, item ∈ Indexer.scan_all config fs /\
              selected config fs rebuild st1 item = true /\
              Indexer.it_path p.1 = item.1 /\
              parse_chunk_id (Indexer.it_id p.1)
              = (item.1, if chunking_enabled (chunking config)
                         then (parse_chunk_id (Indexer.it_id p.1)).2 else None) /\
              (chunking_enabled (chunking config) = true ->
               (parse_chunk_id (Indexer.it_id p.1)).2 <> None)).
  { intros p Hp. destruct (Hitem p Hp) as (item & Hi & Hs & Hpath & Hid).
    exists item. split; [done|]. split; [done|]. split; [done|].
    destruct (chunking_enabled (chunking config)) eqn:Ec.
    - destruct Hid as [i ->]. rewrite (parse_make eq_refl). done.
    - rewrite Hid, (plain_paths item Hi). done. }
  destruct (up_to_date_pass_is_noop config fs s1) as (summary2 & H2 & Hi2 & Hr2 & _).
  - (* no entry of a vanished file *)
    intros id [e He]. apply ODictFacts.mem_keys.
    destruct (Hs_from id e He) as [Hprep|(p & Hp & Hid & _)].
    + apply Hp_sub in Hprep. unfold st1, store_at_selection in Hprep.
      apply remove_missing_spec in Hprep as [_ Hmem]. by apply ODictFacts.mem_keys.
    + destruct (Hparent p Hp) as (item & Hi & _ & _ & Hparse & _).
      unfold parent_file. rewrite <- Hid, Hparse. cbn [fst].
      unfold ODict.keys. apply list_elem_of_fmap. eauto.
  - (* every file has an up-to-date entry *)
    intros item Hi. rewrite <- (Hkey item Hi).
    destruct (readable item Hi) as [c Hc].
    destruct (selected config fs rebuild st1 item) eqn:Esel.
    + (* selected by the first pass: it has a fresh entry *)
      pose proof (scanned_to_index _ _ _ _ _ Hsel Hi Esel) as Ht.
      assert (Hc' : fs_read_text fs (as_triple item).1.2 = Ok c).
      { cbn [as_triple fst snd]. by rewrite <- (Hkey item Hi). }
      destruct (prepare_fold_cover config fs to_index st1 _ c Ht Hc') as [Hdrop Hcov].
      fold prep in Hdrop, Hcov.
      destruct Hcov as (it0 & Hit0 & Hpath0 & Hid0).
      { intros Hch. by apply (first_chunk Hch item c). }
      destruct (combine_cover prep.2
                  (embed_batch (embedding_model config) (map Indexer.it_text prep.2)) it0)
        as [emb Hemb]; [by rewrite embed_length, length_map|done|].
      fold ps in Hemb.
      destruct (store_fold_cover fs ps prep.1 (it0, emb)) as (e & p' & He & Hp' & Hid' & Hrec);
        [|done|].
      { apply list.Forall_forall. intros p Hp.
        destruct (Hitem p Hp) as (item' & Hi' & _ & -> & _). by apply readable. }
      rewrite <- Hstore in He. cbn [fst snd as_triple] in *.
      apply (fresh_entry_skips _ _ e).
      * destruct (chunking_enabled (chunking config)) eqn:Ec; [|done].
        rewrite Hs_other.
        -- apply Hdrop; [done|]. unfold parent_file. by rewrite (plain_paths item Hi).
        -- intros p Hp Heq. destruct (Hparent p Hp) as (_ & _ & _ & _ & _ & Hsome).
           rewrite Heq, (plain_paths item Hi) in Hsome. by apply Hsome.
      * by rewrite <- Hid0.
      * unfold records_mtime in Hrec. rewrite Hrec. do 2 f_equal.
        destruct (Hparent p' Hp') as (item' & Hi' & _ & -> & Hparse & _).
        rewrite Hid', Hid0 in Hparse. unfold entry_id in Hparse.
        destruct (chunking_enabled (chunking config)) eqn:Ec.
        -- rewrite (parse_make eq_refl) in Hparse. by injection Hparse as <-.
        -- rewrite (plain_paths item Hi) in Hparse. by injection Hparse as <-.
    + (* skipped by the first pass: its entry is untouched *)
      assert (Hrb : rebuild = false).
      { unfold selected, needs_indexing in Esel. by destruct rebuild. }
      assert (Hsame : forall id, parent_file id = item.1 ->
                Indexer.store s1 !! id = st1 !! id).
      { intros id Hpar. rewrite Hs_other.
        - apply Hp_other. intros t Ht Heq.
          destruct (to_index_scanned _ _ _ _ _ Hsel Ht) as (item' & Hi' & -> & Hs').
          cbn [as_triple fst] in Heq.
          assert (item' = item) as ->.
          { apply (NoDup_keys_inj _ _ _ Hnd Hi' Hi). congruence. }
          congruence.
        - intros p Hp Heq.
          destruct (Hparent p Hp) as (item' & Hi' & Hs' & _ & Hparse & Hsome).
          assert (item' = item) as ->.
          { apply (NoDup_keys_inj _ _ _ Hnd Hi' Hi).
            unfold parent_file in Hpar. rewrite <- Heq, Hparse in Hpar. done. }
          congruence. }
      pose proof (needs_reindex_spec config fs st1 item.1) as Hspec.
      rewrite (needs_reindex_ext config fs (Indexer.store s1) st1).
      * destruct (Indexer._needs_reindex config fs st1 item.1) as [b|err].
        -- rewrite Hspec. unfold selected, needs_indexing in Esel.
           rewrite Hrb, <- (Hkey item Hi) in Esel. simpl in Esel. by rewrite Esel.
        -- destruct Hspec as (_ & _ & Hraise). congruence.
      * apply Hsame. unfold parent_file. by rewrite (plain_paths item Hi).
      * intros Hch. apply Hsame. unfold parent_file. by rewrite (parse_make Hch).
  - exists summary2. done.
Qed.

End SecondPass.

Section IndexerRuns.
#[local] Existing Instance Demo.collaborators.
Import Scenario.

(** [index(rebuild=True)] over an empty corpus, hybrid search enabled. *)
Lemma run_rebuild_empty_corpus :
  outcome (Indexer.index (cfg false true [docs_source]) fs_none true fresh)
  = Some (counts 0 0 0 0 0,
          [Indexer.GraphBuild; Indexer.BM25Build; Indexer.StoreSave;
           Indexer.GraphSave; Indexer.BM25Save]).
Proof. vm_compute. reflexivity. Qed.

(** A first pass over one readable file, hybrid search disabled. *)
Lemma run_one_file_no_hybrid :
  outcome (Indexer.index (cfg false false [docs_source]) fs_one false fresh)
  = Some (counts 1 1 0 0 1,
          [Indexer.GraphBuild; Indexer.StoreSave; Indexer.GraphSave]).
Proof. vm_compute. reflexivity. Qed.

(** A first pass over one readable file, chunking and hybrid search
    enabled. *)
Lemma run_one_file_chunked :
  outcome (Indexer.index (cfg true true [docs_source]) fs_one false fresh)
  = Some (counts 1 1 0 0 1,
          [Indexer.GraphBuild; Indexer.BM25Build; Indexer.StoreSave;
           Indexer.GraphSave; Indexer.BM25Save]).
Proof. vm_compute. reflexivity. Qed.

(** The second of two passes over one readable file. *)
Lemma run_one_file_twice :
  outcome (Indexer.index (cfg true true [docs_source]) fs_one false
             (state_after
                (Indexer.index (cfg true true [docs_source]) fs_one false fresh)))
  = Some (counts 1 0 1 0 0, []).
Proof. vm_compute. reflexivity. Qed.

(** The two passes over a file that cannot be decoded. *)
Lemma run_undecodable_once :
  outcome (Indexer.index (cfg false false [docs_source]) fs_undecodable false fresh)
  = Some (counts 1 1 0 0 0,
          [Indexer.GraphBuild; Indexer.StoreSave; Indexer.GraphSave]).
Proof. vm_compute. reflexivity. Qed.

Lemma run_undecodable_twice :
  outcome (Indexer.index (cfg false false [docs_source]) fs_undecodable false
             (state_after
                (Indexer.index (cfg false false [docs_source]) fs_undecodable false
                   fresh)))
  = Some (counts 1 1 0 0 0,
          [Indexer.GraphBuild; Indexer.StoreSave; Indexer.GraphSave]).
Proof. vm_compute. reflexivity. Qed.

(** The second of two passes over an empty file, chunking enabled. *)
Lemma run_empty_file_twice :
  outcome (Indexer.index (cfg true true [docs_source]) fs_empty_file false
             (state_after
                (Indexer.index (cfg true true [docs_source]) fs_empty_file false
                   fresh)))
  = Some (counts 1 1 0 0 0,
          [Indexer.GraphBuild; Indexer.BM25Build; Indexer.StoreSave;
           Indexer.GraphSave; Indexer.BM25Save]).
Proof. vm_compute. reflexivity. Qed.

(** Two passes against step 7 as worded: [index(rebuild=True)] over an
    empty corpus rebuilds the graph and the BM25 index although no file
    was indexed and no entry removed; and with hybrid search disabled a
    pass that indexes a new file does not rebuild the BM25 index. *)
Lemma C2_counterexample :
  ~ rebuilds_iff_changed (cfg false true [docs_source]) fs_none true fresh /\
  ~ rebuilds_iff_changed (cfg false false [docs_source]) fs_one false fresh.
Proof.
  split; intros Hclaim.
  - pose proof run_rebuild_empty_corpus as Hout.
    destruct (Indexer.index (cfg false true [docs_source]) fs_none true fresh)
      as [[[summary s'] calls]|e] eqn:E; [|discriminate].
    cbn in Hout. injection Hout as -> ->.
    pose proof (proj1 (Hclaim _ _ _ eq_refl)) as Hc. clear Hclaim E.
    destruct Hc as [Hc|Hc]; [split; [left|right; left]| |]; cbn in Hc; lia.
  - pose proof run_one_file_no_hybrid as Hout.
    destruct (Indexer.index (cfg false false [docs_source]) fs_one false fresh)
      as [[[summary s'] calls]|e] eqn:E; [|discriminate].
    cbn in Hout. injection Hout as -> ->.
    pose proof (proj2 (Hclaim _ _ _ eq_refl)) as Hc. clear Hclaim E.
    destruct Hc as [_ Hc]; [left; cbn; lia|].
    repeat (apply elem_of_cons in Hc as [Hc|Hc]; [discriminate|]).
    by apply elem_of_nil in Hc.
Qed.

Lemma C2_witness :
  exists summary s' calls,
    Indexer.index (cfg false false [docs_source]) fs_one false fresh
      = Ok (summary, s', calls) /\
    (Indexer.GraphBuild ∈ calls <->
       false = true \/ 0 < Indexer.files_indexed summary
       \/ 0 < Indexer.files_removed summary).
Proof.
  pose proof run_one_file_no_hybrid as Hout.
  destruct (Indexer.index (cfg false false [docs_source]) fs_one false fresh)
    as [[[summary s'] calls]|e] eqn:E; [|discriminate].
  exists summary, s', calls. split; [reflexivity|].
  exact (proj1 (C2_rebuild_iff_forced_or_changed
                  (cfg false false [docs_source]) fs_one false fresh summary s' calls E)).
Defined.


(** C3. With a file that cannot be decoded among the sources, a second
    pass with no change on the file system again reports the file as
    indexed, rebuilds the graph and saves: the first pass caught the read
    error and stored nothing for the file, so the second pass takes it
    for a new file. *)
Theorem C3_second_pass_reindexes_unreadable_file :
  exists summary1 s1 calls1 summary2 s2 calls2,
    Indexer.index (cfg false false [docs_source]) fs_undecodable false fresh
      = Ok (summary1, s1, calls1) /\
    Indexer.index (cfg false false [docs_source]) fs_undecodable false s1
      = Ok (summary2, s2, calls2) /\
    Indexer.files_indexed summary2 = 1 /\
    Indexer.files_removed summary2 = 0 /\
    calls2 = [Indexer.GraphBuild; Indexer.StoreSave; Indexer.GraphSave].
Proof.
  pose proof run_undecodable_once as H1.
  pose proof run_undecodable_twice as H2.
  destruct (Indexer.index (cfg false false [docs_source]) fs_undecodable false fresh)
    as [[[summary1 s1] calls1]|e] eqn:E1; [|discriminate].
  cbn [state_after] in H2.
  destruct (Indexer.index (cfg false false [docs_source]) fs_undecodable false s1)
    as [[[summary2 s2] calls2]|e] eqn:E2; [|discriminate].
  exists summary1, s1, calls1, summary2, s2, calls2.
  cbn in H2. injection H2 as -> ->.
  split; [reflexivity|]. split; [exact E2|]. repeat split; reflexivity.
Qed.

(** The same happens, with chunking enabled, for an empty file: the
    chunker yields no chunk, nothing is stored, and every pass selects
    the file again. *)
Lemma second_pass_reindexes_empty_file :
  exists summary2 s2 calls2,
    Indexer.index (cfg true true [docs_source]) fs_empty_file false
      (state_after (Indexer.index (cfg true true [docs_source]) fs_empty_file false fresh))
      = Ok (summary2, s2, calls2) /\
    Indexer.files_indexed summary2 = 1 /\
    Indexer.StoreSave ∈ calls2.
Proof.
  pose proof run_empty_file_twice as H2.
  destruct (Indexer.index _ _ _ (state_after _))
    as [[[summary2 s2] calls2]|e] eqn:E2; [|discriminate].
  exists summary2, s2, calls2. clear E2.
  cbn in H2. injection H2 as -> ->.
  split; [reflexivity|]. split; [reflexivity|]. do 2 right. left.
Qed.

(** A second pass over a readable file indexes nothing, removes nothing
    and makes no call. *)
Lemma second_pass_skips_readable_file :
  exists summary2 s2,
    Indexer.index (cfg true true [docs_source]) fs_one false
      (state_after (Indexer.index (cfg true true [docs_source]) fs_one false fresh))
      = Ok (summary2, s2, []) /\
    Indexer.files_indexed summary2 = 0 /\
    Indexer.files_removed summary2 = 0.
Proof.
  pose proof run_one_file_twice as H2.
  destruct (Indexer.index _ _ _ (state_after _))
    as [[[summary2 s2] calls2]|e] eqn:E2; [|discriminate].
  exists summary2, s2. clear E2.
  cbn in H2. injection H2 as -> ->. repeat split; reflexivity.
Qed.

(** The hypotheses of [second_pass_is_noop] hold for one readable file
    in whole-file mode. *)
Lemma second_pass_is_noop_run :
  exists summary1 s1 calls1 summary2,
    Indexer.index (cfg false false [docs_source]) fs_one false fresh
      = Ok (summary1, s1, calls1) /\
    Indexer.index (cfg false false [docs_source]) fs_one false s1
      = Ok (summary2, s1, []) /\
    Indexer.files_indexed summary2 = 0 /\
    Indexer.files_removed summary2 = 0.
Proof.
  pose proof run_one_file_no_hybrid as Hout.
  destruct (Indexer.index (cfg false false [docs_source]) fs_one false fresh)
    as [[[summary1 s1] calls1]|e] eqn:E; [|discriminate].
  clear Hout.
  assert (Hscan : Indexer.scan_all (cfg false false [docs_source]) fs_one
                  = [("docs/a.md", ("docs/a.md", Some "docs"))])
    by (vm_compute; reflexivity).
  destruct (second_pass_is_noop (cfg false false [docs_source]) fs_one) with
    (rebuild := false) (s := fresh) (summary1 := summary1) (s1 := s1) (calls1 := calls1)
    as (summary2 & H2); [| | | | |exact E|].
  - intros [=].
  - intros item Hi. rewrite Hscan in Hi. apply list_elem_of_singleton in Hi as ->.
    vm_compute. reflexivity.
  - intros item Hi. rewrite Hscan in Hi. apply list_elem_of_singleton in Hi as ->.
    eexists. vm_compute. reflexivity.
  - intros texts. cbn. by rewrite length_map.
  - intros [=].
  - exists summary1, s1, calls1, summary2. split; [reflexivity|exact H2].
Defined.

End IndexerRuns.

(* ================================================================== *)
(** * Facts about the index manager *)
(* ================================================================== *)

Section ManagerTheorems.
Context `{Collaborators}.
Variable daemon_config : Daemon.DaemonConfig.
Variable disk : Daemon.Disk.
Variable defaults : GundogConfig.

#[local] Abbreviation load_index := (Daemon.load_index daemon_config disk defaults).
#[local] Abbreviation ensure_loaded := (Daemon.ensure_loaded daemon_config disk defaults).

(** The four ways a call of [load_index] can go. *)
Lemma load_index_cases (name : string) (m : Daemon.Manager) :
  (already_loaded name m = true /\ load_index name m = (Ok tt, m)) \/
  (already_loaded name m = false /\
   Daemon.get_index_path daemon_config name = None /\
   load_index name m = (Raise (unknown_index name), m)) \/
  (already_loaded name m = false /\
   is_Some (Daemon.get_index_path daemon_config name) /\
   exists e, load_index name m = (Raise e, m)) \/
  (already_loaded name m = false /\
   is_Some (Daemon.get_index_path daemon_config name) /\
   exists gundog_config engine,
     Daemon.QueryEngine_init disk gundog_config = Ok engine /\
     load_index name m
     = (Ok tt, {| Daemon._engine := Some engine; Daemon._active_index := Some name |})).
Proof.
  unfold Daemon.load_index, Daemon.seq, Daemon.get_self, already_loaded.
  destruct (bool_decide (Some name = Daemon._active_index m) && Daemon.is_some _) eqn:Ea.
  { left. by split. }
  right. destruct (Daemon.get_index_path daemon_config name) as [index_path|] eqn:Ep.
  2:{ left. by repeat split. }
  right.
  set (gundog_dir := if String.eqb (path_name index_path) ".gundog" then index_path
                     else path_join index_path ".gundog").
  destruct (Daemon.config_file_exists disk (path_join gundog_dir "config.yaml")).
  - unfold Daemon.lift, Daemon.ret.
    destruct (Daemon.load_config disk (path_join gundog_dir "config.yaml")) as [c|e].
    + destruct (Daemon.QueryEngine_init disk _) as [engine|e] eqn:Ee.
      * right. split; [done|]. split; [eauto|]. eauto.
      * left. split; [done|]. split; [eauto|]. eauto.
    + left. split; [done|]. split; [eauto|]. eauto.
  - unfold Daemon.lift, Daemon.ret.
    destruct (Daemon.QueryEngine_init disk _) as [engine|e] eqn:Ee.
    + right. split; [done|]. split; [eauto|]. eauto.
    + left. split; [done|]. split; [eauto|]. eauto.
Qed.

Lemma ensure_loaded_state (index_name : option string) (m : Daemon.Manager) :
  (ensure_loaded index_name m).2 = m \/
  exists name, (ensure_loaded index_name m).2 = (load_index name m).2.
Proof.
  unfold Daemon.ensure_loaded.
  destruct (if str_truthy index_name then index_name
            else Daemon.default_index daemon_config) as [target|]; [|by left].
  right. exists target. unfold Daemon.seq at 1.
  destruct (load_index target m) as [[[]|e] m']; [|done].
  unfold Daemon.seq, Daemon.get_self. simpl.
  by destruct (Daemon._engine m').
Qed.

(** The active index of a daemon's manager is a registered name. *)
Lemma reachable_active_registered (m : Daemon.Manager) (name : string) :
  reachable daemon_config disk defaults m ->
  Daemon._active_index m = Some name ->
  is_Some (Daemon.get_index_path daemon_config name).
Proof.
  intros Hm. revert name.
  assert (Hload : forall m n, 
            (forall name, Daemon._active_index m = Some name ->
                          is_Some (Daemon.get_index_path daemon_config name)) ->
            forall name, Daemon._active_index (load_index n m).2 = Some name ->
                         is_Some (Daemon.get_index_path daemon_config name)).
  { intros m0 n IH name.
    destruct (load_index_cases n m0)
      as [[_ ->]|[(_ & _ & ->)|[(_ & _ & e & ->)|(_ & Hp & c & en & _ & ->)]]];
      simpl; auto.
    by intros [= <-]. }
  induction Hm as [|m n Hm IH|m idx Hm IH]; intros name.
  - discriminate.
  - by apply Hload.
  - destruct (ensure_loaded_state idx m) as [->|[n ->]]; [apply IH|by apply Hload].
Qed.

(** C8. On a daemon's manager, [load_index] with a name that is not in
    the registry raises the unknown-index error; whenever [load_index]
    raises, for an unknown name or for an error while the new engine is
    constructed, the manager is left as it was, with its previous
    [active_index] and [engine]; and when it returns, the manager is
    either unchanged or holds an engine whose construction succeeded,
    under the new name. *)
Theorem C8_load_index_fail_safe (m : Daemon.Manager) (name : string) :
  reachable daemon_config disk defaults m ->
  (Daemon.get_index_path daemon_config name = None ->
   (load_index name m).1 = Raise (unknown_index name)) /\
  (forall e, (load_index name m).1 = Raise e ->
     (load_index name m).2 = m) /\
  ((load_index name m).1 = Ok tt ->
     (load_index name m).2 = m \/
     exists gundog_config engine,
       Daemon.QueryEngine_init disk gundog_config = Ok engine /\
       (load_index name m).2
       = {| Daemon._engine := Some engine; Daemon._active_index := Some name |}).
Proof.
  intros Hm.
  destruct (load_index_cases name m)
    as [[Ha E]|[(_ & _ & E)|[(_ & Hp & e & E)|(_ & Hp & c & en & Hc & E)]]];
    rewrite E; simpl.
  - split; [|split; [done|by left]].
    intros Hnone. exfalso.
    unfold already_loaded in Ha. apply andb_true_iff in Ha as [Ha _].
    apply bool_decide_eq_true in Ha.
    destruct (reachable_active_registered m name Hm (eq_sym Ha)) as [p Hp].
    congruence.
  - split; [done|]. split; [done|]. by left.
  - split; [|split; [done|done]].
    intros Hnone. destruct Hp as [p Hp]. congruence.
  - split; [|split; [done|right; eauto]].
    intros Hnone. destruct Hp as [p Hp]. congruence.
Qed.

End ManagerTheorems.

Section ManagerRuns.
#[local] Existing Instance Demo.collaborators.
Import Scenario.

(** The name [nope] is not registered: the call raises and the fresh
    manager stays as it was. *)
Lemma C8_witness :
  reachable registry good_disk (cfg false false []) Daemon.new_manager /\
  Daemon.get_index_path registry "nope" = None /\
  (Daemon.load_index registry good_disk (cfg false false []) "nope" Daemon.new_manager).1
  = Raise (unknown_index "nope").
Proof.
  assert (Hr : reachable registry good_disk (cfg false false []) Daemon.new_manager)
    by constructor.
  assert (Hn : Daemon.get_index_path registry "nope" = None) by reflexivity.
  split; [exact Hr|]. split; [exact Hn|].
  exact (proj1 (C8_load_index_fail_safe registry good_disk (cfg false false [])
                  Daemon.new_manager "nope" Hr) Hn).
Defined.

(** With a corrupt store artifact the load of [x] raises and the
    manager keeps the engine it had. *)
Lemma corrupt_artifact_keeps_manager (m : Daemon.Manager) :
  Daemon.load_index registry corrupt_disk (cfg false false []) "x" m
  = (Ok tt, m) \/
  exists e,
    Daemon.load_index registry corrupt_disk (cfg false false []) "x" m = (Raise e, m).
Proof.
  unfold Daemon.load_index, Daemon.seq, Daemon.get_self.
  destruct (_ && _); [by left|]. right. cbn. eauto.
Qed.

End ManagerRuns.

(* ================================================================== *)
(** * Further facts about the query engine *)
(* ================================================================== *)

Import Props ManagerProps.

Lemma ODict_get_set {V : Type} (d : ODict.t V) (k k' : string) (v : V) :
  ODict.get (ODict.set d k v) k' = if String.eqb k' k then Some v else ODict.get d k'.
Proof.
  induction d as [|[k0 v0] d IH]; simpl.
  - done.
  - destruct (String.eqb_spec k k0) as [->|Hne]; simpl.
    + destruct (String.eqb_spec k' k0); done.
    + rewrite IH. destruct (String.eqb_spec k' k0) as [->|?]; [|done].
      destruct (String.eqb_spec k0 k); [congruence|done].
Qed.

Lemma ODict_get_elem_of {V : Type} (d : ODict.t V) (k : string) (v : V) :
  ODict.get d k = Some v -> (k, v) ∈ d.
Proof.
  induction d as [|[k0 v0] d IH]; simpl; [done|].
  destruct (String.eqb_spec k k0) as [->|Hne].
  - intros [= ->]. left.
  - intros Hg. right. auto.
Qed.

Lemma ODict_get_None {V : Type} (d : ODict.t V) (k : string) :
  ODict.get d k = None <-> k ∉ ODict.keys d.
Proof.
  rewrite <- ODictFacts.mem_keys. unfold ODict.mem.
  destruct (ODict.get d k); split; intros Hn; done.
Qed.

(** X1. [_rescale_score] with any baseline below 1: a raw score at or
    below the baseline gives 0 and one above it a positive value; a raw
    score of 1 gives 1; raw scores up to 1 give at most 1; and the
    result never decreases when the raw score grows. *)
Theorem rescale_score_range_and_monotone (baseline : Q) :
  (baseline < 1)%Q ->
  (forall raw, (raw <= baseline)%Q -> Query._rescale_score raw baseline = 0%Q) /\
  (forall raw, (baseline < raw)%Q -> (0 < Query._rescale_score raw baseline)%Q) /\
  (Query._rescale_score 1 baseline == 1)%Q /\
  (forall raw, (raw <= 1)%Q -> (Query._rescale_score raw baseline <= 1)%Q) /\
  (forall a b, (a <= b)%Q ->
     (Query._rescale_score a baseline <= Query._rescale_score b baseline)%Q).
Proof.
  intros Hb.
  assert (Hpos : (0 < 1 - baseline)%Q) by lra.
  assert (Hval : forall raw, (baseline < raw)%Q ->
            Query._rescale_score raw baseline = ((raw - baseline) / (1 - baseline))%Q).
  { intros raw Hr. unfold Query._rescale_score.
    destruct (Qle_bool raw baseline) eqn:E; [|done].
    apply Qle_bool_iff in E. lra. }
  assert (Hzero : forall raw, (raw <= baseline)%Q -> Query._rescale_score raw baseline = 0%Q).
  { intros raw Hr. unfold Query._rescale_score.
    apply Qle_bool_iff in Hr. by rewrite Hr. }
  assert (Hdiv : forall x y, (x <= y)%Q ->
            (x / (1 - baseline) <= y / (1 - baseline))%Q).
  { intros x y Hxy. unfold Qdiv. apply Qmult_le_compat_r; [done|].
    apply Qlt_le_weak, Qinv_lt_0_compat, Hpos. }
  assert (Hz : (0 / (1 - baseline) == 0)%Q) by (field; lra).
  assert (Ho : ((1 - baseline) / (1 - baseline) == 1)%Q) by (field; lra).
  split; [exact Hzero|]. split; [|split; [|split]].
  - intros raw Hr. rewrite (Hval raw Hr).
    unfold Qdiv. apply Qmult_lt_0_compat; [lra|]. by apply Qinv_lt_0_compat.
  - rewrite (Hval 1%Q Hb). exact Ho.
  - intros raw Hr. destruct (Qlt_le_dec baseline raw) as [Hlt|Hle].
    + rewrite (Hval raw Hlt).
      apply Qle_trans with ((1 - baseline) / (1 - baseline))%Q; [apply Hdiv; lra|].
      rewrite Ho. lra.
    + rewrite (Hzero raw Hle). lra.
  - intros a b Hab. destruct (Qlt_le_dec baseline a) as [Hlt|Hle].
    + rewrite (Hval a Hlt), (Hval b) by lra. apply Hdiv. lra.
    + rewrite (Hzero a Hle). destruct (Qlt_le_dec baseline b) as [Hlt'|Hle'].
      * rewrite (Hval b Hlt').
        apply Qle_trans with (0 / (1 - baseline))%Q; [rewrite Hz; lra|].
        apply Hdiv. lra.
      * rewrite (Hzero b Hle'). lra.
Qed.

(** Folding assignments [d[key p] = val d p] over a list. *)
Lemma fold_set_keys {A V : Type} (key : A -> string) (val : ODict.t V -> A -> V)
    (l : list A) (d : ODict.t V) :
  let d' := fold_left (fun d p => ODict.set d (key p) (val d p)) l d in
  (forall id, id ∈ ODict.keys d' <-> id ∈ ODict.keys d \/ id ∈ map key l) /\
  (NoDup (ODict.keys d) -> NoDup (ODict.keys d')) /\
  (length (ODict.keys d') <= length (ODict.keys d) + length l)%nat.
Proof.
  revert d. induction l as [|p l IH]; intros d; simpl.
  - split; [|split; [done|lia]]. intros id. rewrite elem_of_nil. tauto.
  - destruct (IH (ODict.set d (key p) (val d p))) as (Hk & Hnd & Hlen).
    split; [|split].
    + intros id. rewrite Hk, ODictFacts.elem_of_keys_set, elem_of_cons. tauto.
    + intros Hd. by apply Hnd, ODictFacts.NoDup_keys_set.
    + etrans; [exact Hlen|]. rewrite ODictFacts.keys_set.
      destruct (ODict.mem d (key p)); [lia|]. rewrite length_app. simpl. lia.
Qed.

Lemma slice_to_all {A : Type} (k : Z) (l : list A) :
  Z.of_nat (length l) <= k -> slice_to k l = l.
Proof.
  intros Hk. unfold slice_to.
  destruct (Z.leb_spec 0 k); [|lia]. apply firstn_all2. lia.
Qed.

Lemma slice_to_length {A : Type} (k : Z) (l : list A) :
  0 <= k -> (length (slice_to k l) <= Z.to_nat k)%nat.
Proof.
  intros Hk. unfold slice_to. destruct (Z.leb_spec 0 k); [|lia].
  rewrite length_firstn. lia.
Qed.

Section FuseFacts.
Context `{Collaborators}.
Variable self : Query.QueryEngine.

Lemma fuse_vector_fold (l : list (Z * SearchResult))
    (rrf : list (string * Q)) (sc : gmap string Q) (mm : gmap string Meta) :
  let acc := fold_left (Query.fuse_vector_step self) l (rrf, sc, mm) in
  acc.1.1 =
    fold_left
      (fun d (p : Z * SearchResult) =>
         ODict.set d (sr_id p.2)
           (default 0 (ODict.get d (sr_id p.2))
            + vector_weight (hybrid (Query.config self)) / inject_Z (Query.rrf_k + p.1))%Q)
      l rrf /\
  (forall id, id ∉ map (fun p : Z * SearchResult => sr_id p.2) l ->
     acc.1.2 !! id = sc !! id /\ acc.2 !! id = mm !! id).
Proof.
  revert rrf sc mm. induction l as [|[rank x] l IH]; intros rrf sc mm; simpl.
  - done.
  - destruct (IH (ODict.set rrf (sr_id x)
                    (default 0 (ODict.get rrf (sr_id x))
                     + vector_weight (hybrid (Query.config self))
                       / inject_Z (Query.rrf_k + rank))%Q)
                (<[sr_id x := sr_score x]> sc)
                (<[sr_id x := sr_metadata x]> mm)) as [Hk Hs].
    split; [exact Hk|].
    intros id Hid. apply not_elem_of_cons in Hid as [Hne Hid].
    destruct (Hs id Hid) as [H1 H2].
    split; [etrans; [exact H1|]|etrans; [exact H2|]]; by rewrite lookup_insert_ne.
Qed.

Lemma fuse_bm25_fold (l : list (Z * (string * Q)))
    (rrf : list (string * Q)) (mm : gmap string Meta) :
  let acc := fold_left (Query.fuse_bm25_step self) l (rrf, mm) in
  acc.1 =
    fold_left
      (fun d (p : Z * (string * Q)) =>
         ODict.set d p.2.1
           (default 0 (ODict.get d p.2.1)
            + bm25_weight (hybrid (Query.config self)) / inject_Z (Query.rrf_k + p.1))%Q)
      l rrf.
Proof.
  revert rrf mm. induction l as [|[rank [doc_id s]] l IH]; intros rrf mm; simpl; [done|].
  apply IH.
Qed.

Lemma map_snd_enumerate_from {A B : Type} (f : A -> B) (i : Z) (l : list A) :
  map (fun p : Z * A => f p.2) (enumerate_from i l) = map f l.
Proof.
  revert i. induction l as [|x l IH]; intros i; simpl; [done|]. by rewrite IH.
Qed.

Lemma length_enumerate_from {A : Type} (i : Z) (l : list A) :
  length (enumerate_from i l) = length l.
Proof. revert i. induction l as [|x l IH]; intros i; simpl; [done|]. by rewrite IH. Qed.

(** X2. The fused list has pairwise distinct ids and at most [top_k]
    entries; every id comes from one of the two input lists; a document
    that only the lexical search found is reported with score 0.0; and
    when [top_k] is at least the number of inputs no hit is dropped. *)
Theorem fuse_results_ids vector_results bm25_results top_k :
  let fused := Query._fuse_results self vector_results bm25_results top_k in
  NoDup (map sr_id fused) /\
  (0 <= top_k -> Z.of_nat (length fused) <= top_k) /\
  (forall r, r ∈ fused ->
     sr_id r ∈ map sr_id vector_results \/ sr_id r ∈ map fst bm25_results) /\
  (forall r, r ∈ fused -> sr_id r ∉ map sr_id vector_results -> sr_score r = 0%Q) /\
  (Z.of_nat (length vector_results + length bm25_results) <= top_k ->
   forall id, id ∈ map sr_id vector_results \/ id ∈ map fst bm25_results ->
     id ∈ map sr_id fused).
Proof.
  unfold Query._fuse_results.
  destruct (fold_left (Query.fuse_vector_step self) (enumerate vector_results) ([], ∅, ∅))
    as [[rrf1 vs] mm1] eqn:E1.
  destruct (fold_left (Query.fuse_bm25_step self) (enumerate bm25_results) (rrf1, mm1))
    as [rrf2 mm2] eqn:E2.
  pose proof (fuse_vector_fold (enumerate vector_results) [] ∅ ∅) as Hv.
  cbn zeta in Hv. rewrite E1 in Hv. cbn [fst snd] in Hv. destruct Hv as [Hrrf1 Hvs].
  pose proof (eq_trans (eq_sym (f_equal fst E2))
                (fuse_bm25_fold (enumerate bm25_results) rrf1 mm1)) as Hrrf2.
  cbn [fst snd] in Hrrf2.
  destruct (fold_set_keys (fun p : Z * SearchResult => sr_id p.2)
              (fun d p =>
                 (default 0 (ODict.get d (sr_id p.2))
                  + vector_weight (hybrid (Query.config self))
                    / inject_Z (Query.rrf_k + p.1))%Q)
              (enumerate vector_results) []) as (Hk1 & Hnd1 & Hlen1).
  rewrite <- Hrrf1 in Hk1, Hnd1, Hlen1.
  destruct (fold_set_keys (fun p : Z * (string * Q) => p.2.1)
              (fun d p =>
                 (default 0 (ODict.get d p.2.1)
                  + bm25_weight (hybrid (Query.config self))
                    / inject_Z (Query.rrf_k + p.1))%Q)
              (enumerate bm25_results) rrf1) as (Hk2 & Hnd2 & Hlen2).
  rewrite <- Hrrf2 in Hk2, Hnd2, Hlen2.
  unfold enumerate in *.
  rewrite (map_snd_enumerate_from sr_id) in Hk1, Hvs.
  rewrite (map_snd_enumerate_from fst) in Hk2.
  rewrite length_enumerate_from in Hlen1. rewrite length_enumerate_from in Hlen2.
  simpl in Hlen1.
  assert (Hkeys : forall id, id ∈ ODict.keys rrf2 <->
            id ∈ map sr_id vector_results \/ id ∈ map fst bm25_results).
  { intros id. rewrite Hk2, Hk1. rewrite elem_of_nil. tauto. }
  set (sorted_ids := sort_desc (fun x => default 0%Q (ODict.get rrf2 x)) (ODict.keys rrf2)).
  set (mk := fun doc_id =>
               {| sr_id := doc_id;
                  sr_score := default 0%Q (vs !! doc_id);
                  sr_metadata := default ∅ (mm2 !! doc_id) |}).
  assert (Hids : map sr_id (map mk (slice_to top_k sorted_ids)) = slice_to top_k sorted_ids).
  { rewrite map_map. simpl. apply map_id. }
  cbn zeta. rewrite Hids.
  split; [|split; [|split; [|split]]].
  - eapply sublist_NoDup; [|apply slice_to_sublist].
    unfold sorted_ids. eapply NoDup_Permutation_proper; [apply sort_desc_perm|].
    apply Hnd2, Hnd1. constructor.
  - intros Hk. rewrite length_map. pose proof (slice_to_length top_k sorted_ids Hk). lia.
  - intros r Hr. apply list_elem_of_fmap in Hr as (id & -> & Hid). simpl.
    apply elem_of_slice_to in Hid. unfold sorted_ids in Hid.
    rewrite sort_desc_perm in Hid. by apply Hkeys.
  - intros r Hr Hnot. apply list_elem_of_fmap in Hr as (id & -> & Hid). simpl in *.
    destruct (Hvs id Hnot) as [-> _]. by rewrite lookup_empty.
  - intros Hk id Hid. rewrite slice_to_all.
    + unfold sorted_ids. rewrite sort_desc_perm. by apply Hkeys.
    + unfold sorted_ids. rewrite sort_desc_perm. lia.
Qed.

Lemma sort_desc_sorted_id {A : Type} (key : A -> Q) (l : list A) :
  StronglySorted (desc key) l -> sort_desc key l = l.
Proof.
  unfold sort_desc. induction 1 as [|x l Hs IH Hx]; simpl; [done|].
  rewrite IH. destruct l as [|y l]; simpl; [done|].
  apply Forall_cons in Hx as [Hy _]. unfold desc in Hy.
  apply Qle_bool_iff in Hy. by rewrite Hy.
Qed.

Lemma slice_to_map {A B : Type} (f : A -> B) (k : Z) (l : list A) :
  slice_to k (map f l) = map f (slice_to k l).
Proof.
  unfold slice_to. rewrite length_map.
  destruct (0 <=? k); by rewrite firstn_map.
Qed.

Lemma ODict_set_fresh {V : Type} (d : ODict.t V) (k : string) (v : V) :
  k ∉ ODict.keys d -> ODict.set d k v = (d ++ [(k, v)])%list.
Proof.
  induction d as [|[k0 v0] d IH]; simpl; [done|].
  intros Hk. apply not_elem_of_cons in Hk as [Hne Hk].
  destruct (String.eqb_spec k k0); [done|]. by rewrite IH.
Qed.

Lemma ODict_get_of_elem {V : Type} (d : ODict.t V) (k : string) (v : V) :
  NoDup (ODict.keys d) -> (k, v) ∈ d -> ODict.get d k = Some v.
Proof.
  induction d as [|[k0 v0] d IH]; simpl; intros Hnd Hin.
  - by apply elem_of_nil in Hin.
  - apply NoDup_cons in Hnd as [Hk0 Hnd].
    apply elem_of_cons in Hin as [[= -> ->]|Hin].
    + by rewrite String.eqb_refl.
    + destruct (String.eqb_spec k k0) as [->|Hne]; [|by apply IH].
      destruct Hk0. apply list_elem_of_fmap. by exists (k0, v).
Qed.

(** An association list with distinct keys whose values do not increase
    has its keys in non-increasing order of their values. *)
Lemma keys_sorted_by (key : string -> Q) (d : ODict.t Q) :
  (forall p, p ∈ d -> key p.1 = p.2) ->
  StronglySorted (fun p q : string * Q => (q.2 <= p.2)%Q) d ->
  StronglySorted (desc key) (ODict.keys d).
Proof.
  intros Hget Hs. induction Hs as [|p d Hs IH Hp]; simpl; [constructor|].
  constructor.
  - apply IH. intros q Hq. apply Hget. by right.
  - apply list.Forall_forall. intros k Hk.
    apply list_elem_of_fmap in Hk as (q & -> & Hq).
    unfold desc. rewrite (Hget p) by left. rewrite (Hget q) by (by right).
    eapply list.Forall_forall in Hp; [exact Hp|done].
Qed.

Lemma keys_sorted_by_value (d : ODict.t Q) :
  NoDup (ODict.keys d) ->
  StronglySorted (fun p q : string * Q => (q.2 <= p.2)%Q) d ->
  StronglySorted (desc (fun id => default 0%Q (ODict.get d id))) (ODict.keys d).
Proof.
  intros Hnd Hs. apply keys_sorted_by; [|done].
  intros [k v] Hp. simpl. by rewrite (ODict_get_of_elem d k v Hnd Hp).
Qed.

Lemma elem_of_enumerate_from_ge {A : Type} (i : Z) (l : list A) (p : Z * A) :
  p ∈ enumerate_from i l -> i <= p.1.
Proof.
  revert i. induction l as [|x l IH]; intros i Hp; simpl in *.
  - by apply elem_of_nil in Hp.
  - apply elem_of_cons in Hp as [->|Hp]; [simpl; lia|].
    apply IH in Hp. lia.
Qed.

Lemma Qinv_le_contravar (a b : Q) : (0 < a)%Q -> (a <= b)%Q -> (/ b <= / a)%Q.
Proof.
  intros Ha Hab. apply Qle_shift_inv_r; [lra|].
  assert (E : (/ a * a == 1)%Q) by (field; lra).
  rewrite <- E. apply Qmult_le_l; [by apply Qinv_lt_0_compat|done].
Qed.

(** The loop over the dense results when their ids are distinct and
    new: every id is appended with the share of its rank. *)
Lemma fuse_vector_fold_distinct (l : list SearchResult) (i : Z)
    (rrf : list (string * Q)) (sc : gmap string Q) (mm : gmap string Meta) :
  NoDup (map sr_id l) ->
  (forall x, x ∈ l -> sr_id x ∉ ODict.keys rrf) ->
  let acc := fold_left (Query.fuse_vector_step self) (enumerate_from i l) (rrf, sc, mm) in
  acc.1.1 =
    (rrf ++ map (fun p : Z * SearchResult =>
                   (sr_id p.2,
                    (0 + vector_weight (hybrid (Query.config self))
                         / inject_Z (Query.rrf_k + p.1))%Q))
              (enumerate_from i l))%list /\
  (forall x, x ∈ l ->
     acc.1.2 !! sr_id x = Some (sr_score x) /\ acc.2 !! sr_id x = Some (sr_metadata x)).
Proof.
  revert i rrf sc mm. induction l as [|x l IH]; intros i rrf sc mm Hnd Hfresh; simpl.
  - rewrite app_nil_r. split; [done|]. intros x Hx. by apply elem_of_nil in Hx.
  - apply NoDup_cons in Hnd as [Hx Hnd].
    assert (Hxf : sr_id x ∉ ODict.keys rrf) by (apply Hfresh; left).
    pose proof Hxf as Hget. apply ODict_get_None in Hget. rewrite Hget. simpl.
    rewrite (ODict_set_fresh rrf _ _ Hxf).
    match goal with |- context [fold_left _ _ (?r, ?s, ?m)] =>
      destruct (IH (i + 1) r s m Hnd) as [Hk Hl];
      [|pose proof (fuse_vector_fold (enumerate_from (i + 1) l) r s m) as [_ Hkeep]]
    end.
    { intros y Hy. unfold ODict.keys. rewrite map_app. simpl.
      rewrite not_elem_of_app. split; [apply Hfresh; by right|].
      rewrite list_elem_of_singleton. intros E. apply Hx.
      rewrite <- E. apply list_elem_of_fmap. eauto. }
    split.
    + etrans; [exact Hk|]. by rewrite <- app_assoc.
    + intros y Hy. apply elem_of_cons in Hy as [->|Hy]; [|by apply Hl].
      rewrite (map_snd_enumerate_from sr_id) in Hkeep.
      destruct (Hkeep (sr_id x) Hx) as [H1 H2].
      split; [etrans; [exact H1|]|etrans; [exact H2|]]; by rewrite lookup_insert_eq.
Qed.

(** X3. With no lexical hit to fuse, a non-negative vector weight and
    dense results of distinct ids, the fusion returns the dense results
    as they are, in their order, cut to [top_k]. *)
Theorem fuse_without_lexical_hits vector_results top_k :
  (0 <= vector_weight (hybrid (Query.config self)))%Q ->
  NoDup (map sr_id vector_results) ->
  Query._fuse_results self vector_results [] top_k = slice_to top_k vector_results.
Proof.
  intros Hw Hnd. unfold Query._fuse_results.
  pose proof (fuse_vector_fold_distinct vector_results 0 [] ∅ ∅ Hnd) as Hfold.
  cbn zeta in Hfold.
  destruct (fold_left (Query.fuse_vector_step self) (enumerate vector_results) ([], ∅, ∅))
    as [[rrf1 vs] mm1] eqn:E1.
  unfold enumerate in E1.
  assert (Hf : rrf1 =
            map (fun p : Z * SearchResult =>
                   (sr_id p.2,
                    (0 + vector_weight (hybrid (Query.config self))
                         / inject_Z (Query.rrf_k + p.1))%Q))
              (enumerate_from 0 vector_results) /\
          forall x, x ∈ vector_results ->
            vs !! sr_id x = Some (sr_score x) /\ mm1 !! sr_id x = Some (sr_metadata x)).
  { destruct Hfold as [Hk Hl].
    - intros x _ Hx. by apply elem_of_nil in Hx.
    - split.
      + etrans; [|exact Hk]. exact (eq_sym (f_equal (fun a => a.1.1) E1)).
      + intros x Hx. destruct (Hl x Hx) as [H1 H2]. split.
        * etrans; [|exact H1]. exact (f_equal (fun a => a.1.2 !! sr_id x) (eq_sym E1)).
        * etrans; [|exact H2]. exact (f_equal (fun a => a.2 !! sr_id x) (eq_sym E1)). }
  clear Hfold E1. destruct Hf as [Hrrf Hl]. simpl.
  assert (Hkeys : ODict.keys rrf1 = map sr_id vector_results).
  { rewrite Hrrf. unfold ODict.keys. rewrite map_map. simpl.
    apply (map_snd_enumerate_from sr_id). }
  assert (Hsorted : StronglySorted (fun p q : string * Q => (q.2 <= p.2)%Q) rrf1).
  { rewrite Hrrf. clear Hrrf Hkeys Hl Hnd.
    assert (Hgen : forall i, 0 <= i ->
      StronglySorted (fun p q : string * Q => (q.2 <= p.2)%Q)
        (map (fun p : Z * SearchResult =>
                (sr_id p.2,
                 (0 + vector_weight (hybrid (Query.config self))
                      / inject_Z (Query.rrf_k + p.1))%Q))
           (enumerate_from i vector_results))); [|by apply Hgen].
    induction vector_results as [|x l IH]; intros i Hi; simpl; [constructor|].
    constructor; [apply IH; lia|].
    apply list.Forall_forall. intros q Hq.
    apply list_elem_of_fmap in Hq as ([r y] & -> & Hr). simpl.
    apply elem_of_enumerate_from_ge in Hr. simpl in Hr.
    apply Qplus_le_r. unfold Qdiv. rewrite !(Qmult_comm (vector_weight _)).
    apply Qmult_le_compat_r; [|done].
    apply Qinv_le_contravar.
    - unfold Query.rrf_k. change 0%Q with (inject_Z 0). rewrite <- Zlt_Qlt. lia.
    - rewrite <- Zle_Qle. lia. }
  rewrite sort_desc_sorted_id.
  2:{ apply keys_sorted_by_value; [|done]. by rewrite Hkeys. }
  rewrite Hkeys, slice_to_map, map_map.
  rewrite <- (map_id (slice_to top_k vector_results)) at 2.
  apply map_ext_in. intros x Hx. apply list_elem_of_In in Hx.
  apply elem_of_slice_to in Hx. destruct (Hl x Hx) as [-> ->]. by destruct x.
Qed.

End FuseFacts.

Lemma Qle_bool_opp (a b : Q) : Qle_bool (- a) (- b) = Qle_bool b a.
Proof.
  apply eq_true_iff_eq. rewrite !Qle_bool_iff. split; intros Hx; lra.
Qed.

Lemma sort_by_ext {A : Type} (f g : A -> A -> bool) (l : list A) :
  (forall x y, f x y = g x y) -> sort_by f l = sort_by g l.
Proof.
  intros Hfg. induction l as [|x l IH]; simpl; [done|]. rewrite IH.
  generalize (sort_by g l). intros m. induction m as [|y m IHm]; simpl; [done|].
  by rewrite Hfg, IHm.
Qed.

(** Sorting by the negated key in ascending order is sorting by the
    key in descending order. *)
Lemma sort_asc_opp {A : Type} (key : A -> Q) (l : list A) :
  sort_asc (fun x => (- key x)%Q) l = sort_desc key l.
Proof. apply sort_by_ext. intros x y. apply Qle_bool_opp. Qed.

Lemma py_eqb_PStr (v : pyval) (t : string) : py_eqb v (PStr t) = true -> v = PStr t.
Proof. destruct v; simpl; try done. intros E. apply String.eqb_eq in E. by subst. Qed.

Section QueryExtras.
Context `{Collaborators}.
Variable self : Query.QueryEngine.

(** The loop of [_deduplicate_chunks]: each result seen so far is
    matched, under its parent file, by an entry that scores at least as
    much. *)
Lemma dedup_loop_best (results : list SearchResult) (best0 : ODict.t SearchResult) :
  let best := fold_left Query.dedup_step results best0 in
  (forall k b, ODict.get best0 k = Some b ->
     exists b', ODict.get best k = Some b' /\ (sr_score b <= sr_score b')%Q) /\
  (forall r, r ∈ results ->
     exists b, ODict.get best (parent_file (sr_id r)) = Some b /\
               (sr_score r <= sr_score b)%Q).
Proof.
  revert best0. induction results as [|x l IH]; intros best0; simpl.
  - split; [|intros r Hr; by apply elem_of_nil in Hr].
    intros k b Hb. exists b. split; [done|]. apply Qle_refl.
  - destruct (IH (Query.dedup_step best0 x)) as [Hkeep Hall].
    assert (Hstep : (forall k b, ODict.get best0 k = Some b ->
               exists b', ODict.get (Query.dedup_step best0 x) k = Some b' /\
                          (sr_score b <= sr_score b')%Q) /\
            exists b, ODict.get (Query.dedup_step best0 x) (parent_file (sr_id x)) = Some b /\
                      (sr_score x <= sr_score b)%Q).
    { unfold Query.dedup_step, parent_file.
      destruct (parse_chunk_id (sr_id x)) as [parent chunk_idx]. cbn [fst].
      set (x' := match chunk_idx with
                 | Some i =>
                     {| sr_id := sr_id x; sr_score := sr_score x;
                        sr_metadata :=
                          <["_parent_file" := PStr parent]>
                            (<["_chunk_index" := PInt i]> (sr_metadata x)) |}
                 | None => x
                 end).
      assert (Hx' : sr_score x' = sr_score x) by (unfold x'; by destruct chunk_idx).
      destruct (ODict.get best0 parent) as [b0|] eqn:Eb.
      - destruct (Qle_bool (sr_score x) (sr_score b0)) eqn:Ele; simpl.
        + apply Qle_bool_iff in Ele. split; [|eauto].
          intros k b Hb. exists b. split; [done|]. apply Qle_refl.
        + assert (Hlt : (sr_score b0 < sr_score x)%Q).
          { destruct (Qlt_le_dec (sr_score b0) (sr_score x)) as [?|Hle]; [done|].
            apply Qle_bool_iff in Hle. congruence. }
          split.
          * intros k b Hb. rewrite ODict_get_set.
            destruct (String.eqb_spec k parent) as [->|Hne].
            -- exists x'. split; [done|]. rewrite Hx'.
               rewrite Eb in Hb. injection Hb as <-. by apply Qlt_le_weak.
            -- exists b. split; [done|]. apply Qle_refl.
          * exists x'. rewrite ODict_get_set, String.eqb_refl.
            split; [done|]. rewrite Hx'. apply Qle_refl.
      - simpl. split.
        + intros k b Hb. rewrite ODict_get_set.
          destruct (String.eqb_spec k parent) as [->|Hne]; [congruence|].
          exists b. split; [done|]. apply Qle_refl.
        + exists x'. rewrite ODict_get_set, String.eqb_refl.
          split; [done|]. rewrite Hx'. apply Qle_refl. }
    destruct Hstep as [Hs1 Hs2]. split.
    + intros k b Hb. destruct (Hs1 k b Hb) as (b1 & Hb1 & Hle1).
      destruct (Hkeep k b1 Hb1) as (b2 & Hb2 & Hle2).
      exists b2. split; [done|]. eapply Qle_trans; eauto.
    + intros r Hr. apply elem_of_cons in Hr as [->|Hr]; [|by apply Hall].
      destruct Hs2 as (b1 & Hb1 & Hle1).
      destruct (Hkeep _ b1 Hb1) as (b2 & Hb2 & Hle2).
      exists b2. split; [done|]. eapply Qle_trans; eauto.
Qed.

(** X4. With chunking enabled, [_deduplicate_chunks] keeps for every
    file a result that scores at least as much as each result of that
    file, and every result it returns has the id and the score of one
    it was given. *)
Theorem dedup_keeps_best_chunk (results : list SearchResult) :
  chunking_enabled (chunking (Query.config self)) = true ->
  (forall r, r ∈ results ->
     exists o, o ∈ Query._deduplicate_chunks self results /\
       parent_file (sr_id o) = parent_file (sr_id r) /\
       (sr_score r <= sr_score o)%Q) /\
  (forall o, o ∈ Query._deduplicate_chunks self results ->
     exists r, r ∈ results /\ sr_id r = sr_id o /\ sr_score r = sr_score o).
Proof.
  intros Hc. split.
  - intros r Hr. unfold Query._deduplicate_chunks. rewrite Hc. simpl.
    destruct (dedup_loop_best results []) as [_ Hall].
    destruct (Hall r Hr) as (b & Hb & Hle).
    apply ODict_get_elem_of in Hb.
    exists b. split; [|split; [|done]].
    + unfold ODict.values. apply list_elem_of_fmap. by exists (parent_file (sr_id r), b).
    + by destruct (dedup_loop_inv results) as [_ Hinv]; destruct (Hinv _ Hb) as [? _].
  - intros o Ho. by apply (dedup_same_hit self) in Ho.
Qed.

(** X5. A query returns at most [top_k] direct entries when [top_k] is
    not negative, as many as it has results to format. *)
Theorem query_returns_at_most_top_k
    query_text top_k expand expand_depth type_filter min_score qr :
  0 <= top_k ->
  Query.query self query_text top_k expand expand_depth type_filter min_score = Ok qr ->
  Z.of_nat (length (Query.direct qr)) <= top_k.
Proof.
  intros Hk Hq. apply query_Ok_inv in Hq as [Hd _].
  apply Forall2_length in Hd. rewrite <- Hd. unfold Query.direct_results.
  match goal with |- context [slice_to ?k ?l] =>
    pose proof (slice_to_length k l Hk) end. lia.
Qed.

(** X6. Without a direct entry, or with [expand] off, there is no
    related entry. *)
Theorem no_related_without_direct
    query_text top_k expand expand_depth type_filter min_score qr :
  Query.query self query_text top_k expand expand_depth type_filter min_score = Ok qr ->
  Query.direct qr = [] \/ expand = false -> Query.related qr = [].
Proof.
  intros Hq Hor. apply query_Ok_inv in Hq as [Hd ->]. unfold Query.expand_phase.
  destruct Hor as [Hnil| ->].
  - rewrite Hnil in Hd. apply Forall2_nil_inv_r in Hd. by rewrite Hd.
  - by destruct (Query.direct_results _ _ _ _ _).
Qed.

(** The loop over [expanded.items()]: every entry collected comes from
    an item of the expansion that is not a seed. *)
Lemma related_loop_from direct_ids direct_parent_files type_filter expanded :
  let acc :=
    fold_left (Query.related_step direct_ids direct_parent_files type_filter)
      expanded (∅, []) in
  forall r, r ∈ acc.2 ->
    exists node info, (node, info) ∈ expanded /\ (node ∉ direct_ids) /\
      Query.r_path r = parent_file node /\
      Query.r_chunk r = (parse_chunk_id node).2 /\
      Query.r_type r = ei_type info /\
      Query.r_via r = parent_file (ei_via info) /\
      Query.r_edge_weight r = round4 (ei_edge_weight info) /\
      Query.r_depth r = ei_depth info /\
      (str_truthy type_filter = true ->
       Query.type_matches type_filter (ei_type info) = true).
Proof.
  apply (fold_left_inv
    (fun acc : gset string * list Query.RelatedEntry =>
       forall r, r ∈ acc.2 ->
         exists node info, (node, info) ∈ expanded /\ (node ∉ direct_ids) /\
           Query.r_path r = parent_file node /\
           Query.r_chunk r = (parse_chunk_id node).2 /\
           Query.r_type r = ei_type info /\
           Query.r_via r = parent_file (ei_via info) /\
           Query.r_edge_weight r = round4 (ei_edge_weight info) /\
           Query.r_depth r = ei_depth info /\
           (str_truthy type_filter = true ->
            Query.type_matches type_filter (ei_type info) = true))).
  - intros r Hr. by apply elem_of_nil in Hr.
  - intros [seen related] [node_id info] Hin IH. simpl in *.
    unfold Query.related_step.
    destruct (bool_decide (node_id ∈ direct_ids)) eqn:Ed; [done|].
    apply bool_decide_eq_false in Ed. unfold parent_file.
    destruct (parse_chunk_id node_id) as [parent chunk_idx] eqn:Ep.
    destruct (_ || _); [done|].
    destruct (str_truthy type_filter) eqn:Et; simpl.
    + destruct (Query.type_matches type_filter (ei_type info)) eqn:Em; simpl; [|done].
      destruct (parse_chunk_id (ei_via info)) as [via_parent ?] eqn:Ev. simpl.
      intros r Hr. apply elem_of_app in Hr as [Hr|Hr]; [by apply IH|].
      apply list_elem_of_singleton in Hr as ->. simpl.
      exists node_id, info. rewrite Ep, Ev. by repeat split.
    + destruct (parse_chunk_id (ei_via info)) as [via_parent ?] eqn:Ev. simpl.
      intros r Hr. apply elem_of_app in Hr as [Hr|Hr]; [by apply IH|].
      apply list_elem_of_singleton in Hr as ->. simpl.
      exists node_id, info. rewrite Ep, Ev. by repeat split.
Qed.

Lemma expand_phase_from search_results expand expand_depth type_filter r :
  r ∈ Query.expand_phase self search_results expand expand_depth type_filter ->
  exists node info,
    (node, info) ∈ graph_expand (Query.graph self) (map sr_id search_results)
                     (expand_threshold (graph_cfg (Query.config self)))
                     (Query.resolve_depth self expand_depth) /\
    (node ∉ map sr_id search_results) /\
    Query.r_path r = parent_file node /\
    Query.r_chunk r = (parse_chunk_id node).2 /\
    Query.r_type r = ei_type info /\
    Query.r_via r = parent_file (ei_via info) /\
    Query.r_edge_weight r = round4 (ei_edge_weight info) /\
    Query.r_depth r = ei_depth info /\
    (str_truthy type_filter = true ->
     Query.type_matches type_filter (ei_type info) = true).
Proof.
  unfold Query.expand_phase.
  destruct search_results as [|r0 rs] eqn:E; [intros Hr; by apply elem_of_nil in Hr|].
  destruct expand; [|intros Hr; by apply elem_of_nil in Hr].
  rewrite <- E. clear E r0 rs.
  set (direct_ids := list_to_set (map sr_id search_results) : gset string).
  set (dpf := list_to_set
                (map (fun sid => (parse_chunk_id sid).1) (map sr_id search_results))
              : gset string).
  pose proof (related_loop_from direct_ids dpf type_filter
                (graph_expand (Query.graph self) (map sr_id search_results)
                   (expand_threshold (graph_cfg (Query.config self)))
                   (Query.resolve_depth self expand_depth))) as Hinv.
  simpl in Hinv.
  destruct (fold_left _ _ _) as [seen related]. simpl in Hinv.
  intros Hr. rewrite sort_asc_perm in Hr.
  destruct (Hinv r Hr) as (node & info & Hin & Hnot & Hrest).
  exists node, info. split; [done|]. split; [|done].
  intros Hn. apply Hnot. unfold direct_ids. by apply elem_of_list_to_set.
Qed.

(** X7. The related entries are in non-increasing order of edge
    weight. *)
Theorem related_sorted_by_edge_weight
    query_text top_k expand expand_depth type_filter min_score qr :
  Query.query self query_text top_k expand expand_depth type_filter min_score = Ok qr ->
  StronglySorted (desc Query.r_edge_weight) (Query.related qr).
Proof.
  intros Hq. apply query_Ok_inv in Hq as [_ ->]. unfold Query.expand_phase.
  destruct (Query.direct_results _ _ _ _ _) as [|r0 rs]; [constructor|].
  destruct expand; [|constructor].
  destruct (fold_left _ _ _) as [seen related].
  rewrite sort_asc_opp. apply sort_desc_sorted.
Qed.

(** X8. Every related entry describes a node that the graph expansion
    reached from the ids of the direct results, with the configured
    edge threshold and the resolved depth: the node is none of those ids,
    the entry's path and chunk are the node's parent file and chunk index,
    its type and depth are the expansion's, its weight is the edge weight
    rounded to four places and [via] is the parent file of the node it
    was reached from. *)
Theorem related_entries_come_from_expansion
    query_text top_k expand expand_depth type_filter min_score qr :
  Query.query self query_text top_k expand expand_depth type_filter min_score = Ok qr ->
  let seed_ids :=
    map sr_id (Query.direct_results self query_text top_k type_filter min_score) in
  forall r, r ∈ Query.related qr ->
    exists node info,
      (node, info) ∈ graph_expand (Query.graph self) seed_ids
                       (expand_threshold (graph_cfg (Query.config self)))
                       (Query.resolve_depth self expand_depth) /\
      (node ∉ seed_ids) /\
      Query.r_path r = parent_file node /\
      Query.r_chunk r = (parse_chunk_id node).2 /\
      Query.r_type r = ei_type info /\
      Query.r_via r = parent_file (ei_via info) /\
      Query.r_edge_weight r = round4 (ei_edge_weight info) /\
      Query.r_depth r = ei_depth info.
Proof.
  intros Hq seed_ids r Hr. apply query_Ok_inv in Hq as [_ Hrel]. rewrite Hrel in Hr.
  apply expand_phase_from in Hr as (node & info & H1 & H2 & H3 & H4 & H5 & H6 & H7 & H8 & _).
  exists node, info. by repeat split.
Qed.

(** X9. A type filter that is a non-empty string applies to both lists:
    every direct and every related entry has that type. The empty string
    is no filter: the query is the one without a filter. *)
Theorem type_filter_applies_to_both_lists
    query_text top_k expand expand_depth min_score :
  Query.query self query_text top_k expand expand_depth (Some "") min_score
  = Query.query self query_text top_k expand expand_depth None min_score /\
  forall t qr, t <> "" ->
    Query.query self query_text top_k expand expand_depth (Some t) min_score = Ok qr ->
    Forall (fun d => Query.d_type d = PStr t) (Query.direct qr) /\
    Forall (fun r => Query.r_type r = PStr t) (Query.related qr).
Proof.
  split; [reflexivity|].
  intros t qr Ht Hq. pose proof Hq as Hq'. apply query_Ok_inv in Hq as [Hd Hrel].
  assert (Htr : str_truthy (Some t) = true).
  { simpl. destruct (String.eqb_spec t ""); done. }
  split.
  - apply list.Forall_forall. intros d Hin.
    apply list_elem_of_lookup in Hin as [i Hi].
    destruct (Forall2_lookup_r _ _ _ _ _ Hd Hi) as (r & Hr & Hrd).
    apply list_elem_of_lookup_2 in Hr.
    unfold Query.direct_results in Hr. rewrite Htr in Hr.
    apply elem_of_slice_to, elem_of_sort_desc, elem_of_List_filter in Hr as [_ Hty].
    unfold Query.type_matches in Hty. simpl in Hty.
    apply py_eqb_PStr in Hty.
    unfold Query.format_direct in Hrd.
    destruct (parse_chunk_id (sr_id r)) as [parent chunk_idx].
    unfold dict_get in Hty. unfold dict_get_default in Hrd.
    destruct (sr_metadata r !! "type") as [v|] eqn:Ev; simpl in Hty; [|done].
    subst v.
    destruct (truthy _); [destruct (sr_metadata r !! "end_line")|]; simpl in Hrd;
      try done; by injection Hrd as <-.
  - apply list.Forall_forall. intros r Hr. rewrite Hrel in Hr.
    apply expand_phase_from in Hr
      as (node & info & _ & _ & _ & _ & Hty & _ & _ & _ & Hm).
    rewrite Hty. specialize (Hm Htr). unfold Query.type_matches in Hm. simpl in Hm.
    by apply py_eqb_PStr.
Qed.

(** The metadata of two results agree on every key but the two that
    [_deduplicate_chunks] writes. *)
Lemma fuse_metadata vector_results bm25_results top_k r :
  (forall p, p ∈ bm25_results -> p.1 ∈ map sr_id vector_results) ->
  r ∈ Query._fuse_results self vector_results bm25_results top_k ->
  exists v, v ∈ vector_results /\ sr_id v = sr_id r /\ sr_metadata v = sr_metadata r.
Proof.
  intros Hlex. unfold Query._fuse_results.
  set (step1 := Query.fuse_vector_step self).
  set (step2 := Query.fuse_bm25_step self).
  destruct (fold_left step1 (enumerate vector_results) ([], ∅, ∅))
    as [[rrf1 vs] mm1] eqn:E1.
  destruct (fold_left step2 (enumerate bm25_results) (rrf1, mm1)) as [rrf2 mm2] eqn:E2.
  intros Hr.
  (* the metadata recorded are those of dense results *)
  assert (Hmm : forall id m, mm1 !! id = Some m ->
            exists v, v ∈ vector_results /\ sr_id v = id /\ sr_metadata v = m).
  { pose proof (fold_left_inv
      (fun acc : ODict.t Q * gmap string Q * gmap string Meta =>
         forall id m, acc.2 !! id = Some m ->
           exists v, v ∈ vector_results /\ sr_id v = id /\ sr_metadata v = m)
      step1 (enumerate vector_results) ([], ∅, ∅)) as Hinv.
    rewrite E1 in Hinv. apply Hinv; clear Hinv.
    - intros id m. simpl. by rewrite lookup_empty.
    - intros [[rrf vs'] mm] [rank x] Hx IH id m. simpl in *.
      apply elem_of_enumerate_from in Hx. simpl in Hx.
      destruct (decide (sr_id x = id)) as [<-|Hne].
      + rewrite lookup_insert_eq. intros [= <-]. eauto.
      + rewrite lookup_insert_ne by done. apply IH. }
  (* every dense id has recorded metadata *)
  assert (Hall : forall v, v ∈ vector_results -> is_Some (mm1 !! sr_id v)).
  { intros v Hv. destruct (elem_of_enumerate_from_2 0 _ _ Hv) as [rank Hrank].
    pose proof (fold_left_reach
      (fun (p : Z * SearchResult) (acc : ODict.t Q * gmap string Q * gmap string Meta) =>
         is_Some (acc.2 !! sr_id p.2)) step1) as Hreach.
    specialize (Hreach
      ltac:(intros [[rrf vs'] mm] [rk x]; simpl; rewrite lookup_insert_eq; eauto)
      ltac:(intros [[rrf vs'] mm] [rk x] [rk' y]; simpl; intros Hs;
            destruct (decide (sr_id y = sr_id x)) as [->|Hne];
            [rewrite lookup_insert_eq; eauto | by rewrite lookup_insert_ne])
      (enumerate vector_results) ([], ∅, ∅) (rank, v) Hrank).
    by rewrite E1 in Hreach. }
  (* the second loop leaves recorded metadata alone *)
  assert (Hkeep : forall id m, mm1 !! id = Some m -> mm2 !! id = Some m).
  { pose proof (fold_left_inv
      (fun acc : ODict.t Q * gmap string Meta =>
         forall id m, mm1 !! id = Some m -> acc.2 !! id = Some m)
      step2 (enumerate bm25_results) (rrf1, mm1)) as Hinv.
    rewrite E2 in Hinv. apply Hinv; clear Hinv; [done|].
    intros [rrf mm] [rank [doc_id sc]] _ IH id m Hm. simpl in *.
    destruct (mm !! doc_id) as [m0|] eqn:Ed; [by apply IH|].
    assert (Hne : doc_id <> id).
    { intros ->. rewrite (IH id m Hm) in Ed. done. }
    destruct (Query.store self !! doc_id) as [[? meta]|];
      rewrite lookup_insert_ne by done; by apply IH. }
  (* the fused ids are dense ids *)
  assert (Hk1 : forall id, id ∈ ODict.keys rrf1 -> id ∈ map sr_id vector_results).
  { pose proof (fold_left_inv
      (fun acc : ODict.t Q * gmap string Q * gmap string Meta =>
         forall id, id ∈ ODict.keys acc.1.1 -> id ∈ map sr_id vector_results)
      step1 (enumerate vector_results) ([], ∅, ∅)) as Hinv.
    rewrite E1 in Hinv. apply Hinv; clear Hinv.
    - intros id Hid. by apply elem_of_nil in Hid.
    - intros [[rrf vs'] mm] [rank x] Hx IH id. simpl in *.
      apply elem_of_enumerate_from in Hx. simpl in Hx.
      rewrite ODictFacts.elem_of_keys_set. intros [->|Hid]; [|by apply IH].
      apply list_elem_of_fmap. eauto. }
  assert (Hk2 : forall id, id ∈ ODict.keys rrf2 -> id ∈ map sr_id vector_results).
  { pose proof (fold_left_inv
      (fun acc : ODict.t Q * gmap string Meta =>
         forall id, id ∈ ODict.keys acc.1 -> id ∈ map sr_id vector_results)
      step2 (enumerate bm25_results) (rrf1, mm1)) as Hinv.
    rewrite E2 in Hinv. apply Hinv; clear Hinv; [exact Hk1|].
    intros [rrf mm] [rank [doc_id sc]] Hx IH id. simpl in *.
    apply elem_of_enumerate_from in Hx. simpl in Hx.
    rewrite ODictFacts.elem_of_keys_set. intros [->|Hid]; [|by apply IH].
    apply (Hlex _ Hx). }
  apply list_elem_of_fmap in Hr as (id & -> & Hid). simpl.
  apply elem_of_slice_to, elem_of_sort_desc, Hk2 in Hid.
  apply list_elem_of_fmap in Hid as (v0 & Hv0 & Hin0).
  destruct (Hall v0 Hin0) as [m Hm].
  destruct (Hmm _ _ Hm) as (v & Hv & Hidv & Hmv).
  exists v. split; [done|]. split; [congruence|].
  rewrite Hv0, (Hkeep _ _ Hm). simpl. done.
Qed.

Lemma dedup_metadata (results : list SearchResult) (r : SearchResult) :
  r ∈ Query._deduplicate_chunks self results ->
  exists v, v ∈ results /\ sr_id v = sr_id r /\
    forall k, k <> "_chunk_index" -> k <> "_parent_file" ->
      sr_metadata r !! k = sr_metadata v !! k.
Proof.
  unfold Query._deduplicate_chunks. destruct (negb _).
  { intros Hr. exists r. by repeat split. }
  intros Hr. unfold ODict.values in Hr.
  apply list_elem_of_fmap in Hr as (p & -> & Hp). revert p Hp.
  apply (fold_left_inv
    (fun best : ODict.t SearchResult =>
       forall p, p ∈ best ->
         exists v, v ∈ results /\ sr_id v = sr_id p.2 /\
           forall k, k <> "_chunk_index" -> k <> "_parent_file" ->
             sr_metadata p.2 !! k = sr_metadata v !! k)).
  - intros p Hp. by apply elem_of_nil in Hp.
  - intros best x Hx Hbest. unfold Query.dedup_step.
    destruct (parse_chunk_id (sr_id x)) as [parent chunk_idx] eqn:Ep.
    match goal with |- context [if ?b then _ else _] => destruct b end; [|done].
    intros p Hp. apply ODictFacts.elem_of_set in Hp as [->|Hp]; [|by apply Hbest].
    exists x. split; [done|]. destruct chunk_idx; simpl; [|done].
    split; [done|]. intros k Hk1 Hk2. by rewrite !lookup_insert_ne.
Qed.

Lemma search_phase_metadata query_text top_k min_score r :
  r ∈ Query.search_phase self query_text top_k min_score ->
  exists v, v ∈ Query.dense_results self query_text top_k min_score /\
            sr_id v = sr_id r /\ sr_metadata v = sr_metadata r.
Proof.
  unfold Query.search_phase.
  destruct (_ && _).
  - destruct (Query.dense_results self query_text top_k min_score) as [|v0 vs] eqn:E.
    + intros Hr. by apply elem_of_nil in Hr.
    + rewrite <- E. apply fuse_metadata. intros [id s] Hp.
      unfold Query.lexical_results in Hp.
      apply elem_of_List_filter in Hp as [_ Hp]. simpl in Hp.
      apply bool_decide_eq_true in Hp. by apply elem_of_list_to_set in Hp.
  - intros Hr. exists r. by repeat split.
Qed.

Lemma direct_results_metadata query_text top_k type_filter min_score r :
  r ∈ Query.direct_results self query_text top_k type_filter min_score ->
  exists v,
    v ∈ store_search (Query.store self)
          (embed_text (embedding_model (Query.config self)) query_text) (top_k * 2) /\
    sr_id v = sr_id r /\
    forall k, k <> "_chunk_index" -> k <> "_parent_file" ->
      sr_metadata r !! k = sr_metadata v !! k.
Proof.
  intros Hr.
  eapply elem_of_submseteq in Hr; [|apply direct_results_submseteq].
  apply dedup_metadata in Hr as (v1 & Hv1 & Hid1 & Hm1).
  apply search_phase_metadata in Hv1 as (v & Hv & Hid & Hm).
  unfold Query.dense_results in Hv. apply elem_of_List_filter in Hv as [Hv _].
  exists v. split; [done|]. split; [congruence|].
  intros k Hk1 Hk2. rewrite Hm1 by done. by rewrite Hm.
Qed.

Lemma map_result_Raise {A B : Type} (f : A -> result B) (l : list A) (e : exn) :
  Query.map_result f l = Raise e -> exists x, x ∈ l /\ f x = Raise e.
Proof.
  induction l as [|x l IH]; simpl; [done|].
  destruct (f x) as [y|e'] eqn:Ey; simpl.
  - destruct (Query.map_result f l) as [ys|e']; simpl; [done|].
    intros [= ->]. destruct IH as (x' & Hx' & Hf); [done|]. exists x'. split; [by right|done].
  - intros [= ->]. exists x. split; [left|done].
Qed.

(** X10. When the calls on the embedder, the store, the graph and the
    BM25 index return, [query] raises nothing but the [KeyError] for
    [end_line], and only when the store's search returned a result whose
    metadata has a truthy [start_line] and no [end_line]; when every
    such result has both, the query returns. *)
Theorem query_raises_only_on_missing_end_line
    query_text top_k expand expand_depth type_filter min_score :
  let hits :=
    store_search (Query.store self)
      (embed_text (embedding_model (Query.config self)) query_text) (top_k * 2) in
  (forall e,
     Query.query self query_text top_k expand expand_depth type_filter min_score = Raise e ->
     e = KeyError "end_line" /\
     exists v, v ∈ hits /\
       truthy (dict_get (sr_metadata v) "start_line") = true /\
       sr_metadata v !! "end_line" = None) /\
  ((forall v, v ∈ hits ->
      truthy (dict_get (sr_metadata v) "start_line") = true ->
      is_Some (sr_metadata v !! "end_line")) ->
   exists qr,
     Query.query self query_text top_k expand expand_depth type_filter min_score = Ok qr).
Proof.
  intros hits.
  assert (Hraise : forall e,
     Query.query self query_text top_k expand expand_depth type_filter min_score = Raise e ->
     e = KeyError "end_line" /\
     exists v, v ∈ hits /\
       truthy (dict_get (sr_metadata v) "start_line") = true /\
       sr_metadata v !! "end_line" = None).
  { intros e. unfold Query.query.
    destruct (Query.map_result _ _) as [ds|e'] eqn:E; [done|].
    simpl. intros [= ->].
    apply map_result_Raise in E as (r & Hr & Hf).
    apply direct_results_metadata in Hr as (v & Hv & _ & Hm).
    unfold Query.format_direct in Hf.
    destruct (parse_chunk_id (sr_id r)) as [parent chunk_idx].
    destruct (truthy (dict_get (sr_metadata r) "start_line")) eqn:Et; [|done].
    destruct (sr_metadata r !! "end_line") eqn:Ee; [done|].
    simpl in Hf. injection Hf as <-. split; [done|].
    exists v. split; [done|]. unfold dict_get in *.
    rewrite <- !Hm by done. by split. }
  split; [exact Hraise|].
  intros Hok.
  destruct (Query.query self query_text top_k expand expand_depth type_filter min_score)
    as [qr|e] eqn:E; [eauto|].
  destruct (Hraise e eq_refl) as (_ & v & Hv & Ht & Hn).
  destruct (Hok v Hv Ht) as [x Hx]. congruence.
Qed.

End QueryExtras.

Section QueryExtraRuns.
#[local] Existing Instance Demo.collaborators.
Import Scenario.

Lemma rescale_score_range_and_monotone_witness :
  (1 # 2 < 1)%Q /\ (Query._rescale_score 1 (1 # 2) == 1)%Q.
Proof.
  assert (Hb : (1 # 2 < 1)%Q) by reflexivity.
  split; [exact Hb|].
  exact (proj1 (proj2 (proj2 (rescale_score_range_and_monotone (1 # 2) Hb)))).
Defined.

Lemma fuse_without_lexical_hits_witness :
  (0 <= vector_weight (hybrid (Query.config (engine true true))))%Q /\
  NoDup (map sr_id (Query.dense_results (engine true true) "hello" 10 (1 # 2))) /\
  Query._fuse_results (engine true true)
    (Query.dense_results (engine true true) "hello" 10 (1 # 2)) [] 20
  = slice_to 20 (Query.dense_results (engine true true) "hello" 10 (1 # 2)).
Proof.
  assert (Hw : (0 <= vector_weight (hybrid (Query.config (engine true true))))%Q)
    by (vm_compute; discriminate).
  assert (Hnd : NoDup (map sr_id (Query.dense_results (engine true true) "hello" 10 (1 # 2)))).
  { apply (bool_decide_unpack _). vm_compute. reflexivity. }
  split; [exact Hw|]. split; [exact Hnd|].
  exact (fuse_without_lexical_hits (engine true true)
           (Query.dense_results (engine true true) "hello" 10 (1 # 2)) 20 Hw Hnd).
Defined.

Lemma dedup_keeps_best_chunk_witness :
  chunking_enabled (chunking (Query.config (engine true false))) = true /\
  forall r, r ∈ Query.dense_results (engine true false) "hello" 10 (1 # 2) ->
    exists o,
      o ∈ Query._deduplicate_chunks (engine true false)
            (Query.dense_results (engine true false) "hello" 10 (1 # 2)) /\
      parent_file (sr_id o) = parent_file (sr_id r) /\
      (sr_score r <= sr_score o)%Q.
Proof.
  assert (Hc : chunking_enabled (chunking (Query.config (engine true false))) = true)
    by reflexivity.
  split; [exact Hc|].
  exact (proj1 (dedup_keeps_best_chunk (engine true false)
                  (Query.dense_results (engine true false) "hello" 10 (1 # 2)) Hc)).
Defined.

Lemma query_returns_at_most_top_k_witness :
  exists qr,
    Query.query (engine false false) "hello" 1 true None None (1 # 2) = Ok qr /\
    Z.of_nat (length (Query.direct qr)) <= 1.
Proof.
  destruct (Query.query (engine false false) "hello" 1 true None None (1 # 2))
    as [qr|e] eqn:E; [|vm_compute in E; discriminate].
  exists qr. split; [reflexivity|].
  exact (query_returns_at_most_top_k (engine false false) "hello" 1 true None None (1 # 2)
           qr ltac:(lia) E).
Defined.

Lemma no_related_without_direct_witness :
  exists qr,
    Query.query (engine true false) "hello" 10 false None None (1 # 2) = Ok qr /\
    Query.related qr = [].
Proof.
  destruct (Query.query (engine true false) "hello" 10 false None None (1 # 2))
    as [qr|e] eqn:E; [|vm_compute in E; discriminate].
  exists qr. split; [reflexivity|].
  exact (no_related_without_direct (engine true false) "hello" 10 false None None (1 # 2)
           qr E (or_intror eq_refl)).
Defined.

Lemma related_sorted_by_edge_weight_witness :
  exists qr,
    Query.query (engine false false) "hello" 1 true None None (1 # 2) = Ok qr /\
    StronglySorted (desc Query.r_edge_weight) (Query.related qr).
Proof.
  destruct (Query.query (engine false false) "hello" 1 true None None (1 # 2))
    as [qr|e] eqn:E; [|vm_compute in E; discriminate].
  exists qr. split; [reflexivity|].
  exact (related_sorted_by_edge_weight (engine false false) "hello" 1 true None None
           (1 # 2) qr E).
Defined.

Lemma related_entries_come_from_expansion_witness :
  exists qr,
    Query.query (engine true false) "hello" 10 true None None (1 # 2) = Ok qr /\
    forall r, r ∈ Query.related qr ->
      exists node info,
        (node, info) ∈ graph_expand (Query.graph (engine true false))
                         (map sr_id (Query.direct_results (engine true false) "hello" 10
                                       None (1 # 2)))
                         (expand_threshold (graph_cfg (Query.config (engine true false))))
                         (Query.resolve_depth (engine true false) None) /\
        (node ∉ map sr_id (Query.direct_results (engine true false) "hello" 10
                             None (1 # 2))) /\
        Query.r_path r = parent_file node /\
        Query.r_chunk r = (parse_chunk_id node).2 /\
        Query.r_type r = ei_type info /\
        Query.r_via r = parent_file (ei_via info) /\
        Query.r_edge_weight r = round4 (ei_edge_weight info) /\
        Query.r_depth r = ei_depth info.
Proof.
  destruct (Query.query (engine true false) "hello" 10 true None None (1 # 2))
    as [qr|e] eqn:E; [|vm_compute in E; discriminate].
  exists qr. split; [reflexivity|].
  exact (related_entries_come_from_expansion (engine true false) "hello" 10 true None None
           (1 # 2) qr E).
Defined.

Lemma type_filter_applies_to_both_lists_witness :
  exists qr,
    Query.query (engine true false) "hello" 10 true None (Some "code") (1 # 2) = Ok qr /\
    Forall (fun d => Query.d_type d = PStr "code") (Query.direct qr) /\
    Forall (fun r => Query.r_type r = PStr "code") (Query.related qr).
Proof.
  destruct (Query.query (engine true false) "hello" 10 true None (Some "code") (1 # 2))
    as [qr|e] eqn:E; [|vm_compute in E; discriminate].
  exists qr. split; [reflexivity|].
  exact (proj2 (type_filter_applies_to_both_lists (engine true false) "hello" 10 true None
                  (1 # 2)) "code" qr ltac:(discriminate) E).
Defined.

Lemma query_raises_only_on_missing_end_line_witness :
  exists e,
    Query.query Cases.engine_without_end_line "hello" 10 true None None (1 # 2) = Raise e /\
    e = KeyError "end_line".
Proof.
  destruct (Query.query Cases.engine_without_end_line "hello" 10 true None None (1 # 2))
    as [qr|e] eqn:E; [vm_compute in E; discriminate|].
  exists e. split; [reflexivity|].
  exact (proj1 (proj1 (query_raises_only_on_missing_end_line Cases.engine_without_end_line
                         "hello" 10 true None None (1 # 2)) e E)).
Defined.

End QueryExtraRuns.

(* ================================================================== *)
(** * Further facts about the indexer *)
(* ================================================================== *)

Section ScanFacts.
Context `{Collaborators}.
Variable config : GundogConfig.
Variable fs : FileSystem.

(** X11. [_scan_source] returns nothing for a source directory that does
    not exist; otherwise it returns, in the order of the glob, exactly
    the matches that are files and that no exclude pattern of the source
    or of its exclusion template matches. *)
Theorem scan_source_spec (source : SourceConfig) :
  (fs_exists fs (src_path source) = false -> Indexer._scan_source fs source = []) /\
  Indexer._scan_source fs source
    `sublist_of` fs_glob fs (src_path source) (src_glob source) /\
  forall p,
    p ∈ Indexer._scan_source fs source <->
    fs_exists fs (src_path source) = true /\
    p ∈ fs_glob fs (src_path source) (src_glob source) /\
    fs_is_file fs p = true /\
    (forall pat, pat ∈ src_exclude source -> fnmatch p pat = false) /\
    (forall t, src_exclusion_template source = Some t -> t <> "" ->
       forall pat, pat ∈ get_exclusion_patterns t -> fnmatch p pat = false).
Proof.
  unfold Indexer._scan_source, Indexer._should_exclude.
  split; [by intros ->|]. split.
  { destruct (negb _); [apply sublist_nil_l|apply filter_sublist]. }
  intros p. destruct (fs_exists fs (src_path source)); simpl.
  2:{ split; [intros Hp; by apply elem_of_nil in Hp|]. by intros [? _]. }
  rewrite elem_of_List_filter, andb_true_iff, negb_true_iff.
  rewrite <- not_true_iff_false, existsb_exists.
  split.
  - intros (Hg & Hf & Hex). split; [done|]. split; [done|]. split; [done|]. split.
    + intros pat Hpat. apply not_true_iff_false. intros Hm. apply Hex.
      exists pat. split; [|done]. apply in_or_app. left. by apply list_elem_of_In.
    + intros t Ht Hne pat Hpat. apply not_true_iff_false. intros Hm. apply Hex.
      exists pat. split; [|done]. apply in_or_app. right.
      rewrite Ht. simpl. destruct (String.eqb_spec t ""); [done|].
      by apply list_elem_of_In.
  - intros (_ & Hg & Hf & Hex1 & Hex2). split; [done|]. split; [done|].
    intros (pat & Hpat & Hm). apply in_app_or in Hpat as [Hpat|Hpat].
    + apply list_elem_of_In in Hpat. rewrite (Hex1 pat Hpat) in Hm. done.
    + destruct (src_exclusion_template source) as [t|] eqn:Et; simpl in Hpat; [|done].
      destruct (String.eqb_spec t "") as [->|Hne]; simpl in Hpat; [done|].
      apply list_elem_of_In in Hpat. rewrite (Hex2 t eq_refl Hne pat Hpat) in Hm. done.
Qed.

(** The inner loop of lines 124-125 for one source. *)
Lemma scan_inner_get (ty : option string) (files : list string)
    (af : ODict.t (string * option string)) (p : string) :
  ODict.get
    (fold_left (fun all_files file_path => ODict.set all_files file_path (file_path, ty))
       files af) p
  = if bool_decide (p ∈ files) then Some (p, ty) else ODict.get af p.
Proof.
  revert af. induction files as [|f files IH]; intros af; simpl; [done|].
  rewrite IH. destruct (decide (p ∈ files)) as [Hin|Hnin].
  - rewrite bool_decide_eq_true_2 by done.
    by rewrite bool_decide_eq_true_2 by (by right).
  - rewrite (bool_decide_eq_false_2 (p ∈ files)) by done.
    rewrite ODict_get_set. destruct (String.eqb_spec p f) as [->|Hne].
    + by rewrite bool_decide_eq_true_2 by left.
    + rewrite bool_decide_eq_false_2; [done|].
      intros Hx. apply elem_of_cons in Hx as [?|?]; done.
Qed.

Lemma scan_outer_keys (srcs : list SourceConfig) (af : ODict.t (string * option string)) :
  let af' :=
    fold_left
      (fun all_files source =>
         fold_left
           (fun all_files file_path =>
              ODict.set all_files file_path (file_path, src_type source))
           (Indexer._scan_source fs source) all_files)
      srcs af in
  (forall p, p ∈ ODict.keys af' <->
     p ∈ ODict.keys af \/ exists source, source ∈ srcs /\ p ∈ Indexer._scan_source fs source) /\
  (forall p, (forall source, source ∈ srcs -> p ∉ Indexer._scan_source fs source) ->
     ODict.get af' p = ODict.get af p).
Proof.
  revert af. induction srcs as [|src srcs IH]; intros af; simpl.
  - split; [|done]. intros p. split; [by left|]. intros [?|(s & Hs & _)]; [done|].
    by apply elem_of_nil in Hs.
  - destruct (IH (fold_left
                    (fun all_files file_path =>
                       ODict.set all_files file_path (file_path, src_type src))
                    (Indexer._scan_source fs src) af)) as [Hk Hg].
    destruct (fold_set_keys (fun p : string => p)
                (fun _ p => (p, src_type src)) (Indexer._scan_source fs src) af)
      as (Hik & _ & _). cbn beta in Hik. rewrite map_id in Hik.
    split.
    + intros p. rewrite Hk, Hik. split.
      * intros [[?|?]|(s & Hs & Hp)]; [by left| |].
        -- right. exists src. split; [left|done].
        -- right. exists s. split; [by right|done].
      * intros [?|(s & Hs & Hp)]; [by left; left|].
        apply elem_of_cons in Hs as [->|Hs]; [left; by right|].
        right. eauto.
    + intros p Hp. rewrite Hg.
      * rewrite scan_inner_get. rewrite bool_decide_eq_false_2; [done|].
        apply Hp. left.
      * intros s Hs. apply Hp. by right.
Qed.

(** X12. The dictionary [all_files] of a pass has one entry per distinct
    path: its keys are the paths some source scans, without repetition,
    and a path found by several sources takes the type of the last of
    them. *)
Theorem scan_all_last_source_wins :
  NoDup (ODict.keys (Indexer.scan_all config fs)) /\
  (forall p, p ∈ ODict.keys (Indexer.scan_all config fs) <->
     exists source, source ∈ sources config /\ p ∈ Indexer._scan_source fs source) /\
  (forall before source after p,
     sources config = (before ++ source :: after)%list ->
     p ∈ Indexer._scan_source fs source ->
     (forall later, later ∈ after -> p ∉ Indexer._scan_source fs later) ->
     ODict.get (Indexer.scan_all config fs) p = Some (p, src_type source)).
Proof.
  split; [apply (scan_all_wf config fs)|]. split.
  - intros p. unfold Indexer.scan_all.
    destruct (scan_outer_keys (sources config) []) as [Hk _]. cbn zeta in Hk.
    rewrite Hk. split; [|by right]. intros [Hn|?]; [|done]. by apply elem_of_nil in Hn.
  - intros before source after p Hs Hp Hlater. unfold Indexer.scan_all.
    rewrite Hs, fold_left_app. simpl.
    destruct (scan_outer_keys after
                (fold_left
                   (fun all_files file_path =>
                      ODict.set all_files file_path (file_path, src_type source))
                   (Indexer._scan_source fs source)
                   (fold_left
                      (fun all_files source =>
                         fold_left
                           (fun all_files file_path =>
                              ODict.set all_files file_path (file_path, src_type source))
                           (Indexer._scan_source fs source) all_files)
                      before []))) as [_ Hg].
    cbn zeta in Hg. rewrite (Hg p Hlater).
    rewrite scan_inner_get. by rewrite bool_decide_eq_true_2.
Qed.

End ScanFacts.

Section RemoveFacts.
Context `{Collaborators}.

Lemma remove_loop (all_files : ODict.t (string * option string))
    (l : list string) (st : Store) (n : Z) :
  NoDup l -> (forall id, id ∈ l -> is_Some (st !! id)) ->
  let acc := fold_left (Indexer.remove_step all_files) l (st, n) in
  (forall id,
     acc.1 !! id =
       if bool_decide (id ∈ l) && negb (ODict.mem all_files (parent_file id))
       then None else st !! id) /\
  acc.2 - n = Z.of_nat (size st) - Z.of_nat (size acc.1).
Proof.
  revert st n. induction l as [|x l IH]; intros st n Hnd Hdom; simpl.
  - split; [done|lia].
  - apply NoDup_cons in Hnd as [Hx Hnd].
    unfold parent_file in *.
    destruct (parse_chunk_id x) as [parent idx] eqn:Ex.
    destruct (ODict.mem all_files parent) eqn:Em.
    + destruct (IH st n Hnd) as [Hl Hc]; [intros id Hid; apply Hdom; by right|].
      split; [|exact Hc]. intros id. rewrite Hl.
      destruct (decide (id = x)) as [->|Hne].
      * rewrite Ex. simpl. rewrite Em. simpl. by rewrite !andb_false_r.
      * assert (Hb : bool_decide (id ∈ x :: l) = bool_decide (id ∈ l)).
        { apply bool_decide_ext. rewrite elem_of_cons. tauto. }
        by rewrite Hb.
    + destruct (IH (delete x st) (n + 1) Hnd) as [Hl Hc].
      { intros id Hid. rewrite lookup_delete_ne; [apply Hdom; by right|].
        intros ->. done. }
      split.
      * intros id. rewrite Hl. destruct (decide (id = x)) as [->|Hne].
        -- rewrite Ex. simpl. rewrite Em. simpl.
           rewrite (bool_decide_eq_true_2 (x ∈ x :: l)) by left. simpl.
           rewrite lookup_delete_eq. by destruct (_ && _).
        -- assert (Hb : bool_decide (id ∈ x :: l) = bool_decide (id ∈ l)).
           { apply bool_decide_ext. rewrite elem_of_cons. tauto. }
           rewrite Hb. by rewrite lookup_delete_ne.
      * rewrite map_size_delete_Some in Hc by (apply Hdom; left).
        assert (size st <> 0)%nat.
        { intros Hz. apply map_size_empty_inv in Hz. subst st.
          destruct (Hdom x) as [e He]; [left|]. by rewrite lookup_empty in He. }
        lia.
Qed.

Lemma remove_missing_lookup (all_files : ODict.t (string * option string)) (st : Store)
    (id : string) :
  (Indexer.remove_missing all_files st).1 !! id =
    if ODict.mem all_files (parent_file id) then st !! id else None.
Proof.
  unfold Indexer.remove_missing.
  destruct (remove_loop all_files (Indexer.all_ids st) st 0) as [Hl _].
  { apply NoDup_fst_map_to_list. }
  { intros id' Hid. unfold Indexer.all_ids in Hid.
    apply list_elem_of_fmap in Hid as ([id'' e] & -> & He).
    apply elem_of_map_to_list in He. eauto. }
  rewrite Hl. destruct (ODict.mem all_files (parent_file id)); simpl.
  - by rewrite andb_false_r.
  - rewrite andb_true_r. destruct (st !! id) as [e|] eqn:E; [|by destruct (bool_decide _)].
    rewrite bool_decide_eq_true_2; [done|].
    unfold Indexer.all_ids. apply list_elem_of_fmap. exists (id, e).
    split; [done|]. by apply elem_of_map_to_list.
Qed.

(** X13. The removal loop deletes exactly the entries whose parent file
    is not among the current files and keeps every other entry as it is;
    the number it reports as [files_removed] is the number of entries it
    deleted, chunks counted one by one. *)
Theorem remove_missing_deletes_orphans
    (all_files : ODict.t (string * option string)) (st : Store) :
  (forall id,
     (Indexer.remove_missing all_files st).1 !! id =
       if ODict.mem all_files (parent_file id) then st !! id else None) /\
  (Indexer.remove_missing all_files st).2
  = Z.of_nat (size st) - Z.of_nat (size (Indexer.remove_missing all_files st).1).
Proof.
  split; [apply remove_missing_lookup|].
  unfold Indexer.remove_missing.
  destruct (remove_loop all_files (Indexer.all_ids st) st 0) as [_ Hc].
  { apply NoDup_fst_map_to_list. }
  { intros id Hid. unfold Indexer.all_ids in Hid.
    apply list_elem_of_fmap in Hid as ([id' e] & -> & He).
    apply elem_of_map_to_list in He. eauto. }
  lia.
Qed.

End RemoveFacts.

Section PassFacts.
Context `{Collaborators}.
Variable config : GundogConfig.
Variable fs : FileSystem.

(** The items a pass prepares and the vectors the embedder returns for
    them. *)
#[local] Abbreviation prepared rebuild_to_index s :=
  (fold_left (Indexer.prepare_file config fs) rebuild_to_index
     (store_at_selection config fs s, [])).

(** How [index] goes, after the selection: it raises when the embedder
    returns a wrong number of vectors for a non-empty batch, and
    otherwise returns with the store and the count of the storing
    loop. *)
Lemma index_after_selection rebuild s to_index skipped :
  Indexer.select_files config fs rebuild (store_at_selection config fs s)
    (Indexer.scan_all config fs) = Ok (to_index, skipped) ->
  let prep := prepared to_index s in
  let embs := embed_batch (embedding_model config) (map Indexer.it_text prep.2) in
  let stored := fold_left (Indexer.store_item fs) (combine prep.2 embs) (prep.1, 0) in
  if bool_decide (prep.2 = []) || Nat.eqb (length embs) (length prep.2)
  then exists summary s' calls,
         Indexer.index config fs rebuild s = Ok (summary, s', calls) /\
         Indexer.store s' = stored.1 /\
         Indexer.chunks_indexed summary = stored.2
  else exists msg, Indexer.index config fs rebuild s = Raise (ValueError msg).
Proof.
  unfold Indexer.index, store_at_selection.
  destruct (Indexer.remove_missing (Indexer.scan_all config fs) (Indexer.store s))
    as [st1 removed] eqn:Erm. cbn [fst snd].
  intros ->. cbn [mbind result_bind Py.bind]. cbn zeta.
  destruct to_index as [|t ts].
  - cbn [fold_left fst snd combine]. rewrite bool_decide_eq_true_2 by done.
    cbn [orb mbind result_bind Py.bind Indexer.files_indexed Indexer.files_removed].
    match goal with |- context [Indexer.needs_rebuild ?a ?b ?c] =>
      destruct (Indexer.needs_rebuild a b c) end;
      destruct (hybrid_enabled (hybrid config)); cbn; eauto 10.
  - destruct (fold_left (Indexer.prepare_file config fs) (t :: ts) (st1, []))
      as [stp items] eqn:Ep. cbn [fst snd].
    unfold Indexer.store_embeddings.
    destruct items as [|it items].
    + rewrite bool_decide_eq_true_2 by done.
      cbn [orb combine fold_left fst snd mbind result_bind Py.bind
           Indexer.files_indexed Indexer.files_removed].
      match goal with |- context [Indexer.needs_rebuild ?a ?b ?c] =>
        destruct (Indexer.needs_rebuild a b c) end;
        destruct (hybrid_enabled (hybrid config)); cbn; eauto 10.
    + rewrite bool_decide_eq_false_2 by done. cbn [orb].
      destruct (Nat.eqb _ _); [|cbn; eauto].
      destruct (fold_left (Indexer.store_item fs) _ _) as [st2 n] eqn:Efold.
      cbn [fst snd mbind result_bind Py.bind Indexer.files_indexed Indexer.files_removed].
      match goal with |- context [Indexer.needs_rebuild ?a ?b ?c] =>
        destruct (Indexer.needs_rebuild a b c) end;
        destruct (hybrid_enabled (hybrid config)); cbn; eauto 10.
Qed.

End PassFacts.


Section PassTheorems.
Context `{Collaborators}.
Variable config : GundogConfig.
Variable fs : FileSystem.

Lemma index_select_raise rebuild s e :
  Indexer.select_files config fs rebuild (store_at_selection config fs s)
    (Indexer.scan_all config fs) = Raise e ->
  Indexer.index config fs rebuild s = Raise e.
Proof.
  unfold Indexer.index, store_at_selection.
  destruct (Indexer.remove_missing (Indexer.scan_all config fs) (Indexer.store s))
    as [st1 removed]. cbn [fst snd]. by intros ->.
Qed.

(** X14. On a file system that does not change during the pass, and
    with collaborators whose calls return, [index] raises in two cases
    only: a current file that has a store entry and a changed mtime
    cannot be read while the pass decides whether to reindex it (never
    with [rebuild], which skips that check), and the error is the read
    error; or the embedder returns a number of vectors other than the
    number of texts it was given, and the error is a [ValueError]. A
    file that cannot be read in the indexing loops raises nothing. *)
Theorem index_raises_only_when rebuild s e :
  Indexer.index config fs rebuild s = Raise e ->
  (rebuild = false /\
   exists item, item ∈ Indexer.scan_all config fs /\
     no_entry config (store_at_selection config fs s) item.2.1 = false /\
     mtime_differs config fs (store_at_selection config fs s) item.2.1 = true /\
     fs_read_text fs item.2.1 = Raise e) \/
  (exists msg texts,
     e = ValueError msg /\ texts <> [] /\
     length (embed_batch (embedding_model config) texts) <> length texts).
Proof.
  intros Hidx.
  pose proof (select_files_spec config fs rebuild (store_at_selection config fs s)
                (Indexer.scan_all config fs)) as Hsel.
  destruct (Indexer.select_files config fs rebuild (store_at_selection config fs s)
              (Indexer.scan_all config fs)) as [[to_index skipped]|e'] eqn:Esel.
  - right. pose proof (index_after_selection config fs rebuild s to_index skipped Esel)
      as Hafter. cbn zeta in Hafter.
    destruct (bool_decide _) eqn:Eb; simpl in Hafter.
    { destruct Hafter as (? & ? & ? & Hok & _). congruence. }
    destruct (Nat.eqb _ _) eqn:En.
    { destruct Hafter as (? & ? & ? & Hok & _). congruence. }
    destruct Hafter as [msg Hmsg]. rewrite Hmsg in Hidx. injection Hidx as <-.
    apply bool_decide_eq_false in Eb. apply Nat.eqb_neq in En.
    eexists msg, _. split; [done|]. split; [|rewrite length_map; exact En].
    intros Hnil. apply Eb. by apply map_eq_nil in Hnil.
  - left. rewrite (index_select_raise rebuild s e' Esel) in Hidx. injection Hidx as <-.
    exact Hsel.
Qed.

(** X15. With [rebuild] a pass returns whenever the embedder returns one
    vector per text: it selects every scanned file, skips none, rebuilds
    the graph (and the BM25 index when hybrid search is enabled) and
    saves. *)
Theorem rebuild_pass_indexes_every_file s :
  (forall texts, length (embed_batch (embedding_model config) texts) = length texts) ->
  exists summary s' calls,
    Indexer.index config fs true s = Ok (summary, s', calls) /\
    Indexer.files_indexed summary = Indexer.files_total summary /\
    Indexer.files_skipped summary = 0 /\
    calls = rebuild_calls config.
Proof.
  intros Hemb.
  pose proof (select_files_spec config fs true (store_at_selection config fs s)
                (Indexer.scan_all config fs)) as Hsel.
  destruct (Indexer.select_files config fs true (store_at_selection config fs s)
              (Indexer.scan_all config fs)) as [[to_index skipped]|e'] eqn:Esel.
  2:{ by destruct Hsel as [? _]. }
  pose proof (index_after_selection config fs true s to_index skipped Esel) as Hafter.
  cbn zeta in Hafter. rewrite Hemb, length_map, Nat.eqb_refl, orb_true_r in Hafter.
  destruct Hafter as (summary & s' & calls & Hidx & _).
  exists summary, s', calls. split; [done|].
  destruct (index_Ok_inv config fs true s summary s' calls Hidx)
    as (ti & Hsel' & Htot & Hind & _ & Hcalls & _).
  rewrite Esel in Hsel'. injection Hsel' as <- Hsk.
  destruct Hsel as [Hti Hskip].
  assert (Hall : List.filter (selected config fs true (store_at_selection config fs s))
                   (Indexer.scan_all config fs) = Indexer.scan_all config fs).
  { apply forallb_filter_id. apply forallb_forall. by intros x _. }
  split; [|split].
  - rewrite Hind, Htot, Hti, Hall. by rewrite length_map.
  - rewrite <- Hsk, Hskip.
    pose proof (filter_length_split (selected config fs true (store_at_selection config fs s))
                  (Indexer.scan_all config fs)) as Hlen.
    rewrite Hall in Hlen. lia.
  - by apply Hcalls.
Qed.

(** In whole-file mode the preparing loop leaves the store alone and
    appends one item for each file it can read. *)
Lemma prepare_whole_file_step (t : string * string * option string) (st : Store)
    (items : list Indexer.EmbedItem) :
  chunking_enabled (chunking config) = false ->
  exists new,
    Indexer.prepare_file config fs (st, items) t = (st, (items ++ new)%list) /\
    length new = (if readable fs t.1.2 then 1 else 0)%nat /\
    Forall (fun item => readable fs (Indexer.it_path item) = true) new.
Proof.
  intros Hc. destruct t as [[file_id file_path] file_type].
  unfold Indexer.prepare_file, readable. cbn [fst snd].
  destruct (fs_read_text fs file_path) as [content|err] eqn:Er.
  - rewrite Hc. eexists. split; [reflexivity|]. split; [done|].
    constructor; [|constructor]. simpl. by rewrite Er.
  - exists []. by rewrite app_nil_r.
Qed.

Lemma prepare_whole_file (ts : list (string * string * option string)) (st : Store)
    (items : list Indexer.EmbedItem) :
  chunking_enabled (chunking config) = false ->
  let acc := fold_left (Indexer.prepare_file config fs) ts (st, items) in
  acc.1 = st /\
  length acc.2 = (length items + length (List.filter (fun t => readable fs t.1.2) ts))%nat /\
  (Forall (fun item => readable fs (Indexer.it_path item) = true) items ->
   Forall (fun item => readable fs (Indexer.it_path item) = true) acc.2).
Proof.
  intros Hc. cbn zeta. revert st items. induction ts as [|t ts IH]; intros st items.
  { simpl. split; [done|]. split; [lia|done]. }
  cbn [fold_left List.filter].
  destruct (prepare_whole_file_step t st items Hc) as (new & -> & Hlen & Hnew).
  destruct (IH st (items ++ new)%list) as (H1 & H2 & H3).
  split; [exact H1|]. split.
  - rewrite H2, length_app, Hlen. destruct (readable fs t.1.2); simpl; lia.
  - intros Hall. apply H3. apply Forall_app. by split.
Qed.

(** The storing loop counts one for every item whose file it can
    read. *)
Lemma store_fold_count (ps : list (Indexer.EmbedItem * Vec)) (st : Store) (n : Z) :
  Forall (fun p => readable fs (Indexer.it_path p.1) = true) ps ->
  (fold_left (Indexer.store_item fs) ps (st, n)).2 = n + Z.of_nat (length ps).
Proof.
  revert st n. induction ps as [|[item emb] ps IH]; intros st n Hall; simpl; [lia|].
  apply Forall_cons in Hall as [Hr Hall]. unfold readable in Hr. cbn [fst] in Hr.
  destruct (fs_read_text fs (Indexer.it_path item)) as [content|err]; [|done].
  destruct (parse_chunk_id (Indexer.it_id item)) as [parent chunk_idx].
  rewrite IH by done. lia.
Qed.

Lemma Forall_combine_l {A B : Type} (P : A -> Prop) (l : list A) (k : list B) :
  Forall P l -> Forall (fun p => P p.1) (combine l k).
Proof.
  intros Hl. apply list.Forall_forall. intros p Hp.
  apply elem_of_combine_l in Hp. by eapply list.Forall_forall in Hl.
Qed.

Lemma filter_map_length {A B : Type} (f : A -> B) (g : B -> bool) (l : list A) :
  length (List.filter g (map f l)) = length (List.filter (fun x => g (f x)) l).
Proof.
  induction l as [|x l IH]; simpl; [done|]. destruct (g (f x)); simpl; by rewrite IH.
Qed.

Lemma filter_filter_length {A : Type} (f g : A -> bool) (l : list A) :
  length (List.filter g (List.filter f l)) = length (List.filter (fun x => f x && g x) l).
Proof.
  induction l as [|x l IH]; simpl; [done|].
  destruct (f x); simpl; [|done]. destruct (g x); simpl; by rewrite IH.
Qed.

Lemma filter_length_le {A : Type} (f : A -> bool) (l : list A) :
  (length (List.filter f l) <= length l)%nat.
Proof. induction l as [|x l IH]; simpl; [done|]. destruct (f x); simpl; lia. Qed.

(** X16. In whole-file mode [chunks_indexed] is the number of selected
    files that can be read, so it never exceeds [files_indexed] and
    falls short of it by the files whose read failed. *)
Theorem whole_file_chunks_count rebuild s summary s' calls :
  chunking_enabled (chunking config) = false ->
  Indexer.index config fs rebuild s = Ok (summary, s', calls) ->
  Indexer.chunks_indexed summary =
    Z.of_nat (length (List.filter
                        (fun item =>
                           selected config fs rebuild (store_at_selection config fs s) item
                           && readable fs item.2.1)
                        (Indexer.scan_all config fs))) /\
  0 <= Indexer.chunks_indexed summary <= Indexer.files_indexed summary.
Proof.
  intros Hc Hidx.
  destruct (index_Ok_inv config fs rebuild s summary s' calls Hidx)
    as (to_index & Hsel & _ & Hind & _).
  pose proof (index_after_selection config fs rebuild s to_index _ Hsel) as Hafter.
  cbn zeta in Hafter.
  destruct (prepare_whole_file to_index (store_at_selection config fs s) [] Hc)
    as (Hst & Hlen & Hread). cbn zeta in Hst, Hlen, Hread.
  specialize (Hread (Forall_nil_2 _)).
  set (prep := fold_left (Indexer.prepare_file config fs) to_index
                 (store_at_selection config fs s, [])) in *.
  set (embs := embed_batch (embedding_model config) (map Indexer.it_text prep.2)) in *.
  assert (Hcount : Indexer.chunks_indexed summary = Z.of_nat (length prep.2)).
  { destruct (bool_decide (prep.2 = [])) eqn:Eb; simpl in Hafter.
    - destruct Hafter as (su & s2 & c2 & Hidx2 & _ & Hch).
      rewrite Hidx in Hidx2. injection Hidx2 as <- <- <-. rewrite Hch.
      apply bool_decide_eq_true in Eb. rewrite Eb. done.
    - destruct (Nat.eqb (length embs) (length prep.2)) eqn:En.
      2:{ destruct Hafter as [msg Hmsg]. congruence. }
      destruct Hafter as (su & s2 & c2 & Hidx2 & _ & Hch).
      rewrite Hidx in Hidx2. injection Hidx2 as <- <- <-. rewrite Hch.
      apply Nat.eqb_eq in En.
      rewrite store_fold_count
        by exact (Forall_combine_l
                    (fun item => readable fs (Indexer.it_path item) = true) _ _ Hread).
      rewrite length_combine. lia. }
  pose proof (select_files_spec config fs rebuild (store_at_selection config fs s)
                (Indexer.scan_all config fs)) as Hspec.
  rewrite Hsel in Hspec. destruct Hspec as [Hti _].
  assert (Hn : length prep.2 =
               length (List.filter
                         (fun item =>
                            selected config fs rebuild (store_at_selection config fs s) item
                            && readable fs item.2.1)
                         (Indexer.scan_all config fs))).
  { rewrite Hlen. simpl. rewrite Hti.
    rewrite (filter_map_length as_triple (fun t => readable fs t.1.2)).
    apply filter_filter_length. }
  split; [by rewrite Hcount, Hn|].
  rewrite Hcount, Hind, Hlen. simpl.
  pose proof (filter_length_le (fun t => readable fs t.1.2) to_index). lia.
Qed.

End PassTheorems.

Section PassStore.
Context `{Collaborators}.
Variable config : GundogConfig.
Variable fs : FileSystem.

(** The store a completed pass leaves is the one the storing loop
    produces. *)
Lemma index_Ok_store rebuild s summary s' calls :
  Indexer.index config fs rebuild s = Ok (summary, s', calls) ->
  exists to_index skipped,
    Indexer.select_files config fs rebuild (store_at_selection config fs s)
      (Indexer.scan_all config fs) = Ok (to_index, skipped) /\
    let prep := fold_left (Indexer.prepare_file config fs) to_index
                  (store_at_selection config fs s, []) in
    Indexer.store s' =
      (fold_left (Indexer.store_item fs)
         (combine prep.2 (embed_batch (embedding_model config)
                            (map Indexer.it_text prep.2)))
         (prep.1, 0)).1.
Proof.
  intros Hidx.
  destruct (index_Ok_inv config fs rebuild s summary s' calls Hidx)
    as (to_index & Hsel & _).
  exists to_index, (Indexer.files_skipped summary). split; [done|].
  pose proof (index_after_selection config fs rebuild s to_index _ Hsel) as Hafter.
  cbn zeta in *.
  destruct (_ || _).
  - destruct Hafter as (su & s2 & c2 & Hidx2 & Hst & _).
    rewrite Hidx in Hidx2. by injection Hidx2 as <- <- <-.
  - destruct Hafter as [msg Hmsg]. congruence.
Qed.

(** The storing loop writes well-formed metadata. *)
Lemma store_item_meta (st : Store) (n : Z) (item : Indexer.EmbedItem) (emb : Vec) :
  (Indexer.store_item fs (st, n) (item, emb)).1 = st \/
  exists e, meta_ok e.2 /\
    (Indexer.store_item fs (st, n) (item, emb)).1 = <[Indexer.it_id item := e]> st.
Proof.
  unfold Indexer.store_item.
  destruct (fs_read_text fs (Indexer.it_path item)) as [content|err]; [|by left].
  right.
  destruct (parse_chunk_id (Indexer.it_id item)) as [parent [i|]]; cbn [fst snd].
  - destruct (Indexer.it_start_line item); eexists; (split; [|reflexivity]);
      cbn [snd]; unfold meta_ok; simplify_map_eq; split_and!; eauto;
      try (split; intros [? ?]; simplify_map_eq; eauto).
  - eexists. split; [|reflexivity]. cbn [snd]. unfold meta_ok.
    simplify_map_eq. split_and!; eauto;
      try (split; intros [? ?]; simplify_map_eq; eauto).
Qed.

(** X17. The metadata of the store stays well formed over a pass: when
    every entry has [type], a float [mtime] and a string
    [content_hash], has [start_line] exactly when it has [end_line] and
    [chunk_index] exactly when it has [parent_file], then so does every
    entry of the store the pass leaves. *)
Theorem index_keeps_metadata_well_formed rebuild s summary s' calls :
  (forall id e, Indexer.store s !! id = Some e -> meta_ok e.2) ->
  Indexer.index config fs rebuild s = Ok (summary, s', calls) ->
  forall id e, Indexer.store s' !! id = Some e -> meta_ok e.2.
Proof.
  intros Hs Hidx. apply index_Ok_store in Hidx as (to_index & skipped & _ & Hst).
  cbn zeta in Hst. rewrite Hst. clear Hst.
  destruct (prepare_fold_spec config fs to_index (store_at_selection config fs s))
    as (Hsub & _ & _).
  cbn zeta in Hsub.
  set (prep := fold_left (Indexer.prepare_file config fs) to_index
                 (store_at_selection config fs s, [])) in *.
  assert (Hprep : forall id e, prep.1 !! id = Some e -> meta_ok e.2).
  { intros id e He. apply Hsub in He. unfold store_at_selection in He.
    apply remove_missing_spec in He as [He _]. by eapply Hs. }
  generalize (combine prep.2 (embed_batch (embedding_model config)
                                (map Indexer.it_text prep.2))).
  intros ps.
  apply (fold_left_inv
    (fun acc : Store * Z => forall id e, acc.1 !! id = Some e -> meta_ok e.2)).
  - exact Hprep.
  - intros [st n] [item emb] _ IH id e. cbn [fst snd] in IH.
    destruct (store_item_meta st n item emb) as [->|(e' & Hok & ->)]; [apply IH|].
    destruct (decide (Indexer.it_id item = id)) as [<-|Hne].
    + rewrite lookup_insert_eq. by intros [= <-].
    + rewrite lookup_insert_ne by done. apply IH.
Qed.

End PassStore.

Section PassFrame.
Context `{Collaborators}.
Variable config : GundogConfig.
Variable fs : FileSystem.

(** With chunking enabled, parsing inverts [make_chunk_id]. *)
Hypothesis parse_make :
  chunking_enabled (chunking config) = true ->
  forall f i, parse_chunk_id (make_chunk_id f i) = (f, Some i).
(** No scanned path has the form of a chunk id. *)
Hypothesis plain_paths :
  forall item, item ∈ Indexer.scan_all config fs ->
    parse_chunk_id item.1 = (item.1, None).

(** The ids under which a pass stores belong to the files it
    selected. *)
Lemma stored_ids_of_selected rebuild s to_index skipped
    (p : Indexer.EmbedItem * Vec) (ps : list Vec) :
  Indexer.select_files config fs rebuild (store_at_selection config fs s)
    (Indexer.scan_all config fs) = Ok (to_index, skipped) ->
  p ∈ combine
        (fold_left (Indexer.prepare_file config fs) to_index
           (store_at_selection config fs s, [])).2 ps ->
  exists item, item ∈ Indexer.scan_all config fs /\
    selected config fs rebuild (store_at_selection config fs s) item = true /\
    parent_file (Indexer.it_id p.1) = item.1.
Proof.
  intros Hsel Hp. apply elem_of_combine_l in Hp.
  destruct (prepare_fold_spec config fs to_index (store_at_selection config fs s))
    as (_ & _ & Hitems).
  destruct (Hitems _ Hp) as (t & Ht & _ & Hid).
  destruct (to_index_scanned config fs rebuild _ _ _ t Hsel Ht) as (item & Hi & -> & Hs).
  exists item. split; [done|]. split; [done|].
  unfold parent_file, as_triple in *. cbn [fst snd] in Hid.
  destruct (chunking_enabled (chunking config)) eqn:Ec.
  - destruct Hid as [i ->]. by rewrite parse_make.
  - rewrite Hid. by rewrite (plain_paths item Hi).
Qed.

(** X18. When parsing inverts [make_chunk_id] and no scanned path has the
    form of a chunk id: after a completed pass every entry of the store
    belongs to a file that the pass scanned; no entry of a vanished file
    is left and none is written for a path outside the sources. *)
Theorem pass_leaves_no_orphan_entry rebuild s summary s' calls :
  Indexer.index config fs rebuild s = Ok (summary, s', calls) ->
  forall id e, Indexer.store s' !! id = Some e ->
    parent_file id ∈ ODict.keys (Indexer.scan_all config fs).
Proof.
  intros Hidx id e He.
  apply index_Ok_store in Hidx as (to_index & skipped & Hsel & Hst).
  cbn zeta in Hst. rewrite Hst in He. clear Hst.
  match type of He with context [combine ?a ?b] =>
    destruct (store_fold_spec fs (combine a b)
                (fold_left (Indexer.prepare_file config fs) to_index
                   (store_at_selection config fs s, [])).1) as [Hfrom _]
  end.
  destruct (Hfrom id e He) as [Hold|(p & Hp & <- & _)].
  - destruct (prepare_fold_spec config fs to_index (store_at_selection config fs s))
      as (Hsub & _ & _).
    apply Hsub in Hold. unfold store_at_selection in Hold.
    apply remove_missing_spec in Hold as [_ Hmem]. by apply ODictFacts.mem_keys.
  - destruct (stored_ids_of_selected rebuild s to_index skipped p _ Hsel Hp)
      as (item & Hi & _ & ->).
    apply list_elem_of_fmap. by exists item.
Qed.

(** X19. When parsing inverts [make_chunk_id] and no scanned path has the
    form of a chunk id: a completed pass leaves the entries of the files
    it skipped as they were; for a scanned file that is not selected,
    every entry whose parent file it is has the vector and the metadata
    it had before the pass. *)
Theorem pass_leaves_skipped_files_alone rebuild s summary s' calls :
  Indexer.index config fs rebuild s = Ok (summary, s', calls) ->
  forall item id,
    item ∈ Indexer.scan_all config fs ->
    selected config fs rebuild (store_at_selection config fs s) item = false ->
    parent_file id = item.1 ->
    Indexer.store s' !! id = Indexer.store s !! id.
Proof.
  intros Hidx item id Hi Hns Hpar.
  apply index_Ok_store in Hidx as (to_index & skipped & Hsel & Hst).
  cbn zeta in Hst. rewrite Hst. clear Hst.
  destruct (scan_all_wf config fs) as [Hnd Hkey].
  assert (Hother : forall item', item' ∈ Indexer.scan_all config fs ->
            selected config fs rebuild (store_at_selection config fs s) item' = true ->
            item'.1 <> item.1).
  { intros item' Hi' Hs' Heq.
    assert (item' = item) by (by eapply NoDup_keys_inj). subst. congruence. }
  match goal with |- context [combine ?a ?b] =>
    destruct (store_fold_spec fs (combine a b)
                (fold_left (Indexer.prepare_file config fs) to_index
                   (store_at_selection config fs s, [])).1) as [_ Hkeep]
  end.
  rewrite Hkeep.
  2:{ intros p Hp Hid.
      destruct (stored_ids_of_selected rebuild s to_index skipped p _ Hsel Hp)
        as (item' & Hi' & Hs' & Hpar').
      apply (Hother item' Hi' Hs'). rewrite <- Hpar', Hid. exact Hpar. }
  destruct (prepare_fold_spec config fs to_index (store_at_selection config fs s))
    as (_ & Hsame & _).
  rewrite Hsame.
  2:{ intros t Ht Heq.
      destruct (to_index_scanned config fs rebuild _ _ _ t Hsel Ht) as (item' & Hi' & -> & Hs').
      apply (Hother item' Hi' Hs'). unfold as_triple in Heq. cbn [fst snd] in Heq.
      congruence. }
  unfold store_at_selection.
  rewrite remove_missing_lookup, Hpar.
  assert (Hmem : ODict.mem (Indexer.scan_all config fs) item.1 = true).
  { apply ODictFacts.mem_keys. apply list_elem_of_fmap. by exists item. }
  by rewrite Hmem.
Qed.

End PassFrame.

Section Bm25Facts.
Context `{Collaborators}.
Variable config : GundogConfig.
Variable fs : FileSystem.

Lemma documents_loop (f : string -> option string) (l : list string)
    (docs : gmap string string) (id : string) :
  fold_left
    (fun documents item_id =>
       match f item_id with
       | Some d => <[item_id := d]> documents
       | None => documents
       end) l docs !! id
  = if bool_decide (id ∈ l)
    then match f id with Some d => Some d | None => docs !! id end
    else docs !! id.
Proof.
  revert docs. induction l as [|x l IH]; intros docs; simpl; [done|].
  rewrite IH. destruct (decide (id = x)) as [->|Hne].
  - rewrite (bool_decide_eq_true_2 (x ∈ x :: l)) by left.
    destruct (f x) as [d|] eqn:Ef.
    + rewrite lookup_insert_eq. by destruct (bool_decide _).
    + by destruct (bool_decide _).
  - assert (Hb : bool_decide (id ∈ x :: l) = bool_decide (id ∈ l)).
    { apply bool_decide_ext. rewrite elem_of_cons. tauto. }
    rewrite Hb. destruct (f x); [by rewrite lookup_insert_ne|done].
Qed.

(** X20. The documents handed to [bm25.build] are keyed by store ids: an
    id has a document exactly when it is in the store and the loop body
    yields one for it. In whole-file mode that is when the id names an
    existing file that can be read, and the document is the path, a
    line feed and the file's text; an entry whose file is gone or
    unreadable gets no document and raises nothing. *)
Theorem bm25_documents_spec (st : Store) :
  (forall id,
     Indexer.bm25_documents config fs st !! id =
       match st !! id with
       | Some _ => Indexer.bm25_document config fs st id
       | None => None
       end) /\
  (chunking_enabled (chunking config) = false ->
   forall id d,
     Indexer.bm25_documents config fs st !! id = Some d <->
     is_Some (st !! id) /\ fs_exists fs id = true /\
     exists content, fs_read_text fs id = Ok content /\ d = id ++ nl ++ content).
Proof.
  assert (Hdoc : forall id,
     Indexer.bm25_documents config fs st !! id =
       match st !! id with
       | Some _ => Indexer.bm25_document config fs st id
       | None => None
       end).
  { intros id. unfold Indexer.bm25_documents.
    rewrite (documents_loop (Indexer.bm25_document config fs st)).
    rewrite lookup_empty.
    destruct (st !! id) as [e|] eqn:E.
    - rewrite bool_decide_eq_true_2.
      + by destruct (Indexer.bm25_document config fs st id).
      + unfold Indexer.all_ids. apply list_elem_of_fmap. exists (id, e).
        split; [done|]. by apply elem_of_map_to_list.
    - rewrite bool_decide_eq_false_2; [done|].
      unfold Indexer.all_ids. intros Hin.
      apply list_elem_of_fmap in Hin as ([id' e] & -> & He).
      apply elem_of_map_to_list in He. simpl in E. congruence. }
  split; [exact Hdoc|].
  intros Hc id d. rewrite Hdoc. unfold Indexer.bm25_document. rewrite Hc.
  destruct (st !! id) as [e|].
  - destruct (fs_exists fs id).
    + destruct (fs_read_text fs id) as [content|err].
      * split.
        -- intros [= <-]. split; [eauto|]. split; [done|]. eauto.
        -- intros (_ & _ & c & [= <-] & ->). done.
      * split; [done|]. by intros (_ & _ & c & ? & _).
    + split; [done|]. by intros (_ & ? & _).
  - split; [done|]. intros ([? ?] & _). done.
Qed.

End Bm25Facts.

Section IndexerExtraRuns.
#[local] Existing Instance Demo.collaborators.
Import Scenario.

Lemma index_raises_only_when_witness :
  exists e,
    Indexer.index (cfg false false [docs_source]) fs_undecodable false Cases.stale_state
      = Raise e /\
    ((false = false /\
      exists item, item ∈ Indexer.scan_all (cfg false false [docs_source]) fs_undecodable /\
        no_entry (cfg false false [docs_source])
          (store_at_selection (cfg false false [docs_source]) fs_undecodable
             Cases.stale_state) item.2.1 = false /\
        mtime_differs (cfg false false [docs_source]) fs_undecodable
          (store_at_selection (cfg false false [docs_source]) fs_undecodable
             Cases.stale_state) item.2.1 = true /\
        fs_read_text fs_undecodable item.2.1 = Raise e) \/
     (exists msg texts,
        e = ValueError msg /\ texts <> [] /\
        length (embed_batch (embedding_model (cfg false false [docs_source])) texts)
        <> length texts)).
Proof.
  destruct (Indexer.index (cfg false false [docs_source]) fs_undecodable false
              Cases.stale_state) as [r|e] eqn:E.
  { exfalso. assert (Hout : outcome (Indexer.index (cfg false false [docs_source])
                                       fs_undecodable false Cases.stale_state) = None)
      by (vm_compute; reflexivity).
    rewrite E in Hout. destruct r as [[? ?] ?]. discriminate Hout. }
  exists e. split; [reflexivity|].
  exact (index_raises_only_when (cfg false false [docs_source]) fs_undecodable false
           Cases.stale_state e E).
Defined.

Lemma rebuild_pass_indexes_every_file_witness :
  exists summary s' calls,
    Indexer.index (cfg true true [docs_source]) fs_one true fresh
      = Ok (summary, s', calls) /\
    Indexer.files_indexed summary = Indexer.files_total summary /\
    Indexer.files_skipped summary = 0 /\
    calls = rebuild_calls (cfg true true [docs_source]).
Proof.
  refine (rebuild_pass_indexes_every_file (cfg true true [docs_source]) fs_one fresh _).
  intros texts. cbn. by rewrite length_map.
Defined.

Lemma whole_file_chunks_count_witness :
  exists summary s' calls,
    Indexer.index (cfg false false [docs_source]) fs_undecodable false fresh
      = Ok (summary, s', calls) /\
    0 <= Indexer.chunks_indexed summary <= Indexer.files_indexed summary.
Proof.
  destruct (Indexer.index (cfg false false [docs_source]) fs_undecodable false fresh)
    as [[[summary s'] calls]|e] eqn:E.
  2:{ exfalso. pose proof run_undecodable_once as Hout. rewrite E in Hout.
      discriminate Hout. }
  exists summary, s', calls. split; [reflexivity|].
  exact (proj2 (whole_file_chunks_count (cfg false false [docs_source]) fs_undecodable
                  false fresh summary s' calls eq_refl E)).
Defined.

Lemma index_keeps_metadata_well_formed_witness :
  exists summary s' calls,
    Indexer.index (cfg true true [docs_source]) fs_one false fresh
      = Ok (summary, s', calls) /\
    forall id e, Indexer.store s' !! id = Some e -> meta_ok e.2.
Proof.
  destruct (Indexer.index (cfg true true [docs_source]) fs_one false fresh)
    as [[[summary s'] calls]|e] eqn:E.
  2:{ exfalso. pose proof run_one_file_chunked as Hout. rewrite E in Hout.
      discriminate Hout. }
  exists summary, s', calls. split; [reflexivity|].
  refine (index_keeps_metadata_well_formed (cfg true true [docs_source]) fs_one false
            fresh summary s' calls _ E).
  intros id e He. cbn in He. by rewrite lookup_empty in He.
Defined.

Lemma scan_one_file :
  Indexer.scan_all (cfg false false [docs_source]) fs_one
  = [("docs/a.md", ("docs/a.md", Some "docs"))].
Proof. vm_compute. reflexivity. Qed.

Lemma pass_leaves_no_orphan_entry_witness :
  exists summary s' calls,
    Indexer.index (cfg false false [docs_source]) fs_one false fresh
      = Ok (summary, s', calls) /\
    forall id e, Indexer.store s' !! id = Some e ->
      parent_file id ∈ ODict.keys (Indexer.scan_all (cfg false false [docs_source]) fs_one).
Proof.
  destruct (Indexer.index (cfg false false [docs_source]) fs_one false fresh)
    as [[[summary s'] calls]|e] eqn:E.
  2:{ exfalso. pose proof run_one_file_no_hybrid as Hout. rewrite E in Hout.
      discriminate Hout. }
  exists summary, s', calls. split; [reflexivity|].
  refine (pass_leaves_no_orphan_entry (cfg false false [docs_source]) fs_one _ _
            false fresh summary s' calls E).
  - intros [=].
  - intros item Hi. rewrite scan_one_file in Hi. apply list_elem_of_singleton in Hi as ->.
    vm_compute. reflexivity.
Defined.

Lemma pass_leaves_skipped_files_alone_witness :
  exists summary1 s1 calls1 summary2 s2 calls2,
    Indexer.index (cfg false false [docs_source]) fs_one false fresh
      = Ok (summary1, s1, calls1) /\
    Indexer.index (cfg false false [docs_source]) fs_one false s1
      = Ok (summary2, s2, calls2) /\
    forall item id,
      item ∈ Indexer.scan_all (cfg false false [docs_source]) fs_one ->
      selected (cfg false false [docs_source]) fs_one false
        (store_at_selection (cfg false false [docs_source]) fs_one s1) item = false ->
      parent_file id = item.1 ->
      Indexer.store s2 !! id = Indexer.store s1 !! id.
Proof.
  destruct (Indexer.index (cfg false false [docs_source]) fs_one false fresh)
    as [[[summary1 s1] calls1]|e] eqn:E1.
  2:{ exfalso. pose proof run_one_file_no_hybrid as Hout. rewrite E1 in Hout.
      discriminate Hout. }
  destruct (Indexer.index (cfg false false [docs_source]) fs_one false s1)
    as [[[summary2 s2] calls2]|e] eqn:E2.
  2:{ exfalso.
      assert (Hout : outcome (Indexer.index (cfg false false [docs_source]) fs_one false
                 (state_after (Indexer.index (cfg false false [docs_source]) fs_one false
                                 fresh))) <> None) by (vm_compute; discriminate).
      rewrite E1 in Hout. cbn [state_after] in Hout. rewrite E2 in Hout. by apply Hout. }
  exists summary1, s1, calls1, summary2, s2, calls2.
  split; [reflexivity|]. split; [exact E2|].
  refine (pass_leaves_skipped_files_alone (cfg false false [docs_source]) fs_one _ _
            false s1 summary2 s2 calls2 E2).
  - intros [=].
  - intros item Hi. rewrite scan_one_file in Hi. apply list_elem_of_singleton in Hi as ->.
    vm_compute. reflexivity.
Defined.

End IndexerExtraRuns.

(* ================================================================== *)
(** * Further facts about the index manager and the request handlers *)
(* ================================================================== *)

Section ManagerExtras.
Context `{Collaborators}.
Variable daemon_config : Daemon.DaemonConfig.
Variable disk : Daemon.Disk.
Variable defaults : GundogConfig.

#[local] Abbreviation load_index := (Daemon.load_index daemon_config disk defaults).
#[local] Abbreviation ensure_loaded := (Daemon.ensure_loaded daemon_config disk defaults).

(** A call of [load_index] that returns leaves the index active with
    an engine. *)
Lemma load_index_Ok (name : string) (m m' : Daemon.Manager) :
  load_index name m = (Ok tt, m') ->
  Daemon._active_index m' = Some name /\ Daemon.is_some (Daemon._engine m') = true.
Proof.
  intros Hl.
  destruct (load_index_cases daemon_config disk defaults name m)
    as [[Ha E]|[(_ & _ & E)|[(_ & _ & e & E)|(_ & _ & c & en & _ & E)]]];
    rewrite E in Hl; try done; injection Hl as <-.
  - unfold already_loaded in Ha. apply andb_true_iff in Ha as [Ha ?].
    apply bool_decide_eq_true in Ha. by split.
  - by split.
Qed.

Lemma load_index_Raise (name : string) (m m' : Daemon.Manager) (e : exn) :
  load_index name m = (Raise e, m') -> m' = m.
Proof.
  intros Hl.
  destruct (load_index_cases daemon_config disk defaults name m)
    as [[Ha E]|[(_ & _ & E)|[(_ & _ & e' & E)|(_ & _ & c & en & _ & E)]]];
    rewrite E in Hl; try done; by injection Hl as _ <-.
Qed.

(** X22. When [load_index] returns, the manager has that index active
    and holds an engine, so the [assert] of [ensure_loaded] cannot fail
    after it; and a further [load_index] of the same name returns at
    once with the manager as it is, whatever the disk holds by then. *)
Theorem load_index_then_active_and_cached (name : string) (m m' : Daemon.Manager) :
  load_index name m = (Ok tt, m') ->
  Daemon._active_index m' = Some name /\
  (exists engine, Daemon._engine m' = Some engine) /\
  forall disk', Daemon.load_index daemon_config disk' defaults name m' = (Ok tt, m').
Proof.
  intros Hl. apply load_index_Ok in Hl as [Ha He]. split; [done|]. split.
  - destruct (Daemon._engine m') as [engine|]; [eauto|done].
  - intros disk'. unfold Daemon.load_index, Daemon.seq, Daemon.get_self.
    rewrite Ha, He. by rewrite bool_decide_eq_true_2.
Qed.

Lemma ensure_loaded_Ok (index_name : option string) (m m' : Daemon.Manager)
    (engine : Query.QueryEngine) :
  ensure_loaded index_name m = (Ok engine, m') ->
  exists target,
    target_index daemon_config index_name = Some target /\
    Daemon._active_index m' = Some target /\
    Daemon._engine m' = Some engine.
Proof.
  unfold Daemon.ensure_loaded, target_index.
  destruct (if str_truthy index_name then index_name
            else Daemon.default_index daemon_config) as [target|]; [|done].
  unfold Daemon.seq at 1.
  destruct (load_index target m) as [[[]|e0] m1] eqn:El; [|done].
  apply load_index_Ok in El as [Ha He].
  unfold Daemon.seq, Daemon.get_self.
  destruct (Daemon._engine m1) as [en|] eqn:Een; [|done]. unfold Daemon.ret.
  intros [= <- <-]. exists target. by repeat split.
Qed.

Lemma ensure_loaded_Raise (index_name : option string) (m m' : Daemon.Manager) (e : exn) :
  ensure_loaded index_name m = (Raise e, m') -> m' = m.
Proof.
  unfold Daemon.ensure_loaded.
  destruct (if str_truthy index_name then index_name
            else Daemon.default_index daemon_config) as [target|].
  2:{ by intros [= _ <-]. }
  unfold Daemon.seq at 1.
  destruct (load_index target m) as [[[]|e0] m1] eqn:El.
  - apply load_index_Ok in El as [Ha He].
    unfold Daemon.seq, Daemon.get_self.
    by destruct (Daemon._engine m1) as [en|] eqn:Een.
  - apply load_index_Raise in El as ->. by intros [= _ <-].
Qed.


(** X23. [ensure_loaded] treats an empty index name as none and falls
    back to the default index. When it returns, the engine it returns is
    the one the manager holds, and the active index is the requested one:
    the named index, else the default. When it raises, the manager is
    left as it was. *)
Theorem ensure_loaded_returns_active_engine (index_name : option string)
    (m : Daemon.Manager) :
  Daemon.ensure_loaded daemon_config disk defaults (Some "") m
  = Daemon.ensure_loaded daemon_config disk defaults None m /\
  (forall engine m', ensure_loaded index_name m = (Ok engine, m') ->
     exists target,
       target_index daemon_config index_name = Some target /\
       Daemon._active_index m' = Some target /\
       Daemon._engine m' = Some engine) /\
  (forall e m', ensure_loaded index_name m = (Raise e, m') -> m' = m).
Proof.
  split; [reflexivity|]. split.
  - intros engine m'. apply ensure_loaded_Ok.
  - intros e m'. apply ensure_loaded_Raise.
Qed.

(** X24. An index that [load_index] loads is read from the [.gundog]
    directory of its registered path, whatever storage path the
    project's [config.yaml] names: the engine's storage path is
    [<.gundog>/index]. Without a [config.yaml] the engine runs on the
    default configuration with no sources. *)
Theorem loaded_engine_reads_registered_directory (name : string)
    (m m' : Daemon.Manager) :
  already_loaded name m = false ->
  load_index name m = (Ok tt, m') ->
  exists index_path engine,
    Daemon.get_index_path daemon_config name = Some index_path /\
    Daemon._engine m' = Some engine /\
    Daemon.QueryEngine_init disk (Query.config engine) = Ok engine /\
    storage_path (Query.config engine) = path_join (gundog_dir index_path) "index" /\
    (Daemon.config_file_exists disk (path_join (gundog_dir index_path) "config.yaml")
       = false ->
     Query.config engine
     = Daemon.with_storage_path (Daemon.with_sources defaults [])
         (path_join (gundog_dir index_path) "index")).
Proof.
  unfold already_loaded, Daemon.load_index, Daemon.seq, Daemon.get_self. intros ->.
  destruct (Daemon.get_index_path daemon_config name) as [index_path|]; [|done].
  fold (gundog_dir index_path).
  assert (Hinit : forall c engine,
            Daemon.QueryEngine_init disk c = Ok engine -> Query.config engine = c).
  { intros c engine. unfold Daemon.QueryEngine_init.
    destruct (Daemon.load_embedder disk _); [|done]. simpl.
    destruct (Daemon.load_store disk _ _); [|done]. simpl.
    destruct (Daemon.load_graph disk _); [|done]. simpl.
    destruct (if hybrid_enabled (hybrid c) then _ else _); [|done]. simpl.
    by intros [= <-]. }
  destruct (Daemon.config_file_exists disk (path_join (gundog_dir index_path) "config.yaml"))
    eqn:Ec.
  - unfold Daemon.lift, Daemon.ret.
    destruct (Daemon.load_config disk _) as [c|e]; [|done].
    destruct (Daemon.QueryEngine_init disk _) as [engine|e] eqn:Ee; [|done].
    unfold Daemon.set_engine, Daemon.set_active_index. cbn. intros Heq.
    assert (Hm : m' = {| Daemon._engine := Some engine; Daemon._active_index := Some name |})
      by congruence.
    subst m'. clear Heq. cbn.
    exists index_path, engine. rewrite (Hinit _ _ Ee). repeat split; try done; congruence.
  - unfold Daemon.lift, Daemon.ret.
    destruct (Daemon.QueryEngine_init disk _) as [engine|e] eqn:Ee; [|done].
    unfold Daemon.set_engine, Daemon.set_active_index. cbn. intros Heq.
    assert (Hm : m' = {| Daemon._engine := Some engine; Daemon._active_index := Some name |})
      by congruence.
    subst m'. clear Heq. cbn.
    exists index_path, engine. rewrite (Hinit _ _ Ee). repeat split; try done; congruence.
Qed.

End ManagerExtras.

Section AppExtras.
Context `{Collaborators}.
Variable daemon_config : Daemon.DaemonConfig.
Variable disk : Daemon.Disk.
Variable defaults : GundogConfig.
Variable build_line_anchor : pyval -> Z -> Z -> string.
Variable py_int : string -> result Z.
Variable float_repr : Q -> string.
Variable unpack_message : nat -> string.
Variable exn_str : exn -> string.
Variable load_error_is_ValueError : string -> bool.

#[local] Abbreviation build_file_url :=
  (App.build_file_url build_line_anchor py_int float_repr unpack_message).
#[local] Abbreviation api_direct :=
  (App.api_direct build_line_anchor py_int float_repr unpack_message).
#[local] Abbreviation api_related :=
  (App.api_related build_line_anchor py_int float_repr unpack_message).
#[local] Abbreviation set_active_index :=
  (App.set_active_index daemon_config disk defaults).
#[local] Abbreviation query_api :=
  (App.query_api daemon_config disk defaults build_line_anchor py_int float_repr
     unpack_message exn_str load_error_is_ValueError).

Lemma direct_dict_keys (d : Query.DirectEntry) (k : string) :
  k <> "path" -> k <> "type" -> k <> "score" -> k <> "chunk" -> k <> "lines" ->
  App.direct_dict float_repr d !! k = None.
Proof.
  intros. unfold App.direct_dict.
  destruct (Query.d_chunk d), (Query.d_lines d) as [[? ?]|];
    by rewrite ?lookup_insert_ne, lookup_empty by done.
Qed.

Lemma related_dict_keys (r : Query.RelatedEntry) (k : string) :
  k <> "path" -> k <> "type" -> k <> "via" -> k <> "edge_weight" -> k <> "depth" ->
  k <> "chunk" ->
  App.related_dict r !! k = None.
Proof.
  intros. unfold App.related_dict.
  destruct (Query.r_chunk r); by rewrite ?lookup_insert_ne, lookup_empty by done.
Qed.

(** X25. [build_file_url] returns the empty string, and raises nothing,
    whenever [git_url], [git_branch] or [git_relative_path] is missing
    from the result or falsy. The entries that [QueryEngine.query]
    builds carry none of these keys, so for every direct and every
    related entry of a query result the URL is empty. *)
Theorem build_file_url_empty_without_git_keys :
  (forall result,
     truthy (dict_get result "git_url") = false \/
     truthy (dict_get result "git_branch") = false \/
     truthy (dict_get result "git_relative_path") = false ->
     build_file_url result = App.Return "") /\
  (forall d, build_file_url (App.direct_dict float_repr d) = App.Return "") /\
  (forall r, build_file_url (App.related_dict r) = App.Return "").
Proof.
  assert (Hgen : forall result,
     truthy (dict_get result "git_url") = false \/
     truthy (dict_get result "git_branch") = false \/
     truthy (dict_get result "git_relative_path") = false ->
     build_file_url result = App.Return "").
  { intros result Hor. unfold App.build_file_url.
    destruct Hor as [Hx|[Hx|Hx]]; rewrite Hx; simpl; by rewrite ?orb_true_r. }
  split; [exact Hgen|]. split.
  - intros d. apply Hgen. left. unfold dict_get.
    by rewrite direct_dict_keys.
  - intros r. apply Hgen. left. unfold dict_get.
    by rewrite related_dict_keys.
Qed.

Lemma map_response_Return {A B : Type} (f : A -> App.response B) (g : A -> B) (l : list A) :
  (forall x, f x = App.Return (g x)) -> App.map_response f l = App.Return (map g l).
Proof.
  intros Hf. induction l as [|x l IH]; simpl; [done|]. by rewrite Hf, IH.
Qed.

Lemma api_direct_Return (d : Query.DirectEntry) :
  api_direct d =
    App.Return {| App.ad_path := Query.d_path d;
                  App.ad_name := path_name (Query.d_path d);
                  App.ad_type := Query.d_type d;
                  App.ad_score := PFloat (Query.d_score d);
                  App.ad_lines := dict_get (App.direct_dict float_repr d) "lines";
                  App.ad_url := "" |}.
Proof.
  unfold App.api_direct.
  assert (Hurl : build_file_url (App.direct_dict float_repr d) = App.Return "").
  { unfold App.build_file_url, dict_get. by rewrite direct_dict_keys. }
  by rewrite Hurl.
Qed.

Lemma api_related_Return (r : Query.RelatedEntry) :
  api_related r =
    App.Return {| App.ar_path := Query.r_path r;
                  App.ar_name := path_name (Query.r_path r);
                  App.ar_type := Query.r_type r;
                  App.ar_via := Query.r_via r;
                  App.ar_via_name := path_name (Query.r_via r);
                  App.ar_weight := PFloat (Query.r_edge_weight r);
                  App.ar_url := "" |}.
Proof.
  unfold App.api_related.
  assert (Hurl : build_file_url (App.related_dict r) = App.Return "").
  { unfold App.build_file_url, dict_get. by rewrite related_dict_keys. }
  by rewrite Hurl.
Qed.

(** The handler of [/api/query], case by case. *)
Lemma query_api_cases (q : string) (k : Z) (index : option string) (m : Daemon.Manager) :
  match Daemon.ensure_loaded daemon_config disk defaults index m with
  | (Raise e, m') =>
      query_api q k index m =
        (if App.is_ValueError load_error_is_ValueError e
         then App.HTTPException 400 (App.str_of_exn exn_str e)
         else App.Uncaught (App.Exn e), m')
  | (Ok engine, m') =>
      match Query.query engine q k true None None (1 # 2) with
      | Raise e => query_api q k index m = (App.Uncaught (App.Exn e), m')
      | Ok result =>
          query_api q k index m =
            (App.Return
               {| App.rp_query := q;
                  App.rp_index := Daemon._active_index m';
                  App.rp_direct :=
                    map (fun d =>
                           {| App.ad_path := Query.d_path d;
                              App.ad_name := path_name (Query.d_path d);
                              App.ad_type := Query.d_type d;
                              App.ad_score := PFloat (Query.d_score d);
                              App.ad_lines := dict_get (App.direct_dict float_repr d) "lines";
                              App.ad_url := "" |})
                      (Query.direct result);
                  App.rp_related :=
                    map (fun r =>
                           {| App.ar_path := Query.r_path r;
                              App.ar_name := path_name (Query.r_path r);
                              App.ar_type := Query.r_type r;
                              App.ar_via := Query.r_via r;
                              App.ar_via_name := path_name (Query.r_via r);
                              App.ar_weight := PFloat (Query.r_edge_weight r);
                              App.ar_url := "" |})
                      (Query.related result) |}, m')
      end
  end.
Proof.
  unfold App.query_api.
  destruct (Daemon.ensure_loaded daemon_config disk defaults index m) as [[engine|e] m'].
  2:{ by destruct (App.is_ValueError _ _). }
  destruct (Query.query engine q k true None None (1 # 2))
    as [result|e] eqn:Eq; [|done].
  rewrite (map_response_Return _ _ _ api_direct_Return).
  rewrite (map_response_Return _ _ _ api_related_Return).
  f_equal. f_equal. f_equal.
  unfold Query.query in Eq.
  destruct (Query.map_result _ _); [|done]. simpl in Eq. by injection Eq as <-.
Qed.



(** X28. A reply of [GET /api/query] comes from the engine of the
    requested index, the named one or else the default, which is the
    active index when the handler returns and the one the reply names.
    It repeats the query text and lists the direct and the related
    entries of [engine.query(q, top_k=k)] in their order, each with the
    file name of its path and an empty URL. *)
Theorem query_api_reply (q : string) (k : Z) (index : option string)
    (m m' : Daemon.Manager) (reply : App.QueryReply) :
  query_api q k index m = (App.Return reply, m') ->
  exists target engine result,
    target_index daemon_config index = Some target /\
    Daemon._active_index m' = Some target /\
    Daemon._engine m' = Some engine /\
    Query.query engine q k true None None (1 # 2) = Ok result /\
    App.rp_query reply = q /\
    App.rp_index reply = Some target /\
    App.rp_direct reply =
      map (fun d =>
             {| App.ad_path := Query.d_path d;
                App.ad_name := path_name (Query.d_path d);
                App.ad_type := Query.d_type d;
                App.ad_score := PFloat (Query.d_score d);
                App.ad_lines := dict_get (App.direct_dict float_repr d) "lines";
                App.ad_url := "" |})
        (Query.direct result) /\
    App.rp_related reply =
      map (fun r =>
             {| App.ar_path := Query.r_path r;
                App.ar_name := path_name (Query.r_path r);
                App.ar_type := Query.r_type r;
                App.ar_via := Query.r_via r;
                App.ar_via_name := path_name (Query.r_via r);
                App.ar_weight := PFloat (Query.r_edge_weight r);
                App.ar_url := "" |})
        (Query.related result).
Proof.
  intros Hq. pose proof (query_api_cases q k index m) as Hcases.
  destruct (Daemon.ensure_loaded daemon_config disk defaults index m) as [[engine|e] m1]
    eqn:Ee.
  2:{ rewrite Hcases in Hq. by destruct (App.is_ValueError _ _). }
  destruct (ensure_loaded_Ok daemon_config disk defaults index m m1 engine Ee)
    as (target & Ht & Ha & He).
  destruct (Query.query engine q k true None None (1 # 2)) as [result|e] eqn:Eq;
    rewrite Hcases in Hq; [|done].
  injection Hq as <- <-. exists target, engine, result. by repeat split.
Qed.

(** X29. The startup hook never fails: without a default index it leaves
    the manager alone, and otherwise the manager is either as it was,
    when the load raised, or has the default index active with an engine
    loaded. *)
Theorem warmup_outcome (m : Daemon.Manager) :
  (str_truthy (Daemon.default_index daemon_config) = false ->
   App.warmup daemon_config disk defaults m = (tt, m)) /\
  ((App.warmup daemon_config disk defaults m).2 = m \/
   exists name engine,
     Daemon.default_index daemon_config = Some name /\
     Daemon._active_index (App.warmup daemon_config disk defaults m).2 = Some name /\
     Daemon._engine (App.warmup daemon_config disk defaults m).2 = Some engine).
Proof.
  unfold App.warmup.
  destruct (str_truthy (Daemon.default_index daemon_config)) eqn:Ed; [|by split; [|left]].
  split; [done|].
  destruct (Daemon.ensure_loaded daemon_config disk defaults None m) as [[engine|e] m1]
    eqn:Ee.
  - right. destruct (ensure_loaded_Ok daemon_config disk defaults None m m1 engine Ee)
      as (target & Ht & Ha & He).
    unfold target_index in Ht. simpl in Ht. exists target, engine. by repeat split.
  - left. simpl. by eapply ensure_loaded_Raise.
Qed.

End AppExtras.

Section ManagerExtraRuns.
#[local] Existing Instance Demo.collaborators.
Import Scenario.

Lemma load_index_then_active_and_cached_witness :
  exists m',
    Daemon.load_index registry good_disk (cfg false false []) "x" Daemon.new_manager
      = (Ok tt, m') /\
    Daemon._active_index m' = Some "x" /\
    Daemon.load_index registry corrupt_disk (cfg false false []) "x" m' = (Ok tt, m').
Proof.
  assert (Hout : (Daemon.load_index registry good_disk (cfg false false []) "x"
                    Daemon.new_manager).1 = Ok tt) by (vm_compute; reflexivity).
  destruct (Daemon.load_index registry good_disk (cfg false false []) "x"
              Daemon.new_manager) as [r m'] eqn:E.
  cbn [fst] in Hout. subst r.
  exists m'. split; [reflexivity|].
  destruct (load_index_then_active_and_cached registry good_disk (cfg false false [])
              "x" Daemon.new_manager m' E) as (Ha & _ & Hc).
  split; [exact Ha|exact (Hc corrupt_disk)].
Defined.

Lemma loaded_engine_reads_registered_directory_witness :
  exists m' engine,
    Daemon.load_index registry good_disk (cfg false false []) "x" Daemon.new_manager
      = (Ok tt, m') /\
    Daemon._engine m' = Some engine /\
    storage_path (Query.config engine) = "/repos/x/.gundog/index".
Proof.
  assert (Hout : (Daemon.load_index registry good_disk (cfg false false []) "x"
                    Daemon.new_manager).1 = Ok tt) by (vm_compute; reflexivity).
  destruct (Daemon.load_index registry good_disk (cfg false false []) "x"
              Daemon.new_manager) as [r m'] eqn:E.
  cbn [fst] in Hout. subst r.
  destruct (loaded_engine_reads_registered_directory registry good_disk
              (cfg false false []) "x" Daemon.new_manager m' eq_refl E)
    as (index_path & engine & Hp & He & _ & Hs & _).
  exists m', engine. split; [reflexivity|]. split; [exact He|].
  rewrite Hs. injection Hp as <-. vm_compute. reflexivity.
Defined.


Lemma query_api_reply_witness :
  exists reply m',
    App.query_api registry good_disk (cfg false false [])
      (fun _ _ _ => "") (fun _ => Ok 0) (fun _ => "") (fun _ => "") (fun _ => "")
      (fun _ => false) "hello" 10 None Daemon.new_manager
    = (App.Return reply, m') /\
    App.rp_index reply = Some "x" /\ App.rp_query reply = "hello".
Proof.
  assert (Hout : match (App.query_api registry good_disk (cfg false false [])
                          (fun _ _ _ => "") (fun _ => Ok 0) (fun _ => "") (fun _ => "")
                          (fun _ => "") (fun _ => false) "hello" 10 None
                          Daemon.new_manager).1
                  with App.Return _ => True | _ => False end)
    by (vm_compute; exact I).
  destruct (App.query_api registry good_disk (cfg false false [])
              (fun _ _ _ => "") (fun _ => Ok 0) (fun _ => "") (fun _ => "") (fun _ => "")
              (fun _ => false) "hello" 10 None Daemon.new_manager)
    as [[reply| |] m'] eqn:E; cbn [fst] in Hout; [|destruct Hout|destruct Hout].
  exists reply, m'. split; [reflexivity|].
  destruct (query_api_reply registry good_disk (cfg false false [])
              (fun _ _ _ => "") (fun _ => Ok 0) (fun _ => "") (fun _ => "") (fun _ => "")
              (fun _ => false) "hello" 10 None Daemon.new_manager m' reply E)
    as (target & engine & result & Ht & _ & _ & _ & Hq & Hi & _).
  split; [|exact Hq]. rewrite Hi. exact (eq_sym Ht).
Defined.

End ManagerExtraRuns.
